(** * torchchat model builder: recipes, fusion, KV cache, rope scaling

    A shallow embedding of [torchchat/model.py] and statements of its
    specification.  Python objects become records, dictionaries become
    finite maps or association lists (where iteration order matters),
    exceptions become the [Raise] branch of a result type, and methods
    that mutate [self] become state-passing functions whose state
    survives a raised exception, as it does in Python.

    Numbers.  Python [int]s are [Z].  Tensor elements and Python floats
    are exact rationals [Q]: every comparison and arithmetic step of the
    source is kept, rounding is not modelled.  [torch.pi] is the rational
    number the binary64 constant denotes. *)

From Stdlib Require Import ZArith QArith Lqa Lia List String Ascii Bool Permutation Sorted.
From stdpp Require Import base option list gmap strings.

Local Open Scope Z_scope.

(** ** Exceptions and results *)

Module Py.

Inductive exn : Type :=
| ValueError
| AssertionError
| ZeroDivisionError
| RuntimeError
| IndexError
| KeyError
| AttributeError
| TypeError.

Inductive res (A : Type) : Type :=
| Ret (a : A)
| Raise (e : exn).
Arguments Ret {A} a.
Arguments Raise {A} e.

Definition res_bind {A B} (c : res A) (k : A -> res B) : res B :=
  match c with
  | Ret a => k a
  | Raise e => Raise e
  end.

Definition raises {A} (c : res A) : Prop := exists e, c = Raise e.

(** A method of an object of type [S]: it returns or raises, and in both
    cases leaves a (possibly mutated) object behind. *)
Definition M (S A : Type) : Type := S -> res A * S.

Definition st_ret {S A} (a : A) : M S A := fun s => (Ret a, s).
Definition st_raise {S A} (e : exn) : M S A := fun s => (Raise e, s).
Definition st_bind {S A B} (c : M S A) (k : A -> M S B) : M S B :=
  fun s => match c s with
           | (Ret a, s') => k a s'
           | (Raise e, s') => (Raise e, s')
           end.
Definition st_get {S} : M S S := fun s => (Ret s, s).
Definition st_put {S} (s' : S) : M S unit := fun _ => (Ret tt, s').
Definition st_lift {S A} (c : res A) : M S A := fun s => (c, s).

(** [for x in xs: body x] *)
Fixpoint st_for {S A} (xs : list A) (body : A -> M S unit) : M S unit :=
  match xs with
  | [] => st_ret tt
  | x :: xs' => st_bind (body x) (fun _ => st_for xs' body)
  end.

End Py.
Export Py.

Notation "'let?' x ':=' c 'in' k" := (res_bind c (fun x => k))
  (at level 10, x pattern, c at level 100, k at level 200).
Notation "'let!' x ':=' c 'in' k" := (st_bind c (fun x => k))
  (at level 10, x pattern, c at level 100, k at level 200).

(** ** Tensors

    A tensor is its shape and its elements, addressed by a multi-index.
    Only indices inside the shape are meaningful. *)

Module Tensor.

Record t (A : Type) : Type := mk { shape : list nat; data : list nat -> A }.
Arguments mk {A} shape data.
Arguments shape {A} _.
Arguments data {A} _ _.

Fixpoint in_bounds (idx shp : list nat) : bool :=
  match idx, shp with
  | [], [] => true
  | i :: idx', n :: shp' => (i <? n)%nat && in_bounds idx' shp'
  | _, _ => false
  end.

(** Same shape and same elements at every index inside it. *)
Definition eqv {A} (a b : t A) : Prop :=
  shape a = shape b /\
  forall idx, in_bounds idx (shape a) = true -> data a idx = data b idx.

(** [torch.zeros(shape)], [torch.ones(shape)] *)
Definition full {A} (x : A) (shp : list nat) : t A := mk shp (fun _ => x).

(** [torch.arange(n)] *)
Definition arange (n : nat) : t Z :=
  mk [n] (fun idx => match idx with i :: _ => Z.of_nat i | [] => 0 end).

(** A 1-D tensor from a Python list. *)
Definition of_list {A} (d : A) (l : list A) : t A :=
  mk [length l] (fun idx => match idx with i :: _ => nth i l d | [] => d end).

(** [x.unsqueeze(0)] *)
Definition unsqueeze0 {A} (x : t A) : t A :=
  mk (1%nat :: shape x) (fun idx => data x (tl idx)).

(** [torch.tril(torch.ones(n, n, dtype=torch.bool))] *)
Definition tril_ones (n : nat) : t bool :=
  mk [n; n] (fun idx => match idx with
                        | [i; j] => (j <=? i)%nat
                        | _ => false
                        end).

(** Elementwise application of a scalar function. *)
Definition map {A B} (f : A -> B) (x : t A) : t B :=
  mk (shape x) (fun idx => f (data x idx)).

(** [torch.cat((a, b), dim=1)]: ranks agree, and so does every dimension
    but the second. *)
Definition cat1_pair {A} (a b : t A) : res (t A) :=
  match shape a, shape b with
  | a0 :: a1 :: arest, b0 :: b1 :: brest =>
      if bool_decide (a0 = b0 /\ arest = brest) then
        Ret (mk (a0 :: (a1 + b1)%nat :: arest)
                (fun idx => match idx with
                            | i0 :: i1 :: r =>
                                if (i1 <? a1)%nat then data a idx
                                else data b (i0 :: (i1 - a1)%nat :: r)
                            | _ => data a idx
                            end))
      else Raise RuntimeError
  | _, _ => Raise IndexError
  end.

(** [torch.cat(ts, dim=1)] for a non-empty tuple, left to right. *)
Fixpoint cat1 {A} (x : t A) (xs : list (t A)) : res (t A) :=
  match xs with
  | [] => match shape x with
          | _ :: _ :: _ => Ret x
          | _ => Raise IndexError
          end
  | y :: ys => let? r := cat1 y ys in cat1_pair x r
  end.

(** [x[:, 1:]] *)
Definition drop_first_dim1 {A} (x : t A) : res (t A) :=
  match shape x with
  | n0 :: n1 :: rest =>
      Ret (mk (n0 :: (n1 - 1)%nat :: rest)
              (fun idx => match idx with
                          | i0 :: i1 :: r => data x (i0 :: S i1 :: r)
                          | _ => data x idx
                          end))
  | _ => Raise IndexError
  end.

End Tensor.

Abbreviation Tensor := Tensor.t.

(** ** Model types, recipes and the identity fusion *)

Module Recipe.

(** [class ModelType(Enum)] *)
Inductive ModelType : Type := TextOnly | Llama3_1 | Flamingo | Llava.

(** What a caller may pass where a [ModelType] is expected: Python does
    not check the annotation. *)
Inductive pyval : Type :=
| PyModelType (m : ModelType)
| PyStr (s : string)
| PyInt (n : Z)
| PyNone.

(** The module builders and fusion constructors named by the recipes. *)
Inductive ModuleLike : Type :=
| Transformer_cls
| llama3_1_builder
| flamingo_vision_encoder
| flamingo_decoder
| clip_vision_encoder
| identity_fn
| DeepFusionModel
| ConcateFusion_cls.

(** [@dataclass class ModelRecipe]; [modules] is a dict, kept in
    insertion order. *)
Record ModelRecipe : Type := mkRecipe {
  model_type : ModelType;
  modules : list (string * ModuleLike);
  fusion_class : ModuleLike
}.

Definition _text_only : ModelRecipe :=
  mkRecipe TextOnly [("text"%string, Transformer_cls)] identity_fn.

Definition _llama3_1 : ModelRecipe :=
  mkRecipe Llama3_1 [("text"%string, llama3_1_builder)] identity_fn.

Definition _flamingo : ModelRecipe :=
  mkRecipe Flamingo
    [("encoder"%string, flamingo_vision_encoder); ("decoder"%string, flamingo_decoder)]
    DeepFusionModel.

Definition _llava : ModelRecipe :=
  mkRecipe Llava
    [("encoder"%string, clip_vision_encoder); ("decoder"%string, Transformer_cls)]
    ConcateFusion_cls.

(** [ModelRecipe.get_recipe]: a [match] on value patterns, which compare
    with [==]; only the enum members themselves are equal to them. *)
Definition get_recipe (model_type : pyval) : res ModelRecipe :=
  match model_type with
  | PyModelType TextOnly => Ret _text_only
  | PyModelType Flamingo => Ret _flamingo
  | PyModelType Llama3_1 => Ret _llama3_1
  | PyModelType Llava => Ret _llava
  | _ => Raise ValueError
  end.

(** [identity], called with keyword arguments only: [kwargs] is a dict
    in insertion order. *)
Definition identity {A} (kwargs : list (string * A)) : res A :=
  if negb (length kwargs =? 1)%nat then Raise ValueError
  else match kwargs with
       | (_, v) :: _ => Ret v
       | [] => Raise IndexError
       end.

(** The call of a module class on the parameter dictionary of its
    sub-module, [module_class(...config_args...)], kept as it is
    written: what the constructor does with the parameters, and whether
    it accepts them, is not part of this record. *)
Record built_module (P : Type) : Type := Built {
  built_by : ModuleLike;
  built_from : P
}.
Arguments Built {P} built_by built_from.
Arguments built_by {P} _.
Arguments built_from {P} _.

(** What [build_model] returns: one of the built sub-modules itself, or a
    fusion wrapper around the named sub-modules. *)
Inductive model_obj (P : Type) : Type :=
| Bare (m : built_module P)
| Fused (cls : ModuleLike) (parts : list (string * built_module P)).
Arguments Bare {P} m.
Arguments Fused {P} cls parts.

(** The fusion constructor applied to the built modules as keyword
    arguments. *)
Definition apply_fusion {P} (fusion : ModuleLike)
    (mods : list (string * built_module P)) : res (model_obj P) :=
  match fusion with
  | identity_fn => let? m := identity mods in Ret (Bare m)
  | _ => Ret (Fused fusion mods)
  end.

(** The loop of [Model.build_model]:
    [modules[name] = module_class(...config.transformer_args[name]...)],
    up to the constructor calls, which are recorded and not run. *)
Fixpoint build_modules {P} (transformer_args : gmap string P)
    (mods : list (string * ModuleLike)) : res (list (string * built_module P)) :=
  match mods with
  | [] => Ret []
  | (name, module_class) :: rest =>
      match transformer_args !! name with
      | None => Raise KeyError
      | Some config_args =>
          let? built := build_modules transformer_args rest in
          Ret ((name, Built module_class config_args) :: built)
      end
  end.

(** [Model.build_model] *)
Definition build_model {P} (config_model_type : pyval)
    (transformer_args : gmap string P) : res (model_obj P) :=
  let? recipe := get_recipe config_model_type in
  let? mods := build_modules transformer_args (modules recipe) in
  apply_fusion (fusion_class recipe) mods.

End Recipe.

(** ** Named configurations: [ModelArgs.from_name] *)

Module Names.

(** [str.upper], on the ASCII letters. *)
Definition upper_ascii (c : ascii) : ascii :=
  let n := nat_of_ascii c in
  if ((97 <=? n) && (n <=? 122))%nat then ascii_of_nat (n - 32) else c.

Fixpoint upper (s : string) : string :=
  match s with
  | EmptyString => EmptyString
  | String c s' => String (upper_ascii c) (upper s')
  end.

(** [sub in s] *)
Fixpoint contains (sub s : string) : bool :=
  String.prefix sub s ||
  match s with
  | EmptyString => false
  | String _ s' => contains sub s'
  end.

(** [s.replace] of [".json"] by the empty string: every occurrence,
    scanning left to right; [skip] counts the characters of a found
    occurrence still to drop. *)
Fixpoint remove_json_from (skip : nat) (s : string) : string :=
  match s with
  | EmptyString => EmptyString
  | String c s' =>
      match skip with
      | S k => remove_json_from k s'
      | O => if String.prefix ".json" s then remove_json_from 4 s'
             else String c (remove_json_from 0 s')
      end
  end.

Definition remove_json (s : string) : string := remove_json_from 0 s.

(** [config.sort(key=len, reverse=True)]: stable, longest first. *)
Fixpoint insert_by_len (x : string) (l : list string) : list string :=
  match l with
  | [] => [x]
  | y :: l' =>
      if (String.length x <? String.length y)%nat then y :: insert_by_len x l'
      else x :: l
  end.

Fixpoint sort_by_len_desc (l : list string) : list string :=
  match l with
  | [] => []
  | x :: l' => insert_by_len x (sort_by_len_desc l')
  end.

(** The directory [model_params]: what [os.listdir] returns and which
    paths inside it are regular files. *)
Record config_dir : Type := mkDir {
  listdir : list string;
  is_file : string -> bool
}.

Definition known_model_params (fs : config_dir) : list string :=
  List.map remove_json (listdir fs).

(** The fuzzy-search condition of [from_name]. *)
Definition name_matches (name config : string) : bool :=
  contains config (upper name) || contains config name.

Definition fuzzy_matches (fs : config_dir) (name : string) : list string :=
  List.filter (name_matches name) (known_model_params fs).

Section FromName.
Context {A : Type}.
(** [ModelArgs.from_params], applied to a file of the directory. *)
Variable from_params : string -> res A.

Definition from_name (fs : config_dir) (name : string) : res A :=
  if is_file fs (name ++ ".json") then from_params (name ++ ".json")
  else
    let config := fuzzy_matches fs name in
    if (1 <? length config)%nat then
      match sort_by_len_desc config with
      | c0 :: c1 :: _ =>
          if negb (String.length c0 =? String.length c1)%nat
          then from_params (c0 ++ ".json")
          else Raise AssertionError
      | _ => Raise IndexError
      end
    else if (length config =? 0)%nat then Raise ValueError
    else match config with
         | c0 :: _ => from_params (c0 ++ ".json")
         | [] => Raise IndexError
         end.
End FromName.

End Names.

(** ** Rotary frequencies: [apply_scaling], [precompute_freqs_cis] *)

Module Rope.

Local Open Scope Q_scope.

(** [torch.pi], the binary64 constant 3.141592653589793. *)
Definition torch_pi : Q := 884279719003555 # 281474976710656.

Definition Qltb (a b : Q) : bool := negb (Qle_bool b a).

(** [a / b] on Python numbers. *)
Definition py_div (a b : Q) : res Q :=
  if Qeq_bool b 0 then Raise ZeroDivisionError else Ret (a / b).

(** [d[key]] *)
Definition getitem (d : gmap string Q) (key : string) : res Q :=
  match d !! key with
  | Some v => Ret v
  | None => Raise KeyError
  end.

Definition required_keys : list string :=
  ["factor"; "low_freq_factor"; "high_freq_factor";
   "original_max_position_embeddings"]%string.

(** [required_keys.issubset(rope_scaling.keys())] *)
Definition has_required_keys (rope_scaling : gmap string Q) : bool :=
  forallb (fun key => bool_decide (is_Some (rope_scaling !! key))) required_keys.

(** The body of [for freq in freqs], appending to [new_freqs].  A tensor
    divided by zero is infinite or not a number in torch and has no
    counterpart here: the statements about this loop keep to non-zero
    frequencies and a non-zero scale factor. *)
Fixpoint scaling_loop (scale_factor low_freq_factor high_freq_factor
    old_context_len low_freq_wavelen high_freq_wavelen : Q)
    (freqs new_freqs : list Q) : res (list Q) :=
  match freqs with
  | [] => Ret new_freqs
  | freq :: rest =>
      let wavelen := 2 * torch_pi / freq in
      let continue := scaling_loop scale_factor low_freq_factor
                        high_freq_factor old_context_len
                        low_freq_wavelen high_freq_wavelen rest in
      if Qltb wavelen high_freq_wavelen then
        continue (new_freqs ++ [freq])
      else if Qltb low_freq_wavelen wavelen then
        continue (new_freqs ++ [freq / scale_factor])
      else if Qeq_bool low_freq_wavelen high_freq_wavelen then
        Raise AssertionError
      else
        let smooth := (old_context_len / wavelen - low_freq_factor) /
                      (high_freq_factor - low_freq_factor) in
        continue (new_freqs ++ [(1 - smooth) * freq / scale_factor + smooth * freq])
  end.

(** [apply_scaling(freqs, rope_scaling)] *)
Definition apply_scaling (freqs : list Q) (rope_scaling : gmap string Q)
    : res (list Q) :=
  if negb (has_required_keys rope_scaling) then Raise ValueError
  else
    let? scale_factor := getitem rope_scaling "factor" in
    let? low_freq_factor := getitem rope_scaling "low_freq_factor" in
    let? high_freq_factor := getitem rope_scaling "high_freq_factor" in
    let? old_context_len :=
      getitem rope_scaling "original_max_position_embeddings" in
    let? low_freq_wavelen := py_div old_context_len low_freq_factor in
    let? high_freq_wavelen := py_div old_context_len high_freq_factor in
    scaling_loop scale_factor low_freq_factor high_freq_factor
      old_context_len low_freq_wavelen high_freq_wavelen freqs [].

(** The elementary functions the rotary table is built from; they have no
    rational counterpart and are left open. *)
Record FloatOps : Type := mkFloatOps {
  f_pow : Q -> Q -> Q;
  f_cos : Q -> Q;
  f_sin : Q -> Q
}.

Section Tables.
Variable fl : FloatOps.

(** [1.0 / (base ** (torch.arange(0, n_elem, 2)[:count].float() / n_elem))] *)
Definition base_freqs (n_elem : Z) (count : nat) (base : Q) : list Q :=
  List.map (fun i : nat =>
              1 / f_pow fl base (inject_Z (2 * Z.of_nat i) / inject_Z n_elem))
           (seq 0 count).

(** [precompute_freqs_cis(n_elem, seq_len, base, rope_scaling=...)]:
    rows are positions, columns frequencies, the last axis holds the
    real and the imaginary part. *)
Definition precompute_freqs_cis (n_elem seq_len : Z) (base : Q)
    (rope_scaling : option (gmap string Q)) : res (Tensor Q) :=
  if (n_elem <? 0)%Z || (seq_len <? 0)%Z then Raise RuntimeError
  else
    let freqs := base_freqs n_elem (Z.to_nat (n_elem / 2)) base in
    let? freqs := match rope_scaling with
                  | Some rs => apply_scaling freqs rs
                  | None => Ret freqs
                  end in
    Ret (Tensor.mk [Z.to_nat seq_len; length freqs; 2%nat]
           (fun idx => match idx with
                       | [p; i; c] =>
                           let angle := inject_Z (Z.of_nat p) * nth i freqs 0 in
                           if (c =? 0)%nat then f_cos fl angle else f_sin fl angle
                       | _ => 0
                       end)).

(** [hf_precompute_freqs_cis(dim, end, theta, **kwargs)]: the
    frequencies are repeated across the full width ([torch.cat((freqs,
    freqs))]) and the last axis holds cosine and sine; [rope_scaling]
    arrives in [kwargs] and is not used. *)
Definition hf_precompute_freqs_cis (dim end_ : Z) (theta : Q)
    (rope_scaling : option (gmap string Q)) : res (Tensor Q) :=
  if (dim <? 0)%Z || (end_ <? 0)%Z then Raise RuntimeError
  else
    let freqs := base_freqs dim (Z.to_nat ((dim + 1) / 2)) theta in
    let emb := (freqs ++ freqs)%list in
    Ret (Tensor.mk [Z.to_nat end_; length emb; 2%nat]
           (fun idx => match idx with
                       | [p; i; c] =>
                           let angle := inject_Z (Z.of_nat p) * nth i emb 0 in
                           if (c =? 0)%nat then f_cos fl angle else f_sin fl angle
                       | _ => 0
                       end)).
End Tables.

End Rope.

(** ** The key/value cache *)

Module KV.

(** A registered buffer: a tensor object with an identity.  In-place
    updates change [buf] and keep [buf_id]; a new allocation takes the
    next free identity. *)
Record Buffer (A : Type) : Type := mkBuffer { buf_id : nat; buf : Tensor A }.
Arguments mkBuffer {A} buf_id buf.
Arguments buf_id {A} _.
Arguments buf {A} _.

(** Allocation of a new tensor object; the state is the next free
    identity. *)
Definition alloc {A} (x : Tensor A) : M nat (Buffer A) :=
  fun next => (Ret (mkBuffer next x), S next).

(** [torch.zeros(shape)]: a negative dimension is refused. *)
Definition zeros (shp : list Z) : res (Tensor Q) :=
  if forallb (fun n => 0 <=? n) shp then Ret (Tensor.full 0%Q (List.map Z.to_nat shp))
  else Raise RuntimeError.

(** An index into an axis of size [n]; negative indices count from the
    end. *)
Definition norm_index (n : nat) (p : Z) : res nat :=
  if (0 <=? p) && (p <? Z.of_nat n) then Ret (Z.to_nat p)
  else if (- Z.of_nat n <=? p) && (p <? 0) then Ret (Z.to_nat (p + Z.of_nat n))
  else Raise IndexError.

Fixpoint norm_indices (n : nat) (ps : list Z) : res (list nat) :=
  match ps with
  | [] => Ret []
  | p :: ps' =>
      let? i := norm_index n p in
      let? rest := norm_indices n ps' in
      Ret (i :: rest)
  end.

(** Where [s] occurs last in [ps]: with a repeated index the later write
    stays. *)
Fixpoint last_hit (s : nat) (ps : list nat) : option nat :=
  match ps with
  | [] => None
  | p :: ps' =>
      match last_hit s ps' with
      | Some i => Some (S i)
      | None => if (p =? s)%nat then Some 0%nat else None
      end
  end.

(** Broadcasting of [values] to the indexed region: shapes are aligned at
    the right, a dimension fits when it is equal or 1. *)
Definition pad_shape (rank : nat) (vshape : list nat) : list nat :=
  repeat 1%nat (rank - length vshape) ++ vshape.

Fixpoint dims_fit (vshape target : list nat) : bool :=
  match vshape, target with
  | [], [] => true
  | v :: vs, t :: ts => ((v =? t)%nat || (v =? 1)%nat) && dims_fit vs ts
  | _, _ => false
  end.

Definition broadcastable (vshape target : list nat) : bool :=
  (length vshape <=? length target)%nat &&
  dims_fit (pad_shape (length target) vshape) target.

Fixpoint pick (vshape idx : list nat) : list nat :=
  match vshape, idx with
  | v :: vs, i :: idx' => (if (v =? 1)%nat then 0%nat else i) :: pick vs idx'
  | _, _ => []
  end.

(** The index into [values] that is written at index [idx] of the
    region. *)
Definition source_index (vshape idx : list nat) : list nat :=
  drop (length idx - length vshape) (pick (pad_shape (length idx) vshape) idx).

(** The positions of [input_pos] before the first one outside an axis
    of size [n]. *)
Fixpoint valid_prefix (n : nat) (ps : list Z) : list nat :=
  match ps with
  | [] => []
  | p :: ps' =>
      match norm_index n p with
      | Ret i => i :: valid_prefix n ps'
      | Raise _ => []
      end
  end.

(** [self] after the entries [(b, h, ps_i, d)] with [rows b h] have been
    written from [values], in the order of [ps]. *)
Definition written (self values : Tensor Q) (ps : list nat)
    (rows : nat -> nat -> bool) : Tensor Q :=
  Tensor.mk (Tensor.shape self)
    (fun idx => match idx with
                | [b; h; s; d] =>
                    if rows b h then
                      match last_hit s ps with
                      | Some i => Tensor.data values
                                    (source_index (Tensor.shape values) [b; h; i; d])
                      | None => Tensor.data self idx
                      end
                    else Tensor.data self idx
                | _ => Tensor.data self idx
                end).

(** [torch.ops.aten.index_put_(self, [None, None, input_pos], values)] on
    a 4-D [self]: the third axis is indexed by [input_pos], the others
    are taken whole.  The write is in place: the result is the outcome
    and the content of [self] afterwards.  An index into an empty axis
    is refused first; then [values] must broadcast to the indexed region
    ([RuntimeError], nothing written); the positions are checked entry
    by entry while the region is written, here in row-major order, so
    that an [IndexError] leaves behind the entries written before it,
    and a region without entries is never checked. *)
Definition index_put_ (self : Tensor Q) (input_pos : list Z) (values : Tensor Q)
    : res unit * Tensor Q :=
  match Tensor.shape self with
  | [nb; nh; ns; nd] =>
      if (ns =? 0)%nat && negb (length input_pos =? 0)%nat
      then (Raise IndexError, self)
      else if negb (broadcastable (Tensor.shape values) [nb; nh; length input_pos; nd])
      then (Raise RuntimeError, self)
      else
        match norm_indices ns input_pos with
        | Ret ps => (Ret tt, written self values ps (fun _ _ => true))
        | Raise e =>
            if (nb * nh * nd =? 0)%nat then (Ret tt, self)
            else (Raise e,
                  written self values (valid_prefix ns input_pos)
                    (fun b h => (b =? 0)%nat && (h =? 0)%nat))
        end
  | _ => (Raise RuntimeError, self)
  end.

(** [cache[:, :, input_pos]] *)
Definition read_at (cache : Tensor Q) (input_pos : list Z) : res (Tensor Q) :=
  match Tensor.shape cache with
  | [nb; nh; ns; nd] =>
      let? ps := norm_indices ns input_pos in
      Ret (Tensor.mk [nb; nh; length ps; nd]
             (fun idx => match idx with
                         | [b; h; i; d] => Tensor.data cache [b; h; nth i ps 0%nat; d]
                         | _ => 0%Q
                         end))
  | _ => Raise IndexError
  end.

Record KVCache : Type := mkKVCache {
  k_cache : Buffer Q;
  v_cache : Buffer Q
}.

(** [KVCache.__init__(max_batch_size, max_seq_length, n_heads, head_dim)] *)
Definition KVCache_init (max_batch_size max_seq_length n_heads head_dim : Z)
    : M nat KVCache :=
  let cache_shape := [max_batch_size; n_heads; max_seq_length; head_dim] in
  let! kz := st_lift (zeros cache_shape) in
  let! k := alloc kz in
  let! vz := st_lift (zeros cache_shape) in
  let! v := alloc vz in
  st_ret (mkKVCache k v).

(** [KVCache.update(input_pos, k_val, v_val)]: both writes are in place,
    and the buffers themselves are returned. *)
Definition update (input_pos : list Z) (k_val v_val : Tensor Q)
    : M KVCache (Buffer Q * Buffer Q) :=
  match nth_error (Tensor.shape k_val) 2 with
  | None => st_raise IndexError
  | Some seq_len =>
      if negb (length input_pos =? seq_len)%nat then st_raise AssertionError
      else
        let! self := st_get in
        let k_put := index_put_ (buf (k_cache self)) input_pos k_val in
        let k_out := mkBuffer (buf_id (k_cache self)) (snd k_put) in
        let! _ := st_put (mkKVCache k_out (v_cache self)) in
        let! _ := st_lift (fst k_put) in
        let v_put := index_put_ (buf (v_cache self)) input_pos v_val in
        let v_out := mkBuffer (buf_id (v_cache self)) (snd v_put) in
        let! _ := st_put (mkKVCache k_out v_out) in
        let! _ := st_lift (fst v_put) in
        st_ret (k_out, v_out)
  end.

End KV.

(** ** Transformer hyper-parameters *)

Module Args.

(** Modelled from the spec: [find_multiple] is imported from
    [torchchat.utils.build_utils], which is not among the source files;
    the specification says that the requested length is rounded up to a
    fixed alignment.  [find_multiple n k] is the least multiple of [k]
    that is at least [n], for positive [k]. *)
Definition find_multiple (n k : Z) : Z :=
  if n mod k =? 0 then n else n + k - n mod k.

(** [a // b] on Python integers. *)
Definition floordiv (a b : Z) : res Z :=
  if b =? 0 then Raise ZeroDivisionError else Ret (a / b).

(** [@dataclass class TransformerArgs] *)
Record t : Type := mk {
  block_size : Z;
  vocab_size : Z;
  n_layers : Z;
  n_heads : Z;
  dim : Z;
  hidden_dim : option Z;
  n_local_heads : Z;
  head_dim : Z;
  rope_base : Q;
  norm_eps : Q;
  multiple_of : Z;
  ffn_dim_multiplier : option Z;
  use_tiktoken : bool;
  max_seq_length : Z;
  rope_scaling : option (gmap string Q);
  use_hf_rope : bool;
  n_stages : Z;
  stage_idx : Z
}.

(** The field defaults of the dataclass, for the fields a parameter
    dictionary leaves out. *)
Definition defaults : t :=
  mk 2048 32000 32 32 4096 None (-1) 64 10000%Q (1 # 100000)%Q 256 None
     false 8192 None false 1 0.

(** [TransformerArgs.__post_init__] *)
Definition post_init (a : t) : res t :=
  let n_local_heads' := if n_local_heads a =? -1 then n_heads a else n_local_heads a in
  let? hidden_dim' :=
    match hidden_dim a with
    | Some h => Ret h
    | None =>
        let h := 4 * dim a in
        let h := Z.quot (2 * h) 3 in
        let h := match ffn_dim_multiplier a with
                 | Some m => m * h
                 | None => h
                 end in
        if multiple_of a =? 0 then Raise ZeroDivisionError
        else Ret (find_multiple h (multiple_of a))
    end in
  let? head_dim' := floordiv (dim a) (n_heads a) in
  Ret (mk (block_size a) (vocab_size a) (n_layers a) (n_heads a) (dim a)
          (Some hidden_dim') n_local_heads' head_dim' (rope_base a)
          (norm_eps a) (multiple_of a) (ffn_dim_multiplier a)
          (use_tiktoken a) (max_seq_length a) (rope_scaling a)
          (use_hf_rope a) (n_stages a) (stage_idx a)).

End Args.

(** ** Attention and the decoder: cache set-up *)

Module Decoder.

Import KV.

(** The state of a method that allocates: the next free buffer identity
    and the object itself. *)
Definition with_heap (T : Type) : Type := (nat * T)%type.

Definition get_self {T} : M (with_heap T) T := fun w => (Ret (snd w), w).
Definition modify {T} (f : T -> T) : M (with_heap T) unit :=
  fun w => (Ret tt, (fst w, f (snd w))).
Definition on_heap {T A} (c : M nat A) : M (with_heap T) A :=
  fun w => match c (fst w) with (r, next) => (r, (next, snd w)) end.

(** The fields of [Attention] that cache set-up reads or writes;
    [tp_degree] is set by [distribute] only. *)
Record Attention : Type := mkAttention {
  n_heads : Z;
  head_dim : Z;
  n_local_heads : Z;
  dim : Z;
  tp_degree : option Z;
  kv_cache : option KVCache
}.

Definition set_kv_cache (c : option KVCache) (a : Attention) : Attention :=
  mkAttention (n_heads a) (head_dim a) (n_local_heads a) (dim a) (tp_degree a) c.

(** The parameter tensor a sub-module allocates ([torch.empty] in
    [nn.Linear] and [nn.Embedding], [torch.ones] in [RMSNorm]): a size
    that is not an integer is refused with [TypeError], a negative one
    with [RuntimeError]. *)
Definition parameter (sizes : list (option Z)) : res unit :=
  if negb (forallb (fun n => bool_decide (is_Some n)) sizes) then Raise TypeError
  else if forallb (fun n => 0 <=? default 0 n) sizes then Ret tt
  else Raise RuntimeError.

(** [nn.Linear(in_features, out_features, bias=False)],
    [nn.Embedding(num_embeddings, embedding_dim)], [RMSNorm(dim, eps)]. *)
Definition Linear_init (in_features out_features : option Z) : res unit :=
  parameter [out_features; in_features].
Definition Embedding_init (num_embeddings embedding_dim : Z) : res unit :=
  parameter [Some num_embeddings; Some embedding_dim].
Definition RMSNorm_init (dim : Z) : res unit := parameter [Some dim].

(** [Attention.__init__(config)] *)
Definition Attention_init (config : Args.t) : res Attention :=
  if Args.n_heads config =? 0 then Raise ZeroDivisionError
  else if negb (Args.dim config mod Args.n_heads config =? 0) then Raise AssertionError
  else
    let dim := Some (Args.dim config) in
    let? _ := Linear_init dim (Some (Args.n_heads config * Args.head_dim config)) in
    let? _ := Linear_init dim (Some (Args.n_local_heads config * Args.head_dim config)) in
    let? _ := Linear_init dim (Some (Args.n_local_heads config * Args.head_dim config)) in
    let? _ := Linear_init dim dim in
    Ret (mkAttention (Args.n_heads config) (Args.head_dim config)
           (Args.n_local_heads config) (Args.dim config) None None).

(** [FeedForward.__init__(config)] *)
Definition FeedForward_init (config : Args.t) : res unit :=
  let dim := Some (Args.dim config) in
  let? _ := Linear_init dim (Args.hidden_dim config) in
  let? _ := Linear_init (Args.hidden_dim config) dim in
  Linear_init dim (Args.hidden_dim config).

(** [Attention.setup_cache(max_batch_size, max_seq_length)] *)
Definition setup_cache (max_batch_size max_seq_length : Z)
    : M (with_heap Attention) unit :=
  let! self := get_self in
  let! n_local_heads :=
    st_lift (match tp_degree self with
             | Some tp => Args.floordiv (n_local_heads self) tp
             | None => Ret (n_local_heads self)
             end) in
  let! cache := on_heap (KVCache_init max_batch_size max_seq_length
                           n_local_heads (head_dim self)) in
  modify (set_kv_cache (Some cache)).

(** A [TransformerBlock] owns one [Attention]; its feed-forward and
    normalisation sub-modules hold parameters only and take no part in
    cache set-up: of them only the construction is modelled. *)
Record TransformerBlock : Type := mkBlock { attention : Attention }.

(** [class Transformer]: [layers] is the [ModuleDict] in insertion order,
    keyed by layer id; [precompute_freqs_cis] is the table builder chosen
    at construction. *)
Record Transformer : Type := mkTransformer {
  config : Args.t;
  has_tok_embeddings : bool;
  layers : list (Z * TransformerBlock);
  has_output_head : bool;
  max_batch_size : Z;
  max_seq_length : Z;
  seq_parallel_degree : Z;
  precompute_freqs_cis :
    Z -> Z -> Q -> option (gmap string Q) -> res (Tensor Q);
  freqs_cis : option (Buffer Q);
  causal_mask : option (Buffer bool)
}.

Definition set_capacity (b s : Z) (m : Transformer) : Transformer :=
  mkTransformer (config m) (has_tok_embeddings m) (layers m) (has_output_head m)
    b s (seq_parallel_degree m) (precompute_freqs_cis m) (freqs_cis m)
    (causal_mask m).

Definition set_layers (ls : list (Z * TransformerBlock)) (m : Transformer)
    : Transformer :=
  mkTransformer (config m) (has_tok_embeddings m) ls (has_output_head m)
    (max_batch_size m) (max_seq_length m) (seq_parallel_degree m)
    (precompute_freqs_cis m) (freqs_cis m) (causal_mask m).

Definition set_freqs_cis (f : option (Buffer Q)) (m : Transformer) : Transformer :=
  mkTransformer (config m) (has_tok_embeddings m) (layers m) (has_output_head m)
    (max_batch_size m) (max_seq_length m) (seq_parallel_degree m)
    (precompute_freqs_cis m) f (causal_mask m).

Definition set_causal_mask (c : option (Buffer bool)) (m : Transformer)
    : Transformer :=
  mkTransformer (config m) (has_tok_embeddings m) (layers m) (has_output_head m)
    (max_batch_size m) (max_seq_length m) (seq_parallel_degree m)
    (precompute_freqs_cis m) (freqs_cis m) c.

(** [range(a, b)] *)
Definition py_range (a b : Z) : list Z :=
  List.map (fun i : nat => a + Z.of_nat i) (seq 0 (Z.to_nat (b - a))).

(** [TransformerBlock.__init__(config)] *)
Definition TransformerBlock_init (config : Args.t) : res TransformerBlock :=
  let? attention := Attention_init config in
  let? _ := FeedForward_init config in
  let? _ := RMSNorm_init (Args.dim config) in
  let? _ := RMSNorm_init (Args.dim config) in
  Ret (mkBlock attention).

(** [self.layers[str(layer_id)] = TransformerBlock(config)] for each id. *)
Fixpoint build_layers (config : Args.t) (ids : list Z)
    : res (list (Z * TransformerBlock)) :=
  match ids with
  | [] => Ret []
  | layer_id :: rest =>
      let? block := TransformerBlock_init config in
      let? ls := build_layers config rest in
      Ret ((layer_id, block) :: ls)
  end.

Section Init.
Variable fl : Rope.FloatOps.

(** [Transformer.__init__(config)] *)
Definition Transformer_init (config : Args.t) : res Transformer :=
  let? layers_per_stage := Args.floordiv (Args.n_layers config) (Args.n_stages config) in
  let? _ := if Args.stage_idx config =? 0
            then Embedding_init (Args.vocab_size config) (Args.dim config)
            else Ret tt in
  let? ls := build_layers config
               (py_range (layers_per_stage * Args.stage_idx config)
                         (layers_per_stage * (Args.stage_idx config + 1))) in
  let? _ := if Args.stage_idx config =? Args.n_stages config - 1
            then let? _ := RMSNorm_init (Args.dim config) in
                 Linear_init (Some (Args.dim config)) (Some (Args.vocab_size config))
            else Ret tt in
  Ret (mkTransformer config
         (Args.stage_idx config =? 0)
         ls
         (Args.stage_idx config =? Args.n_stages config - 1)
         (-1) (-1) 1
         (if Args.use_hf_rope config then Rope.hf_precompute_freqs_cis fl
          else Rope.precompute_freqs_cis fl)
         None None).
End Init.

(** [for b in self.layers.values(): b.attention.setup_cache(...)]: when
    a layer fails, the layers before it keep their new cache and the
    layers after it are not reached. *)
Fixpoint setup_layers (max_batch_size max_seq_length : Z)
    (ls : list (Z * TransformerBlock)) (next : nat)
    : res unit * with_heap (list (Z * TransformerBlock)) :=
  match ls with
  | [] => (Ret tt, (next, []))
  | (layer_id, b) :: rest =>
      match setup_cache max_batch_size max_seq_length (next, attention b) with
      | (Raise e, (next', a')) => (Raise e, (next', (layer_id, mkBlock a') :: rest))
      | (Ret _, (next', a')) =>
          match setup_layers max_batch_size max_seq_length rest next' with
          | (r, (next'', rest')) => (r, (next'', (layer_id, mkBlock a') :: rest'))
          end
      end
  end.

Definition on_layers
    (f : list (Z * TransformerBlock) -> nat ->
         res unit * with_heap (list (Z * TransformerBlock)))
    : M (with_heap Transformer) unit :=
  fun w => match f (layers (snd w)) (fst w) with
           | (r, (next, ls)) => (r, (next, set_layers ls (snd w)))
           end.

(** [torch.tril(torch.ones(n, n, dtype=torch.bool))] on a Python integer. *)
Definition tril_ones (n : Z) : res (Tensor bool) :=
  if n <? 0 then Raise RuntimeError else Ret (Tensor.tril_ones (Z.to_nat n)).

(** [Transformer.setup_caches(max_batch_size, max_seq_length)] *)
Definition setup_caches (max_batch_size max_seq_length : Z)
    : M (with_heap Transformer) unit :=
  let! self := get_self in
  if (Decoder.max_seq_length self >=? max_seq_length) &&
     (Decoder.max_batch_size self >=? max_batch_size)
  then st_ret tt
  else
    let max_seq_length := Args.find_multiple max_seq_length 8 in
    let! _ := modify (set_capacity max_batch_size max_seq_length) in
    let! _ := on_layers (setup_layers max_batch_size max_seq_length) in
    let! n_elem := st_lift (Args.floordiv (Args.dim (config self))
                                          (Args.n_heads (config self))) in
    let! table := st_lift (precompute_freqs_cis self n_elem
                             (Args.block_size (config self) * 2)
                             (Args.rope_base (config self))
                             (Args.rope_scaling (config self))) in
    let! fbuf := on_heap (alloc table) in
    let! _ := modify (set_freqs_cis (Some fbuf)) in
    let! mask := st_lift (tril_ones max_seq_length) in
    let! mbuf := on_heap (alloc mask) in
    modify (set_causal_mask (Some mbuf)).

(** The capacity of a layer's cache, read off its key buffer. *)
Definition cache_batch (c : KVCache) : option nat :=
  Tensor.shape (buf (k_cache c)) !! 0%nat.
Definition cache_seq (c : KVCache) : option nat :=
  Tensor.shape (buf (k_cache c)) !! 2%nat.

End Decoder.

(** ** Concatenation fusion (Llava) *)

Module Fusion.

(** [nn.Linear(in_features, out_features, bias=True)] *)
Record Linear : Type := mkLinear {
  in_features : nat;
  out_features : nat;
  weight : nat -> nat -> Q;
  bias : nat -> Q
}.

Fixpoint dot (n : nat) (f : nat -> Q) : Q :=
  match n with
  | O => 0%Q
  | S k => (dot k f + f k)%Q
  end.

(** [linear(x)]: acts on the last axis. *)
Definition Linear_forward (l : Linear) (x : Tensor Q) : res (Tensor Q) :=
  match last (Tensor.shape x) with
  | None => Raise RuntimeError
  | Some width =>
      if negb (width =? in_features l)%nat then Raise RuntimeError
      else
        Ret (Tensor.mk (removelast (Tensor.shape x) ++ [out_features l])
               (fun idx =>
                  let j := List.last idx 0%nat in
                  (dot (in_features l)
                       (fun i => Tensor.data x (removelast idx ++ [i]) * weight l j i)
                   + bias l j)%Q))
  end.

(** [class MultiModalProjector]; the activation is a constructor
    argument. *)
Record MultiModalProjector : Type := mkProjector {
  linear_1 : Linear;
  act : Q -> Q;
  linear_2 : Linear
}.

Definition MultiModalProjector_forward (p : MultiModalProjector)
    (image_features : Tensor Q) : res (Tensor Q) :=
  let? hidden_states := Linear_forward (linear_1 p) image_features in
  let hidden_states := Tensor.map (act p) hidden_states in
  Linear_forward (linear_2 p) hidden_states.

(** [nn.Embedding(num_embeddings, embedding_dim)] *)
Record Embedding : Type := mkEmbedding {
  num_embeddings : nat;
  embedding_dim : nat;
  table : nat -> nat -> Q
}.

(** Every index inside a shape, in row-major order. *)
Fixpoint indices (shp : list nat) : list (list nat) :=
  match shp with
  | [] => [[]]
  | n :: rest => flat_map (fun i => List.map (cons i) (indices rest)) (seq 0 n)
  end.

(** [embedding(tokens)]: a token outside the table is an error. *)
Definition Embedding_forward (e : Embedding) (tokens : Tensor Z) : res (Tensor Q) :=
  if forallb (fun idx => (0 <=? Tensor.data tokens idx) &&
                         (Tensor.data tokens idx <? Z.of_nat (num_embeddings e)))
             (indices (Tensor.shape tokens))
  then Ret (Tensor.mk (Tensor.shape tokens ++ [embedding_dim e])
              (fun idx => table e (Z.to_nat (Tensor.data tokens (removelast idx)))
                                  (List.last idx 0%nat)))
  else Raise IndexError.

(** What [forward] hands back: a tensor, or the Python tuple of an
    integer and a tensor. *)
Inductive returned : Type :=
| RTensor (logits : Tensor Q)
| RTuple (n : nat) (logits : Tensor Q).

Section ConcateFusion.
(** The decoder module and its state (its caches); calling it may
    update the state. *)
Variable DecoderState : Type.

(** [class ConcateFusion]: the encoder and the decoder are constructor
    arguments; the encoder returns a pair whose second component is a
    list of hidden states. *)
Record ConcateFusion : Type := mkConcateFusion {
  encoder : Tensor Q -> res (Tensor Q * list (Tensor Q));
  decoder : Tensor Q -> Tensor Z -> M DecoderState (Tensor Q);
  tok_embeddings : Embedding;
  mm_projector : MultiModalProjector
}.

Variable self : ConcateFusion.

(** [x.view] to the shape [x.shape[2:]]: the two leading axes are
    dropped, the number of elements must stay. *)
Definition view_drop2 (x : Tensor Q) : res (Tensor Q) :=
  let rest := drop 2 (Tensor.shape x) in
  if (fold_right Nat.mul 1%nat (Tensor.shape x) =? fold_right Nat.mul 1%nat rest)%nat
  then Ret (Tensor.mk rest (fun idx => Tensor.data x (0%nat :: 0%nat :: idx)))
  else Raise RuntimeError.

(** [ConcateFusion._encoder_feature_select] *)
Definition _encoder_feature_select
    (encoder_output : Tensor Q * list (Tensor Q)) : res (Tensor Q) :=
  match snd encoder_output with
  | [] => Raise IndexError
  | h0 :: _ =>
      let? selected_image_feature := view_drop2 h0 in
      Tensor.drop_first_dim1 selected_image_feature
  end.

(** [ConcateFusion._get_decoder_input] *)
Definition _get_decoder_input (tokens : Tensor Z)
    (encoder_output : option (Tensor Q)) (post_tokens : option (Tensor Z))
    : res (Tensor Q) :=
  match encoder_output with
  | None =>
      match post_tokens with
      | Some _ => Raise AssertionError
      | None =>
          let? e := Embedding_forward (tok_embeddings self) tokens in
          Ret (Tensor.unsqueeze0 e)
      end
  | Some encoder_output =>
      let? pre_img_embed := Embedding_forward (tok_embeddings self) tokens in
      let? image_embeds := MultiModalProjector_forward (mm_projector self) encoder_output in
      match post_tokens with
      | None => Tensor.cat1 pre_img_embed [image_embeds]
      | Some post_tokens =>
          let? post_img_embed := Embedding_forward (tok_embeddings self) post_tokens in
          Tensor.cat1 pre_img_embed [image_embeds; post_img_embed]
      end
  end.

(** [ConcateFusion.forward]; its [encoder_mask] argument is never read
    and is left out. *)
Definition forward (tokens : Tensor Z) (post_tokens : option (Tensor Z))
    (encoder_input : option (Tensor Q)) (input_pos : option (Tensor Z))
    : M DecoderState returned :=
  let! encoder_output :=
    st_lift (match encoder_input with
             | Some encoder_input =>
                 let encoder_input := Tensor.unsqueeze0 (Tensor.unsqueeze0 encoder_input) in
                 let? encoder_output := encoder self encoder_input in
                 let? selected := _encoder_feature_select encoder_output in
                 Ret (Some selected)
             | None => Ret None
             end) in
  let! decoder_input :=
    st_lift (_get_decoder_input tokens encoder_output post_tokens) in
  match input_pos with
  | None =>
      match Tensor.shape decoder_input !! 1%nat with
      | None => st_raise IndexError
      | Some seq_len =>
          let input_pos := Tensor.arange seq_len in
          let! logits := decoder self decoder_input input_pos in
          st_ret (RTuple seq_len logits)
      end
  | Some input_pos =>
      let! logits := decoder self decoder_input input_pos in
      st_ret (RTensor logits)
  end.

(** [LlavaModel.forward]: the fused model is called with the same
    arguments. *)
Definition LlavaModel_forward (tokens : Tensor Z)
    (encoder_input : option (Tensor Q)) (post_tokens : option (Tensor Z))
    (input_pos : option (Tensor Z)) : M DecoderState returned :=
  forward tokens post_tokens encoder_input input_pos.

End ConcateFusion.

End Fusion.

(** ** Vocabulary of the statements, and sample inputs *)

Module Spec.

(** [c] occurs in [l] and every other entry of [l] is strictly shorter. *)
Definition single_longest (c : string) (l : list string) : Prop :=
  exists pre post : list string,
    l = (pre ++ c :: post)%list /\
    forall x, In x (pre ++ post)%list -> (String.length x < String.length c)%nat.

(** The order of the sorted matches: longest first. *)
Definition by_len_desc (a b : string) : Prop :=
  (String.length b <= String.length a)%nat.

(** The two longest entries of [l] have the same length. *)
Definition two_best_tie (l : list string) : Prop :=
  exists (x y : string) (rest : list string),
    Permutation l (x :: y :: rest) /\
    String.length x = String.length y /\
    forall z, In z rest -> (String.length z <= String.length x)%nat.

(** A directory of regular files. *)
Definition dir_of (files : list string) : Names.config_dir :=
  Names.mkDir files (fun f => existsb (String.eqb f) files).

Definition mistral_dir : Names.config_dir :=
  dir_of ["7B.json"; "Mistral-7B.json"; "13B.json"]%string.

(** Two configurations whose names differ in case only. *)
Definition twin_dir : Names.config_dir :=
  dir_of ["7b.json"; "7B.json"]%string.


(** Low-order rational stand-ins for the elementary functions, to run
    the definitions on concrete inputs. *)
Definition taylor_ops : Rope.FloatOps :=
  Rope.mkFloatOps
    (fun base e => 1 + e * (base - 1))%Q
    (fun x => 1 - x * x / 2)%Q
    (fun x => x - x * x * x / 6)%Q.

(** Two layers, width 64, four heads, a vocabulary of 100: the
    parameters as given, and after [__post_init__]. *)
Definition sample_params : Args.t :=
  Args.mk 16 100 2 4 64 None (-1) 64 10000%Q (1 # 100000)%Q 256 None
    false 8192 None false 1 0.

Definition sample_args : Args.t :=
  Args.mk 16 100 2 4 64 (Some 256) 4 16 10000%Q (1 # 100000)%Q 256 None
    false 8192 None false 1 0.

(** The decoder [Transformer(sample_args)] right after construction. *)
Definition sample_decoder : Decoder.Transformer :=
  let a := Decoder.mkAttention 4 16 4 64 None None in
  Decoder.mkTransformer sample_args true
    [(0, Decoder.mkBlock a); (1, Decoder.mkBlock a)] true (-1) (-1) 1
    (Rope.precompute_freqs_cis taylor_ops) None None.

(** A sequence of [setup_caches] calls. *)
Definition run_setups (calls : list (Z * Z))
    : M (Decoder.with_heap Decoder.Transformer) unit :=
  st_for calls (fun c => Decoder.setup_caches (fst c) (snd c)).

(** The batch and sequence capacity of each layer's cache. *)
Definition layer_batches (m : Decoder.Transformer) : list (option nat) :=
  List.map (fun l => match Decoder.kv_cache (Decoder.attention (snd l)) with
                     | Some c => Decoder.cache_batch c
                     | None => None
                     end) (Decoder.layers m).

Definition layer_seqs (m : Decoder.Transformer) : list (option nat) :=
  List.map (fun l => match Decoder.kv_cache (Decoder.attention (snd l)) with
                     | Some c => Decoder.cache_seq c
                     | None => None
                     end) (Decoder.layers m).

(** A layer whose cache has the given capacity and was allocated at or
    after [next]. *)
Definition layer_cache_is (batch seq next : nat)
    (l : Z * Decoder.TransformerBlock) : Prop :=
  exists c, Decoder.kv_cache (Decoder.attention (snd l)) = Some c /\
            Decoder.cache_batch c = Some batch /\
            Decoder.cache_seq c = Some seq /\
            (next <= KV.buf_id (KV.k_cache c))%nat /\
            (next <= KV.buf_id (KV.v_cache c))%nat.

(** The request is within the stored capacity in both dimensions. *)
Definition covered (m : Decoder.Transformer) (b s : Z) : Prop :=
  s <= Decoder.max_seq_length m /\ b <= Decoder.max_batch_size m.


(** A fresh cache for one sequence, one head, four positions, head width
    2, and keys and values for two positions. *)
Definition sample_cache : KV.KVCache :=
  KV.mkKVCache (KV.mkBuffer 0 (Tensor.full 0%Q [1; 1; 4; 2]%nat))
               (KV.mkBuffer 1 (Tensor.full 0%Q [1; 1; 4; 2]%nat)).

Definition sample_k : Tensor Q :=
  Tensor.mk [1; 1; 2; 2]%nat
    (fun idx => match idx with
                | [_; _; i; d] => inject_Z (Z.of_nat (1 + 2 * i + d))
                | _ => 0%Q
                end).

Definition sample_v : Tensor Q :=
  Tensor.mk [1; 1; 2; 2]%nat
    (fun idx => match idx with
                | [_; _; i; d] => inject_Z (Z.of_nat (10 + 2 * i + d))
                | _ => 0%Q
                end).


(** The three bands of rope scaling, in the words of the specification:
    [r] is the rescaled value of the frequency [f]. *)
Definition wavelen (f : Q) : Q := (2 * Rope.torch_pi / f)%Q.

Definition smooth (low high old f : Q) : Q :=
  ((old / wavelen f - low) / (high - low))%Q.

Definition interpolated (factor low high old f : Q) : Q :=
  ((1 - smooth low high old f) * f / factor + smooth low high old f * f)%Q.

Definition rescaled (factor low high old f r : Q) : Prop :=
  ((wavelen f < old / high)%Q -> r = f) /\
  ((old / low < wavelen f)%Q -> r = (f / factor)%Q) /\
  ((old / high <= wavelen f)%Q /\ (wavelen f <= old / low)%Q ->
     r = interpolated factor low high old f).

(** The scaling parameters of the Llama 3.1 configurations. *)
Definition llama31_scaling : gmap string Q :=
  <["factor"%string := 8%Q]>
    (<["low_freq_factor"%string := 1%Q]>
       (<["high_freq_factor"%string := 4%Q]>
          (<["original_max_position_embeddings"%string := 8192%Q]> ∅))).


(** The frequencies whose wavelengths are the two thresholds of
    [llama31_scaling], 8192 and 2048. *)
Definition low_boundary_freq : Q := (2 * Rope.torch_pi / 8192)%Q.
Definition high_boundary_freq : Q := (2 * Rope.torch_pi / 2048)%Q.


(** Every token of the tensor is an index into the embedding table. *)
Definition tokens_in_vocab (e : Fusion.Embedding) (tokens : Tensor Z) : Prop :=
  forall idx, Tensor.in_bounds idx (Tensor.shape tokens) = true ->
              0 <= Tensor.data tokens idx < Z.of_nat (Fusion.num_embeddings e).

(** A small Llava-style fusion: a vocabulary of 100, embedding width 4,
    encoder features of width 3; the encoder hands back one hidden state
    of 577 positions, and the decoder answers with logits of the shape
    [batch, positions, vocabulary]. *)
Definition sample_embedding : Fusion.Embedding :=
  Fusion.mkEmbedding 100 4 (fun tok d => inject_Z (Z.of_nat (tok + d))).

Definition sample_projector : Fusion.MultiModalProjector :=
  Fusion.mkProjector
    (Fusion.mkLinear 3 4 (fun _ _ => 1%Q) (fun _ => 0%Q))
    (fun x => x)
    (Fusion.mkLinear 4 4 (fun j i => if (j =? i)%nat then 1%Q else 0%Q) (fun _ => 0%Q)).

Definition sample_fusion : Fusion.ConcateFusion unit :=
  Fusion.mkConcateFusion unit
    (fun x => Ret (x, [Tensor.full (1 # 2)%Q [1; 1; 1; 577; 3]%nat]))
    (fun x input_pos =>
       st_ret (Tensor.full 0%Q [hd 0%nat (Tensor.shape x);
                                hd 0%nat (Tensor.shape input_pos); 100%nat]))
    sample_embedding sample_projector.

Definition sample_pre_tokens : Tensor Z :=
  Tensor.mk [1; 30]%nat (fun idx => Z.of_nat (List.last idx 0%nat)).
Definition sample_post_tokens : Tensor Z :=
  Tensor.mk [1; 20]%nat (fun idx => 50 + Z.of_nat (List.last idx 0%nat)).
Definition sample_image : Tensor Q := Tensor.full (1 # 4)%Q [3; 336; 336]%nat.
Definition sample_features : Tensor Q := Tensor.full (1 # 2)%Q [1; 576; 3]%nat.

End Spec.

(** ** Inputs at the edge of the statements *)

Module Edge.

(** Caches with room for two and for three sequences, and keys and
    values for two sequences. *)
Definition cache_for_two : KV.KVCache :=
  KV.mkKVCache (KV.mkBuffer 0 (Tensor.full 0%Q [2; 1; 4; 2]%nat))
               (KV.mkBuffer 1 (Tensor.full 0%Q [2; 1; 4; 2]%nat)).

Definition cache_for_three : KV.KVCache :=
  KV.mkKVCache (KV.mkBuffer 0 (Tensor.full 0%Q [3; 1; 4; 2]%nat))
               (KV.mkBuffer 1 (Tensor.full 0%Q [3; 1; 4; 2]%nat)).

Definition pair_k : Tensor Q :=
  Tensor.mk [2; 1; 2; 2]%nat
    (fun idx => match idx with
                | [b; _; i; d] => inject_Z (Z.of_nat (1 + 4 * b + 2 * i + d))
                | _ => 0%Q
                end).

Definition pair_v : Tensor Q :=
  Tensor.mk [2; 1; 2; 2]%nat
    (fun idx => match idx with
                | [b; _; i; d] => inject_Z (Z.of_nat (10 + 4 * b + 2 * i + d))
                | _ => 0%Q
                end).

(** The Llama 3.1 scaling parameters with the two factors exchanged: the
    thresholds are 8192 / 4 = 2048 for the low factor and 8192 / 1 =
    8192 for the high one.  A frequency of wavelength 4096 lies between
    them. *)
Definition inverted_scaling : gmap string Q :=
  <["low_freq_factor"%string := 4%Q]>
    (<["high_freq_factor"%string := 1%Q]> Spec.llama31_scaling).

Definition between_freq : Q := (2 * Rope.torch_pi / 4096)%Q.

End Edge.

(** ** The projection of the encoder features *)

Module Projection.

(** The two-layer perceptron with one activation, in the words of the
    specification: entry [d] of the projection of one feature vector.
    The hidden entry [k] is the activation of the first affine map, the
    result the second affine map of the hidden entries. *)
Definition mlp (p : Fusion.MultiModalProjector) (feature : nat -> Q) (d : nat) : Q :=
  let first := Fusion.linear_1 p in
  let second := Fusion.linear_2 p in
  let hidden (k : nat) : Q :=
    Fusion.act p
      (Fusion.dot (Fusion.in_features first)
                  (fun i => feature i * Fusion.weight first k i)
       + Fusion.bias first k)%Q in
  (Fusion.dot (Fusion.in_features second)
              (fun k => hidden k * Fusion.weight second d k)
   + Fusion.bias second d)%Q.

End Projection.

(** ** Further sample inputs *)

Module Samples.

(** Values whose last axis does not fit the cache of [Spec.sample_cache]. *)
Definition wide_v : Tensor Q :=
  Tensor.mk [1; 1; 2; 3]%nat (fun _ => 7%Q).

(** Keys and values for a second write. *)
Definition later_k : Tensor Q :=
  Tensor.mk [1; 1; 2; 2]%nat
    (fun idx => match idx with
                | [_; _; i; d] => inject_Z (Z.of_nat (20 + 2 * i + d))
                | _ => 0%Q
                end).

Definition later_v : Tensor Q :=
  Tensor.mk [1; 1; 2; 2]%nat
    (fun idx => match idx with
                | [_; _; i; d] => inject_Z (Z.of_nat (30 + 2 * i + d))
                | _ => 0%Q
                end).

End Samples.

(** ** Tensor-parallel distribution of the decoder *)

Module Shard.

Import Decoder.

(** [Attention.distribute(device_mesh)]: the mesh is taken at its size;
    [parallelize_module] changes the placement of the projection
    weights, which are not among the modelled fields. *)
Definition Attention_distribute (mesh_size : Z) (a : Attention) : Attention :=
  mkAttention (n_heads a) (head_dim a) (n_local_heads a) (dim a)
    (Some mesh_size) (kv_cache a).

(** [TransformerBlock.distribute(device_mesh)] *)
Definition TransformerBlock_distribute (mesh_size : Z) (b : TransformerBlock)
    : TransformerBlock :=
  mkBlock (Attention_distribute mesh_size (attention b)).

(** [Transformer.distribute(device_mesh)] *)
Definition Transformer_distribute (mesh_size : Z) (m : Transformer) : Transformer :=
  mkTransformer (config m) (has_tok_embeddings m)
    (List.map (fun l => (fst l, TransformerBlock_distribute mesh_size (snd l)))
              (layers m))
    (has_output_head m) (max_batch_size m) (max_seq_length m)
    mesh_size (precompute_freqs_cis m) (freqs_cis m) (causal_mask m).

End Shard.

(** ** Further configurations *)

Module Stages.

(** [Spec.sample_args] with a negative width (a multiple of the head
    count). *)
Definition negative_width : Args.t :=
  Args.mk 16 100 2 4 (-64) (Some 256) 4 (-16) 10000%Q (1 # 100000)%Q 256 None
    false 8192 None false 1 0.

(** [Spec.sample_args] without a hidden width. *)
Definition no_hidden_width : Args.t :=
  Args.mk 16 100 2 4 64 None 4 16 10000%Q (1 # 100000)%Q 256 None
    false 8192 None false 1 0.

End Stages.

(** ** Vocabulary of the further statements *)

Module Vocab.

Import KV Decoder.

(** The number of key/value heads [setup_cache] allocates for. *)
Definition cache_heads_of (a : Attention) : Z :=
  match tp_degree a with
  | Some tp => n_local_heads a / tp
  | None => n_local_heads a
  end.

(** Both buffers of the layer's cache have the given shape. *)
Definition layer_cache_shape (shp : list nat) (l : Z * TransformerBlock) : Prop :=
  exists c, kv_cache (attention (snd l)) = Some c /\
            Tensor.shape (buf (k_cache c)) = shp /\
            Tensor.shape (buf (v_cache c)) = shp.

(** The stored capacity describes the buffers: either nothing has been
    set up, or every layer's cache and the causal mask have the stored
    size. *)
Definition caches_consistent (m : Transformer) : Prop :=
  (max_batch_size m = -1 /\ max_seq_length m = -1 /\
   Forall (fun l => kv_cache (attention (snd l)) = None) (layers m) /\
   freqs_cis m = None /\ causal_mask m = None) \/
  (0 <= max_seq_length m /\
   Forall (fun l => exists c,
               kv_cache (attention (snd l)) = Some c /\
               cache_batch c = Some (Z.to_nat (max_batch_size m)) /\
               cache_seq c = Some (Z.to_nat (max_seq_length m))) (layers m) /\
   is_Some (freqs_cis m) /\
   exists mask, causal_mask m = Some mask /\
                Tensor.shape (buf mask) =
                  [Z.to_nat (max_seq_length m); Z.to_nat (max_seq_length m)]).

(** The configuration of pipeline stage [k]. *)
Definition with_stage (c : Args.t) (k : Z) : Args.t :=
  Args.mk (Args.block_size c) (Args.vocab_size c) (Args.n_layers c)
    (Args.n_heads c) (Args.dim c) (Args.hidden_dim c) (Args.n_local_heads c)
    (Args.head_dim c) (Args.rope_base c) (Args.norm_eps c) (Args.multiple_of c)
    (Args.ffn_dim_multiplier c) (Args.use_tiktoken c) (Args.max_seq_length c)
    (Args.rope_scaling c) (Args.use_hf_rope c) (Args.n_stages c) k.

(** The layer ids a stage builds. *)
Definition stage_layer_ids (c : Args.t) (k : Z) : list Z :=
  let per_stage := Args.n_layers c / Args.n_stages c in
  py_range (per_stage * k) (per_stage * (k + 1)).

End Vocab.

(** ** Parameter files: [TransformerArgs.from_params], [ModelArgs.from_params] *)

Module Config.

Import Recipe.

(** [if _from in params: params[_to] = params.pop(_from)] *)
Definition rename_key {V} (_from _to : string) (params : gmap string V)
    : gmap string V :=
  match params !! _from with
  | Some v => <[_to := v]> (delete _from params)
  | None => params
  end.

(** The renaming loop of [TransformerArgs.from_params], over its list
    [replace]; the dataclass constructor that follows it is not
    modelled. *)
Definition renamed_params {V} (params : gmap string V) : gmap string V :=
  fold_left (fun p r => rename_key (fst r) (snd r) p)
    [("rope_theta", "rope_base"); ("n_kv_heads", "n_local_heads")]%string
    params.

(** A value of a parsed JSON object, as far as [ModelArgs.from_params]
    looks at it: [null], a boolean, a string, or anything else. *)
Inductive jvalue (V : Type) : Type :=
| JNull
| JBool (b : bool)
| JStr (s : string)
| JOther (v : V).
Arguments JNull {V}.
Arguments JBool {V} b.
Arguments JStr {V} s.
Arguments JOther {V} v.

(** The values of [class ModelType(Enum)]. *)
Definition ModelType_value (t : ModelType) : string :=
  match t with
  | TextOnly => "text_only"
  | Llama3_1 => "llama3_1"
  | Flamingo => "flamingo"
  | Llava => "llava"
  end.

(** [ModelType(model_type_name)]: look-up by value. *)
Definition ModelType_of_value {V} (v : jvalue V) : res ModelType :=
  match v with
  | JStr s =>
      if String.eqb s "text_only" then Ret TextOnly
      else if String.eqb s "llama3_1" then Ret Llama3_1
      else if String.eqb s "flamingo" then Ret Flamingo
      else if String.eqb s "llava" then Ret Llava
      else Raise ValueError
  | _ => Raise ValueError
  end.

(** A value of [transformer_args]: the whole parsed file (text-only
    files) or one of its entries. *)
Inductive module_params (V : Type) : Type :=
| WholeFile (loaded_params : gmap string (jvalue V))
| Entry (v : jvalue V).
Arguments WholeFile {V} loaded_params.
Arguments Entry {V} v.

(** [@dataclass class ModelArgs] *)
Record ModelArgs (V : Type) : Type := mkModelArgs {
  model_type : ModelType;
  transformer_args : gmap string (module_params V);
  use_tiktoken : jvalue V
}.
Arguments mkModelArgs {V} model_type transformer_args use_tiktoken.
Arguments model_type {V} _.
Arguments transformer_args {V} _.
Arguments use_tiktoken {V} _.

(** [ModelArgs.from_params], from the parsed content of the file. *)
Definition from_params {V} (loaded_params : gmap string (jvalue V))
    : res (ModelArgs V) :=
  let? parts :=
    match default JNull (loaded_params !! "model_type"%string) with
    | JNull =>
        Ret (TextOnly,
             ({["text"%string := WholeFile loaded_params]}
                : gmap string (module_params V)))
    | model_type_name =>
        let? model_type := ModelType_of_value model_type_name in
        Ret (model_type,
             Entry <$> filter (fun kv => fst kv <> "model_type"%string) loaded_params)
    end in
  let use_tiktoken :=
    default (JBool false) (loaded_params !! "use_tiktoken"%string) in
  Ret (mkModelArgs (fst parts) (snd parts) use_tiktoken).

(** [ModelArgs.from_table] on the directory of known configurations. *)
Definition from_table {A} (from_params_file : string -> res A)
    (fs : Names.config_dir) (name : string) : res A :=
  if Names.is_file fs (name +:+ ".json") then from_params_file (name +:+ ".json")
  else Raise RuntimeError.

End Config.

(** ** Sample parameter files *)

Module Files.

Import Config.

(** A text-only file (no [model_type]). *)
Definition text_file : gmap string (jvalue Z) :=
  <["dim"%string := JOther 64]>
    (<["n_heads"%string := JOther 4]>
       (<["use_tiktoken"%string := JBool true]> ∅)).

(** A Llava file with both modules, and one without the decoder. *)
Definition llava_file : gmap string (jvalue Z) :=
  <["model_type"%string := JStr "llava"]>
    (<["encoder"%string := JOther 1]>
       (<["decoder"%string := JOther 2]> ∅)).

Definition llava_file_no_decoder : gmap string (jvalue Z) :=
  <["model_type"%string := JStr "llava"]>
    (<["encoder"%string := JOther 1]> ∅).

End Files.

(** ** Sample scaling configurations *)

Module Scalings.

(** A configuration whose two factors coincide (one threshold, 8192),
    one with a zero low factor, and one that leaves the length of the
    context as it is. *)
Definition one_threshold : gmap string Q :=
  <["high_freq_factor"%string := 1%Q]> Spec.llama31_scaling.

Definition zero_low : gmap string Q :=
  <["low_freq_factor"%string := 0%Q]> Spec.llama31_scaling.

Definition zero_high : gmap string Q :=
  <["high_freq_factor"%string := 0%Q]> Spec.llama31_scaling.

End Scalings.

(** ** Sample inputs of the fused model *)

Module FusionSamples.

(** A text-only prompt of seven tokens, and a prompt with a token beyond
    the vocabulary of [Spec.sample_embedding]. *)
Definition text_tokens : Tensor Z :=
  Tensor.mk [7]%nat (fun idx => Z.of_nat (List.last idx 0%nat)).

Definition unknown_tokens : Tensor Z :=
  Tensor.mk [7]%nat (fun idx => 100 + Z.of_nat (List.last idx 0%nat)).

(** A fusion whose encoder fails. *)
Definition failing_encoder : Fusion.ConcateFusion unit :=
  Fusion.mkConcateFusion unit
    (fun _ => Raise RuntimeError)
    (Fusion.decoder unit Spec.sample_fusion)
    Spec.sample_embedding Spec.sample_projector.

(** The hidden state of the sample encoder, and one with two images. *)
Definition hidden_state : Tensor Q :=
  Tensor.mk [1; 1; 1; 577; 3]%nat
    (fun idx => inject_Z (Z.of_nat (nth 3 idx 0%nat))).

Definition two_images : Tensor Q := Tensor.full (1 # 2)%Q [1; 2; 1; 577; 3]%nat.

End FusionSamples.

(** ** Loading a checkpoint: [Attention.load_hook] *)

Module Checkpoint.

Import Decoder.

(** [x[start : start + len]] along the first axis. *)
Definition narrow0 {A} (x : Tensor A) (start len : nat) : Tensor A :=
  Tensor.mk (len :: tl (Tensor.shape x))
    (fun idx => match idx with
                | i :: r => Tensor.data x ((start + i)%nat :: r)
                | [] => Tensor.data x []
                end).

(** [torch.split(x, (s0, s1, s2), dim=0)]: the sizes are not negative
    and add up to the size of the first axis. *)
Definition split3 {A} (x : Tensor A) (s0 s1 s2 : Z)
    : res (Tensor A * Tensor A * Tensor A) :=
  match Tensor.shape x with
  | [] => Raise RuntimeError
  | n :: _ =>
      if (s0 <? 0) || (s1 <? 0) || (s2 <? 0) then Raise RuntimeError
      else if negb (s0 + s1 + s2 =? Z.of_nat n) then Raise RuntimeError
      else Ret (narrow0 x 0 (Z.to_nat s0),
                narrow0 x (Z.to_nat s0) (Z.to_nat s1),
                narrow0 x (Z.to_nat (s0 + s1)) (Z.to_nat s2))
  end.

(** [state_dict[key] = value] *)
Definition setitem {V} (key : string) (value : V) : M (gmap string V) unit :=
  fun state_dict => (Ret tt, <[key := value]> state_dict).

(** [Attention.load_hook(state_dict, prefix, *args)]: the state
    dictionary is the caller's and is changed in place; the function
    ends at its [return], the code below it is never run. *)
Definition load_hook (self : Attention) (prefix : string)
    : M (gmap string (Tensor Q)) unit :=
  let! state_dict := st_get in
  match state_dict !! (prefix +:+ "wqkv.weight") with
  | Some wqkv =>
      let! _ := st_put (delete (prefix +:+ "wqkv.weight") state_dict) in
      let q_size := n_heads self * head_dim self in
      let kv_size := n_local_heads self * head_dim self in
      let! parts := st_lift (split3 wqkv q_size kv_size kv_size) in
      let! _ := setitem (prefix +:+ "wq.weight") (fst (fst parts)) in
      let! _ := setitem (prefix +:+ "wk.weight") (snd (fst parts)) in
      setitem (prefix +:+ "wv.weight") (snd parts)
  | None => st_ret tt
  end.

(** An attention module of 4 heads of width 2 with 2 key/value heads, a
    fused weight of 16 rows, and a checkpoint holding it. *)
Definition sample_attention : Attention := mkAttention 4 2 2 8 None None.

Definition sample_wqkv : Tensor Q :=
  Tensor.mk [16; 8]%nat
    (fun idx => match idx with
                | [i; j] => inject_Z (Z.of_nat (8 * i + j))
                | _ => 0%Q
                end).

Definition sample_state_dict : gmap string (Tensor Q) :=
  <["layers.0.attention.wqkv.weight"%string := sample_wqkv]>
    (<["layers.0.attention.wo.weight"%string := Tensor.full 1%Q [8; 8]%nat]> ∅).

(** A checkpoint whose fused weight has a row too few. *)
Definition short_state_dict : gmap string (Tensor Q) :=
  <["layers.0.attention.wqkv.weight"%string := Tensor.full 1%Q [15; 8]%nat]>
    (<["layers.0.attention.wo.weight"%string := Tensor.full 1%Q [8; 8]%nat]> ∅).

End Checkpoint.

(** ** Applying the rotary table: [apply_rotary_emb], [rotate_half],
    [hf_apply_rotary_emb] *)

Module Rotary.

Local Open Scope Q_scope.

(** [x.numel()] from the shape. *)
Definition numel (shp : list nat) : nat := fold_right Nat.mul 1%nat shp.

(** Row-major position of a multi-index, and back. *)
Fixpoint ravel (shp idx : list nat) : nat :=
  match shp, idx with
  | _ :: rest, i :: idx' => (i * numel rest + ravel rest idx')%nat
  | _, _ => 0%nat
  end.

Fixpoint unravel (shp : list nat) (flat : nat) : list nat :=
  match shp with
  | [] => []
  | _ :: rest => (flat / numel rest)%nat :: unravel rest (flat mod numel rest)
  end.

(** [x.view(shp)]: the elements in the same order under another shape. *)
Definition view {A} (x : Tensor A) (shp : list nat) : res (Tensor A) :=
  if (numel (Tensor.shape x) =? numel shp)%nat
  then Ret (Tensor.mk shp
              (fun idx => Tensor.data x (unravel (Tensor.shape x) (ravel shp idx))))
  else Raise RuntimeError.

(** [apply_rotary_emb(x, freqs_cis)] on [x] of the shape
    [nb, ns, nh, nd] (batch, positions, heads, head width), the shape
    [Attention.forward] calls it with.  [reshape(..., -1, 2)] infers the
    number of pairs, which fails for an empty input and for an odd
    width; the last axis of the table holds cosine and sine. *)
Definition apply_rotary_emb (nb ns nh nd : nat) (x : list nat -> Q)
    (freqs_cis : Tensor Q) : res (Tensor Q) :=
  let known := (nb * ns * nh * 2)%nat in
  if (known =? 0)%nat then Raise RuntimeError
  else if negb ((nb * ns * nh * nd) mod known =? 0)%nat then Raise RuntimeError
  else
    let pairs := ((nb * ns * nh * nd) / known)%nat in
    let xshaped (idx : list nat) : Q :=
      match idx with
      | [b; s; h; j; c] => x [b; s; h; (2 * j + c)%nat]
      | _ => 0
      end in
    let? freqs_cis := view freqs_cis [1; ns; 1; pairs; 2]%nat in
    let x_out2 (idx : list nat) : Q :=
      match idx with
      | [b; s; h; j; c] =>
          if (c =? 0)%nat
          then xshaped [b; s; h; j; 0%nat] * Tensor.data freqs_cis [0; s; 0; j; 0]%nat
               - xshaped [b; s; h; j; 1%nat] * Tensor.data freqs_cis [0; s; 0; j; 1]%nat
          else xshaped [b; s; h; j; 1%nat] * Tensor.data freqs_cis [0; s; 0; j; 0]%nat
               + xshaped [b; s; h; j; 0%nat] * Tensor.data freqs_cis [0; s; 0; j; 1]%nat
      | _ => 0
      end in
    Ret (Tensor.mk [nb; ns; nh; (pairs * 2)%nat]
           (fun idx => match idx with
                       | [b; s; h; d] => x_out2 [b; s; h; (d / 2)%nat; (d mod 2)%nat]
                       | _ => 0
                       end)).

(** [rotate_half(x)]: [torch.cat((-x2, x1), dim=-1)] with [x1] the
    first [width // 2] entries of the last axis and [x2] the others. *)
Definition rotate_half (x : Tensor Q) : res (Tensor Q) :=
  match last (Tensor.shape x) with
  | None => Raise IndexError
  | Some width =>
      let half := (width / 2)%nat in
      Ret (Tensor.mk (removelast (Tensor.shape x) ++ [((width - half) + half)%nat])
             (fun idx =>
                let d := List.last idx 0%nat in
                if (d <? width - half)%nat
                then - Tensor.data x (removelast idx ++ [(half + d)%nat])
                else Tensor.data x (removelast idx ++ [(d - (width - half))%nat])))
  end.

(** The size of an axis of a broadcast product, and the entry of a
    factor that an entry of the product reads. *)
Definition broadcast_dim (a b : nat) : res nat :=
  if (a =? b)%nat then Ret a
  else if (a =? 1)%nat then Ret b
  else if (b =? 1)%nat then Ret a
  else Raise RuntimeError.

Definition along (size i : nat) : nat := if (size =? 1)%nat then 0%nat else i.

(** [hf_apply_rotary_emb(x, freq_cis)] with the default
    [unsqueeze_dim=1], on [x] of the shape [nb, ns, nh, nd] and a table
    of the shape [fs, fd, fc]: cosine and sine are the entries 0 and 1
    of the last axis of the table, and both products broadcast the table
    over batch and heads. *)
Definition hf_apply_rotary_emb (nb ns nh nd : nat) (x : list nat -> Q)
    (fs fd fc : nat) (freq_cis : list nat -> Q) : res (Tensor Q) :=
  if (fc <? 1)%nat then Raise IndexError
  else
    let cos (s d : nat) : Q := freq_cis [s; d; 0%nat] in
    if (fc <? 2)%nat then Raise IndexError
    else
      let sin (s d : nat) : Q := freq_cis [s; d; 1%nat] in
      let? rows := broadcast_dim ns fs in
      let? cols := broadcast_dim nd fd in
      let? rotated := rotate_half (Tensor.mk [nb; ns; nh; nd] x) in
      Ret (Tensor.mk [nb; rows; nh; cols]
             (fun idx =>
                match idx with
                | [b; s; h; d] =>
                    x [b; along ns s; h; along nd d] * cos (along fs s) (along fd d)
                    + Tensor.data rotated [b; along ns s; h; along nd d]
                      * sin (along fs s) (along fd d)
                | _ => 0
                end)).

(** Cosine and sine as the rational point of the unit circle at the
    half-angle tangent [a]: an exact stand-in with
    [cos ^ 2 + sin ^ 2 = 1]. *)
Definition circle_ops : Rope.FloatOps :=
  Rope.mkFloatOps
    (fun base e => 1 + e * (base - 1))
    (fun a => (1 - a * a) / (1 + a * a))
    (fun a => (2 * a) / (1 + a * a)).

(** Sample inputs: queries of the shape [1, 2, 1, 4] and tables of unit
    rows for them. *)
Definition sample_q (idx : list nat) : Q :=
  match idx with
  | [_; s; _; d] => inject_Z (Z.of_nat (1 + 4 * s + d))
  | _ => 0
  end.

Definition sample_table : Tensor Q :=
  Tensor.mk [2; 2; 2]%nat
    (fun idx => match idx with
                | [_; _; c] => if (c =? 0)%nat then 3 # 5 else 4 # 5
                | _ => 0
                end).

End Rotary.

(** ** Image preprocessing: [prepare_image], [image_preprocess] *)

Module Preprocess.

Local Open Scope Q_scope.

(** [int(x)] of a Python float: truncation towards zero. *)
Definition py_int (x : Q) : Z := (Qnum x ÷ Zpos (Qden x))%Z.

(** [max(a, b)] *)
Definition py_max (a b : Q) : Q := if Rope.Qltb a b then b else a.

(** [prepare_image]: the size handed to [Resize], from the height and
    the width of the image read and the targets.  (The same lines open
    [llava_image_preprocess].) *)
Definition output_size (height width : nat) (target_h target_w : Z) : res (Z * Z) :=
  let? ratio_h := Rope.py_div (inject_Z (Z.of_nat height)) (inject_Z target_h) in
  let? ratio_w := Rope.py_div (inject_Z (Z.of_nat width)) (inject_Z target_w) in
  let ratio := py_max ratio_h ratio_w in
  let? out_h := Rope.py_div (inject_Z (Z.of_nat height)) ratio in
  let? out_w := Rope.py_div (inject_Z (Z.of_nat width)) ratio in
  Ret (py_int out_h, py_int out_w).

(** [torch._check(cond)] *)
Definition _check (cond : bool) : res unit :=
  if cond then Ret tt else Raise RuntimeError.

(** [torch.nn.functional.pad(img, (l, r, t, b))] on an image of the
    shape [nc, height, width]: zeros around the image (a negative
    amount crops). *)
Definition pad (nc height width : nat) (img : list nat -> Q) (l r t b : Z)
    : res (Tensor Q) :=
  let new_h := (Z.of_nat height + t + b)%Z in
  let new_w := (Z.of_nat width + l + r)%Z in
  if (new_h <? 0)%Z || (new_w <? 0)%Z then Raise RuntimeError
  else
    Ret (Tensor.mk [nc; Z.to_nat new_h; Z.to_nat new_w]
           (fun idx =>
              match idx with
              | [c; y; x] =>
                  let y' := (Z.of_nat y - t)%Z in
                  let x' := (Z.of_nat x - l)%Z in
                  if (0 <=? y')%Z && (y' <? Z.of_nat height)%Z &&
                     (0 <=? x')%Z && (x' <? Z.of_nat width)%Z
                  then img [c; Z.to_nat y'; Z.to_nat x']
                  else 0
              | _ => 0
              end)).

Section ImagePreprocess.
(** [torchvision]'s [normalize(image, mean, std)], left open. *)
Variable normalize : Tensor Q -> list Q -> list Q -> res (Tensor Q).

(** [image_preprocess(img, target_h, target_w, rescale_factor,
    image_mean, image_std)] on an image of the shape
    [nc, height, width]; the padding is that of
    [llava_image_preprocess]. *)
Definition image_preprocess (nc height width : nat) (img : list nat -> Q)
    (target_h target_w : Z) (rescale_factor : Q) (image_mean image_std : list Q)
    : res (Tensor Q) :=
  let l_pad := ((target_w - Z.of_nat width) / 2)%Z in
  let t_pad := ((target_h - Z.of_nat height) / 2)%Z in
  let r_pad := (- ((target_w - Z.of_nat width) / -2))%Z in
  let b_pad := (- ((target_h - Z.of_nat height) / -2))%Z in
  let? _ := _check (0 <=? l_pad)%Z in
  let? _ := _check (0 <=? t_pad)%Z in
  let? _ := _check (0 <=? r_pad)%Z in
  let? _ := _check (0 <=? b_pad)%Z in
  let? resized := pad nc height width img l_pad r_pad t_pad b_pad in
  let scaled := Tensor.map (fun v => v * rescale_factor) resized in
  let? normed := normalize scaled image_mean image_std in
  Ret (Tensor.unsqueeze0 normed).
End ImagePreprocess.

(** A stand-in for the normalisation, per channel, for lists of one
    mean and one deviation per channel. *)
Definition per_channel (image : Tensor Q) (mean std : list Q) : res (Tensor Q) :=
  Ret (Tensor.mk (Tensor.shape image)
         (fun idx => (Tensor.data image idx - nth (hd 0%nat idx) mean 0)
                     / nth (hd 0%nat idx) std 1)).

(** An image of 3 channels, 2 rows and 3 columns. *)
Definition sample_img (idx : list nat) : Q :=
  match idx with
  | [c; y; x] => inject_Z (Z.of_nat (100 * c + 10 * y + x + 1))
  | _ => 0
  end.

End Preprocess.

(** * Properties *)

(** ** Results and state passing *)

Lemma raises_Raise {A} (e : exn) : raises (@Raise A e).
Proof. by exists e. Qed.

Lemma raises_Ret {A} (a : A) : ~ raises (Ret a).
Proof. by intros [e He]. Qed.

Lemma res_bind_Ret {A B} (c : res A) (k : A -> res B) (b : B) :
  res_bind c k = Ret b -> exists a, c = Ret a /\ k a = Ret b.
Proof. destruct c as [a|e]; simpl; [by exists a | done]. Qed.

Lemma st_bind_Ret {S A B} (c : M S A) (k : A -> M S B) s b s2 :
  st_bind c k s = (Ret b, s2) ->
  exists a s1, c s = (Ret a, s1) /\ k a s1 = (Ret b, s2).
Proof.
  unfold st_bind. destruct (c s) as [[a|e] s1]; [|done].
  intros H. by exists a, s1.
Qed.

(** A run whose outcome is [Ret tt] ends in the state it computes. *)
Lemma run_returns {S} (c : M S unit) (s : S) :
  fst (c s) = Ret tt -> c s = (Ret tt, snd (c s)).
Proof. destruct (c s) as [r s']. simpl. by intros ->. Qed.

(** ** Recipes and identity fusion *)

Section RecipeFacts.
Import Recipe.

Lemma identity_one {A} (k : string) (v : A) : identity [(k, v)] = Ret v.
Proof. reflexivity. Qed.

Lemma identity_many {A} (kwargs : list (string * A)) :
  length kwargs <> 1%nat -> identity kwargs = Raise ValueError.
Proof.
  intros Hlen. unfold identity.
  destruct (length kwargs =? 1)%nat eqn:E; [|done].
  apply Nat.eqb_eq in E. done.
Qed.

(** C10.  The identity fusion returns the value of its single keyword
    argument unchanged and raises for any other number of arguments
    (none, or two and more); the two recipes that use it, TextOnly and
    Llama3_1, name exactly one sub-module, ["text"], and building such
    a model hands back that built sub-module itself. *)
Theorem identity_fusion_exactly_one :
  (forall (A : Type) (kwargs : list (string * A)),
      identity kwargs = match kwargs with
                        | [(_, v)] => Ret v
                        | _ => Raise ValueError
                        end) /\
  (forall r, In r [_text_only; _llama3_1] ->
      fusion_class r = identity_fn /\
      exists cls, modules r = [("text"%string, cls)] /\
      forall (P : Type) (transformer_args : gmap string P),
        build_model (PyModelType (model_type r)) transformer_args =
        match transformer_args !! "text"%string with
        | Some p => Ret (Bare (Built cls p))
        | None => Raise KeyError
        end).
Proof.
  split.
  - intros A [|[k v] [|kv rest]]; try reflexivity.
  - intros r [<-|[<-|[]]]; (split; [reflexivity|]); eexists; (split; [reflexivity|]);
      intros P targs; unfold build_model; simpl;
      destruct (targs !! "text"%string); reflexivity.
Qed.

(** C6.  [get_recipe] is defined on each of the four model types and
    returns that type's recipe with the declared modules and fusion
    class; on anything that is not one of the four members it raises
    [ValueError], the error the specification calls a configuration
    error. *)
Theorem get_recipe_total_exhaustive :
  get_recipe (PyModelType TextOnly) =
    Ret (mkRecipe TextOnly [("text"%string, Transformer_cls)] identity_fn) /\
  get_recipe (PyModelType Llama3_1) =
    Ret (mkRecipe Llama3_1 [("text"%string, llama3_1_builder)] identity_fn) /\
  get_recipe (PyModelType Flamingo) =
    Ret (mkRecipe Flamingo
           [("encoder"%string, flamingo_vision_encoder);
            ("decoder"%string, flamingo_decoder)] DeepFusionModel) /\
  get_recipe (PyModelType Llava) =
    Ret (mkRecipe Llava
           [("encoder"%string, clip_vision_encoder);
            ("decoder"%string, Transformer_cls)] ConcateFusion_cls) /\
  (forall mt, exists r, get_recipe (PyModelType mt) = Ret r /\ model_type r = mt) /\
  (forall tag, (forall mt, tag <> PyModelType mt) ->
               get_recipe tag = Raise ValueError).
Proof.
  repeat split.
  - intros []; eexists; (split; [reflexivity|reflexivity]).
  - intros [mt|s|n|] Hout; try reflexivity. by destruct (Hout mt).
Qed.

End RecipeFacts.

(** ** Named configurations *)

Section NamesFacts.
Import Names Spec.

Lemma prefix_iff (sub s : string) :
  String.prefix sub s = true <-> exists post, s = sub +:+ post.
Proof.
  revert s. induction sub as [|a sub IH]; intros [|b s]; simpl.
  - split; [intros _; by exists EmptyString | done].
  - split; [intros _; by exists (String b s) | done].
  - split; [done | by intros [? ?]].
  - destruct (ascii_dec a b) as [<-|Hne].
    + rewrite IH. split; intros [post Hpost]; exists post; [by rewrite Hpost|].
      by injection Hpost.
    + split; [done|]. intros [post Hpost]. by injection Hpost.
Qed.

(** [contains sub s] is the substring test. *)
Lemma contains_iff (sub s : string) :
  contains sub s = true <-> exists pre post, s = pre +:+ sub +:+ post.
Proof.
  induction s as [|c s IH]; cbn [contains]; rewrite orb_true_iff, prefix_iff.
  - split.
    + intros [[post Hpost]|]; [|done]. by exists EmptyString, post.
    + intros ([|? ?] & post & Hpost); [|done]. left. by exists post.
  - rewrite IH. split.
    + intros [[post Hpost]|(pre & post & ->)].
      * by exists EmptyString, post.
      * by exists (String c pre), post.
    + intros ([|c' pre] & post & Hpost).
      * left. by exists post.
      * right. injection Hpost as -> ->. by exists pre, post.
Qed.

Lemma insert_by_len_perm x l : Permutation (insert_by_len x l) (x :: l).
Proof.
  induction l as [|y l IH]; simpl; [done|].
  destruct (String.length x <? String.length y)%nat; [|done].
  rewrite IH. apply perm_swap.
Qed.

Lemma sort_by_len_desc_perm l : Permutation (sort_by_len_desc l) l.
Proof.
  induction l as [|x l IH]; simpl; [done|].
  rewrite insert_by_len_perm. by constructor.
Qed.

Lemma insert_by_len_sorted x l :
  StronglySorted by_len_desc l -> StronglySorted by_len_desc (insert_by_len x l).
Proof.
  induction 1 as [|y l Hs IH Hall]; simpl.
  - repeat constructor.
  - destruct (String.length x <? String.length y)%nat eqn:E.
    + apply Nat.ltb_lt in E. constructor; [done|].
      eapply Permutation_Forall; [symmetry; apply insert_by_len_perm|].
      constructor; [unfold by_len_desc; lia | done].
    + apply Nat.ltb_ge in E. constructor; [by constructor|].
      constructor; [done|].
      eapply Forall_impl; [exact Hall|].
      unfold by_len_desc. intros z Hz. lia.
Qed.

Lemma sort_by_len_desc_sorted l : StronglySorted by_len_desc (sort_by_len_desc l).
Proof.
  induction l as [|x l IH]; simpl; [constructor|].
  by apply insert_by_len_sorted.
Qed.

Lemma single_longest_perm c l l' :
  Permutation l l' -> single_longest c l -> single_longest c l'.
Proof.
  intros Hp (pre & post & -> & Hshort).
  assert (Hin : In c l').
  { eapply Permutation_in; [exact Hp|]. apply in_elt. }
  apply in_split in Hin as (pre' & post' & ->).
  exists pre', post'. split; [done|].
  intros x Hx. apply Hshort.
  eapply Permutation_in; [|exact Hx].
  symmetry. eapply Permutation_app_inv. exact Hp.
Qed.

Lemma single_longest_head c0 l :
  Forall (fun z => (String.length z < String.length c0)%nat) l ->
  single_longest c0 (c0 :: l).
Proof.
  intros Hall. exists [], l. split; [done|].
  intros x Hx. simpl in Hx. by eapply (proj1 (List.Forall_forall _ _)) in Hall.
Qed.

(** In a list sorted longest first, a single longest entry is the
    head, and the second entry is strictly shorter. *)
Lemma single_longest_sorted c c0 c1 rest :
  StronglySorted by_len_desc (c0 :: c1 :: rest) ->
  single_longest c (c0 :: c1 :: rest) ->
  c = c0 /\ (String.length c1 < String.length c0)%nat.
Proof.
  intros Hs (pre & post & Heq & Hshort).
  apply StronglySorted_inv in Hs as [_ Hall].
  destruct pre as [|p pre]; simpl in Heq.
  - injection Heq as <- <-. split; [done|].
    apply Hshort. simpl. by left.
  - injection Heq as <- Heq.
    assert (Hc : In c (c1 :: rest)) by (rewrite Heq; apply in_elt).
    eapply (proj1 (List.Forall_forall _ _)) in Hall; [|exact Hc].
    unfold by_len_desc in Hall.
    assert (String.length c0 < String.length c)%nat by (apply Hshort; simpl; by left).
    lia.
Qed.

Lemma two_best_tie_no_single l c : two_best_tie l -> ~ single_longest c l.
Proof.
  intros (x & y & rest & Hp & Hxy & Hrest) Hc.
  apply (single_longest_perm _ _ _ Hp) in Hc as (pre & post & Heq & Hshort).
  destruct pre as [|p pre]; simpl in Heq.
  - injection Heq as <- <-.
    assert (String.length y < String.length x)%nat by (apply Hshort; simpl; by left).
    lia.
  - injection Heq as <- Heq. destruct pre as [|q pre]; simpl in Heq.
    + injection Heq as <- <-.
      assert (String.length x < String.length y)%nat by (apply Hshort; simpl; by left).
      lia.
    + injection Heq as <- Heq.
      assert (Hc : In c rest) by (rewrite Heq; apply in_elt).
      apply Hrest in Hc.
      assert (String.length x < String.length c)%nat by (apply Hshort; simpl; by left).
      lia.
Qed.

(** The matches fall into exactly one of three classes. *)
Lemma matches_trichotomy (l : list string) :
  l = [] \/ (exists c, single_longest c l) \/ two_best_tie l.
Proof.
  pose proof (sort_by_len_desc_perm l) as Hp.
  pose proof (sort_by_len_desc_sorted l) as Hs.
  destruct (sort_by_len_desc l) as [|c0 [|c1 rest]].
  - left. by apply Permutation_nil.
  - right; left. exists c0. apply (single_longest_perm c0 [c0]); [done|].
    by apply single_longest_head.
  - right. destruct (decide (String.length c0 = String.length c1)) as [E|E].
    + right. exists c0, c1, rest. split; [by symmetry|]. split; [done|].
      intros z Hz.
      apply StronglySorted_inv in Hs as [Hs _].
      apply StronglySorted_inv in Hs as [_ Hall].
      eapply (proj1 (List.Forall_forall _ _)) in Hall; [|exact Hz].
      unfold by_len_desc in Hall. lia.
    + left. exists c0. apply (single_longest_perm c0 (c0 :: c1 :: rest)); [done|].
      apply single_longest_head.
      apply StronglySorted_inv in Hs as [Hs Hall0].
      apply StronglySorted_inv in Hs as [_ Hall1].
      apply Forall_cons_1 in Hall0 as [H01 _]. unfold by_len_desc in H01.
      constructor; [lia|].
      eapply Forall_impl; [exact Hall1|].
      unfold by_len_desc. intros z Hz. lia.
Qed.

Lemma from_name_fuzzy {A} (from_params : string -> res A) fs name :
  is_file fs (name +:+ ".json") = false ->
  from_name from_params fs name =
  match sort_by_len_desc (fuzzy_matches fs name) with
  | [] => Raise ValueError
  | [c0] => from_params (c0 +:+ ".json")
  | c0 :: c1 :: _ =>
      if (String.length c0 =? String.length c1)%nat then Raise AssertionError
      else from_params (c0 +:+ ".json")
  end.
Proof.
  intros Hfile. unfold from_name. rewrite Hfile.
  pose proof (sort_by_len_desc_perm (fuzzy_matches fs name)) as Hp.
  destruct (fuzzy_matches fs name) as [|m0 [|m1 ms]] eqn:Em.
  - reflexivity.
  - reflexivity.
  - assert (Hlen : length (sort_by_len_desc (m0 :: m1 :: ms)) = length (m0 :: m1 :: ms))
      by (by apply Permutation_length).
    destruct (sort_by_len_desc (m0 :: m1 :: ms)) as [|c0 [|c1 rest]];
      try discriminate Hlen.
    change (1 <? length (m0 :: m1 :: ms))%nat with true. cbv iota.
    by destruct (String.length c0 =? String.length c1)%nat.
Qed.

Lemma sorted_head_longest (c0 c1 : string) (rest : list string) :
  StronglySorted by_len_desc (c0 :: c1 :: rest) ->
  String.length c0 <> String.length c1 ->
  Forall (fun z => (String.length z < String.length c0)%nat) (c1 :: rest).
Proof.
  intros Hs Hne.
  apply StronglySorted_inv in Hs as [Hs Hall0].
  apply StronglySorted_inv in Hs as [_ Hall1].
  apply Forall_cons_1 in Hall0 as [H01 _]. unfold by_len_desc in H01.
  constructor; [lia|].
  eapply Forall_impl; [exact Hall1|].
  unfold by_len_desc. intros z Hz. lia.
Qed.

Lemma from_name_none {A} (from_params : string -> res A) fs name :
  is_file fs (name +:+ ".json") = false ->
  fuzzy_matches fs name = [] ->
  from_name from_params fs name = Raise ValueError.
Proof. intros Hfile E. rewrite (from_name_fuzzy _ _ _ Hfile). by rewrite E. Qed.

Lemma from_name_single {A} (from_params : string -> res A) fs name c :
  is_file fs (name +:+ ".json") = false ->
  single_longest c (fuzzy_matches fs name) ->
  from_name from_params fs name = from_params (c +:+ ".json").
Proof.
  intros Hfile Hc. rewrite (from_name_fuzzy _ _ _ Hfile).
  pose proof (sort_by_len_desc_perm (fuzzy_matches fs name)) as Hp.
  pose proof (sort_by_len_desc_sorted (fuzzy_matches fs name)) as Hs.
  apply (single_longest_perm _ _ _ (Permutation_sym Hp)) in Hc.
  destruct (sort_by_len_desc (fuzzy_matches fs name)) as [|c0 [|c1 rest]].
  - destruct Hc as ([|? ?] & ? & ? & _); discriminate.
  - destruct Hc as ([|? [|? ?]] & ? & Heq & _); try discriminate.
    by injection Heq as <- _.
  - destruct (single_longest_sorted _ _ _ _ Hs Hc) as [-> Hlt].
    destruct (String.length c0 =? String.length c1)%nat eqn:E; [|done].
    apply Nat.eqb_eq in E. lia.
Qed.

Lemma from_name_tie {A} (from_params : string -> res A) fs name :
  is_file fs (name +:+ ".json") = false ->
  two_best_tie (fuzzy_matches fs name) ->
  from_name from_params fs name = Raise AssertionError.
Proof.
  intros Hfile Htie. rewrite (from_name_fuzzy _ _ _ Hfile).
  pose proof (sort_by_len_desc_perm (fuzzy_matches fs name)) as Hp.
  pose proof (sort_by_len_desc_sorted (fuzzy_matches fs name)) as Hs.
  destruct (sort_by_len_desc (fuzzy_matches fs name)) as [|c0 [|c1 rest]].
  - destruct Htie as (x & y & r & Hxy & _).
    apply Permutation_nil in Hp. rewrite Hp in Hxy.
    by apply Permutation_nil in Hxy.
  - destruct Htie as (x & y & r & Hxy & _).
    apply Permutation_length in Hp, Hxy. simpl in Hp, Hxy. lia.
  - destruct (String.length c0 =? String.length c1)%nat eqn:E; [done|].
    apply Nat.eqb_neq in E. exfalso.
    eapply (two_best_tie_no_single _ c0); [exact Htie|].
    apply (single_longest_perm c0 (c0 :: c1 :: rest)); [done|].
    by apply single_longest_head, sorted_head_longest.
Qed.

Lemma filter_perm {A} (f : A -> bool) (l l' : list A) :
  Permutation l l' -> Permutation (List.filter f l) (List.filter f l').
Proof.
  induction 1 as [|x l l' _ IH|x y l|l l' l'' _ IH1 _ IH2]; simpl.
  - done.
  - destruct (f x); [by constructor | done].
  - destruct (f x), (f y); try done. apply perm_swap.
  - by etransitivity.
Qed.

Lemma two_best_tie_perm l l' : Permutation l l' -> two_best_tie l -> two_best_tie l'.
Proof.
  intros Hp (x & y & rest & Hxy & Hlen & Hrest).
  exists x, y, rest. split; [|done]. by rewrite <- Hp.
Qed.

(** The outcome does not depend on the order in which the directory is
    listed. *)
Lemma from_name_listing_order {A} (from_params : string -> res A) fs fs' name :
  is_file fs' = is_file fs ->
  Permutation (listdir fs) (listdir fs') ->
  from_name from_params fs' name = from_name from_params fs name.
Proof.
  intros Hfile Hp.
  assert (Hm : Permutation (fuzzy_matches fs name) (fuzzy_matches fs' name)).
  { unfold fuzzy_matches, known_model_params.
    apply filter_perm. by apply Permutation_map. }
  destruct (is_file fs (name +:+ ".json")) eqn:E.
  { unfold from_name. by rewrite Hfile, E. }
  assert (E' : is_file fs' (name +:+ ".json") = false) by (by rewrite Hfile).
  destruct (matches_trichotomy (fuzzy_matches fs name)) as [Hnil|[[c Hc]|Htie]].
  - rewrite (from_name_none _ _ _ E Hnil).
    apply from_name_none; [done|].
    rewrite Hnil in Hm. by apply Permutation_nil.
  - rewrite (from_name_single _ _ _ _ E Hc).
    apply from_name_single; [done|]. by apply (single_longest_perm _ _ _ Hm).
  - rewrite (from_name_tie _ _ _ E Htie).
    apply from_name_tie; [done|]. by apply (two_best_tie_perm _ _ Hm).
Qed.

(** C9, as amended.  A key that names a configuration file exactly is
    resolved to that file without any search.  Otherwise the known
    names contained in the key (or in its upper-case form) are the
    candidates: with no candidate the call raises [ValueError]; when
    one candidate is strictly longer than every other one it is the
    configuration loaded; and when the two longest candidates have the
    same length the call raises (an [AssertionError]).  In all cases the
    outcome is the same for every order of the directory listing. *)
Theorem from_name_resolution {A} (from_params : string -> res A)
    (fs : config_dir) (name : string) :
  (is_file fs (name +:+ ".json") = true ->
     from_name from_params fs name = from_params (name +:+ ".json")) /\
  (is_file fs (name +:+ ".json") = false ->
     (fuzzy_matches fs name = [] ->
        from_name from_params fs name = Raise ValueError) /\
     (forall c, single_longest c (fuzzy_matches fs name) ->
        from_name from_params fs name = from_params (c +:+ ".json")) /\
     (two_best_tie (fuzzy_matches fs name) ->
        from_name from_params fs name = Raise AssertionError)) /\
  (forall fs', is_file fs' = is_file fs ->
     Permutation (listdir fs) (listdir fs') ->
     from_name from_params fs' name = from_name from_params fs name).
Proof.
  split; [|split].
  - intros Hfile. unfold from_name. by rewrite Hfile.
  - intros Hfile. split; [|split].
    + by apply from_name_none.
    + intros c. by apply from_name_single.
    + by apply from_name_tie.
  - intros fs'. apply from_name_listing_order.
Qed.

(** The scenario of the specification: among the candidates ["7B"] and
    ["Mistral-7B"] of the key ["Mistral-7B-v2"] the longer one is
    chosen. *)
Example from_name_mistral :
  fuzzy_matches mistral_dir "Mistral-7B-v2" = ["7B"; "Mistral-7B"]%string /\
  from_name (@Ret string) mistral_dir "Mistral-7B-v2" = Ret "Mistral-7B.json"%string /\
  from_name (@Ret string) mistral_dir "llama-30B" = Raise ValueError.
Proof. by vm_compute. Qed.

(** C9, as stated, fails: the key ["7b"] has the two equally long
    candidates ["7b"] and ["7B"], and yet the call does not raise,
    because [7b.json] exists and is loaded directly. *)
Lemma from_name_exact_file_beats_tie :
  ~ (two_best_tie (fuzzy_matches twin_dir "7b") ->
     raises (from_name (@Ret string) twin_dir "7b")).
Proof.
  intros Hclaim.
  eapply (raises_Ret "7b.json"%string).
  change (Ret "7b.json"%string) with (from_name (@Ret string) twin_dir "7b").
  apply Hclaim.
  exists "7b"%string, "7B"%string, []. by vm_compute.
Qed.
End NamesFacts.

(** ** The key/value cache *)

Section KVFacts.
Import KV.

Lemma norm_indices_in_range (n : nat) (ps : list Z) :
  Forall (fun p => 0 <= p < Z.of_nat n) ps ->
  norm_indices n ps = Ret (List.map Z.to_nat ps).
Proof.
  induction 1 as [|p ps Hp _ IH]; simpl; [done|].
  unfold norm_index.
  destruct (Z.leb_spec 0 p); [|lia].
  destruct (Z.ltb_spec p (Z.of_nat n)); [|lia].
  simpl. by rewrite IH.
Qed.

Lemma NoDup_to_nat (ps : list Z) :
  Forall (fun p => 0 <= p) ps -> List.NoDup ps -> List.NoDup (List.map Z.to_nat ps).
Proof.
  induction 1 as [|p ps Hp Hall IH]; simpl; intros Hnd; [constructor|].
  apply List.NoDup_cons_iff in Hnd as [Hnotin Hnd].
  apply List.NoDup_cons_iff. split; [|by apply IH].
  intros Hin. apply List.in_map_iff in Hin as (q & Hq & Hin).
  assert (0 <= q) by (by eapply (proj1 (List.Forall_forall _ _)) in Hall).
  assert (q = p) by lia. by subst.
Qed.

Lemma last_hit_absent (s : nat) (ps : list nat) :
  ~ In s ps -> last_hit s ps = None.
Proof.
  induction ps as [|p ps IH]; simpl; intros Hnotin; [done|].
  rewrite IH by tauto.
  destruct (Nat.eqb_spec p s); [|done]. tauto.
Qed.

Lemma last_hit_nth (ps : list nat) (i : nat) :
  List.NoDup ps -> (i < length ps)%nat -> last_hit (nth i ps 0%nat) ps = Some i.
Proof.
  revert i. induction ps as [|p ps IH]; simpl; intros i Hnd Hi; [lia|].
  apply List.NoDup_cons_iff in Hnd as [Hnotin Hnd].
  destruct i as [|i].
  - rewrite last_hit_absent by done. by rewrite Nat.eqb_refl.
  - rewrite IH by (done || lia). done.
Qed.

Lemma dims_fit_refl (shp : list nat) : dims_fit shp shp = true.
Proof. induction shp as [|n shp IH]; simpl; [done|]. by rewrite Nat.eqb_refl, IH. Qed.

Lemma broadcastable_refl (shp : list nat) : broadcastable shp shp = true.
Proof.
  unfold broadcastable, pad_shape.
  rewrite Nat.sub_diag. simpl. rewrite dims_fit_refl.
  by rewrite Nat.leb_refl.
Qed.

Lemma pick_in_bounds (shp idx : list nat) :
  Tensor.in_bounds idx shp = true -> pick shp idx = idx.
Proof.
  revert idx. induction shp as [|n shp IH]; intros [|i idx]; simpl; try done.
  intros H. apply andb_prop in H as [Hi Hrest]. apply Nat.ltb_lt in Hi.
  rewrite (IH _ Hrest).
  destruct (Nat.eqb_spec n 1); [|done]. f_equal. lia.
Qed.

Lemma in_bounds_length (idx shp : list nat) :
  Tensor.in_bounds idx shp = true -> length idx = length shp.
Proof.
  revert shp. induction idx as [|i idx IH]; intros [|n shp]; simpl; try done.
  intros H. apply andb_prop in H as [_ H]. f_equal. by apply IH.
Qed.

Lemma source_index_same (shp idx : list nat) :
  Tensor.in_bounds idx shp = true -> source_index shp idx = idx.
Proof.
  intros H. unfold source_index, pad_shape.
  rewrite (in_bounds_length _ _ H), Nat.sub_diag. simpl.
  by apply pick_in_bounds.
Qed.

(** One in-place write, seen from outside: the written positions hold
    the values, all others are as before. *)
Lemma index_put_spec (self values : Tensor Q) (input_pos : list Z)
    (nb nh ns nd : nat) :
  Tensor.shape self = [nb; nh; ns; nd] ->
  Tensor.shape values = [nb; nh; length input_pos; nd] ->
  List.NoDup input_pos ->
  Forall (fun p => 0 <= p < Z.of_nat ns) input_pos ->
  exists out,
    index_put_ self input_pos values = (Ret tt, out) /\
    Tensor.shape out = [nb; nh; ns; nd] /\
    (exists r, read_at out input_pos = Ret r /\ Tensor.eqv r values) /\
    (forall b h s d, ~ In (Z.of_nat s) input_pos ->
       Tensor.data out [b; h; s; d] = Tensor.data self [b; h; s; d]).
Proof.
  intros Hself Hval Hnd Hrange.
  pose proof (norm_indices_in_range _ _ Hrange) as Hnorm.
  assert (Hnd' : List.NoDup (List.map Z.to_nat input_pos)).
  { apply NoDup_to_nat; [|done]. eapply Forall_impl; [exact Hrange|]. simpl. lia. }
  assert (Hempty : (ns =? 0)%nat && negb (length input_pos =? 0)%nat = false).
  { destruct input_pos as [|p ps]; [by rewrite andb_false_r|].
    apply Forall_cons_1 in Hrange as [Hp _].
    destruct (Nat.eqb_spec ns 0); [lia|done]. }
  unfold index_put_. rewrite Hself, Hempty, Hval, broadcastable_refl, Hnorm.
  cbn [negb]. unfold written. rewrite Hself.
  eexists. split; [reflexivity|]. split; [reflexivity|]. split.
  - unfold read_at. simpl. rewrite Hnorm. simpl.
    eexists. split; [reflexivity|]. split.
    + simpl. by rewrite length_map.
    + simpl. rewrite length_map.
      intros [|b [|h [|i [|d [|? ?]]]]] Hb; simpl in Hb; try done;
        try (by rewrite ?andb_false_r in Hb).
      assert (Hi : (i < length input_pos)%nat).
      { apply andb_prop in Hb as [_ Hb]. apply andb_prop in Hb as [_ Hb].
        apply andb_prop in Hb as [Hb _]. by apply Nat.ltb_lt in Hb. }
      rewrite last_hit_nth by (done || by rewrite length_map).
      rewrite source_index_same; [done|].
      by rewrite Hval.
  - intros b h s d Hnotin. simpl.
    rewrite last_hit_absent; [done|].
    intros Hin. apply List.in_map_iff in Hin as (q & Hq & Hin).
    apply Hnotin.
    assert (0 <= q) by (eapply (proj1 (List.Forall_forall _ _)) in Hrange; [|exact Hin]; simpl in Hrange; lia).
    replace (Z.of_nat s) with q by lia. done.
Qed.

(** C1.  Let [input_pos] be pairwise distinct positions inside the
    cache's sequence axis and [k_val], [v_val] tensors of the cache's
    own batch size, head count and head width, with one sequence entry
    per position.  Then [update] returns, it returns the
    cache's own two buffers whole (same objects, full shape), reading
    them at [input_pos] gives back exactly [k_val] and [v_val], and
    every position outside [input_pos] holds what it held before, the
    zero fill in particular. *)
Theorem update_round_trip (self : KVCache) (input_pos : list Z)
    (k_val v_val : Tensor Q) (nb nh ns nd : nat) :
  Tensor.shape (buf (k_cache self)) = [nb; nh; ns; nd] ->
  Tensor.shape (buf (v_cache self)) = [nb; nh; ns; nd] ->
  List.NoDup input_pos ->
  Forall (fun p => 0 <= p < Z.of_nat ns) input_pos ->
  Tensor.shape k_val = [nb; nh; length input_pos; nd] ->
  Tensor.shape v_val = [nb; nh; length input_pos; nd] ->
  exists k_out v_out,
    update input_pos k_val v_val self = (Ret (k_out, v_out), mkKVCache k_out v_out) /\
    buf_id k_out = buf_id (k_cache self) /\
    buf_id v_out = buf_id (v_cache self) /\
    Tensor.shape (buf k_out) = [nb; nh; ns; nd] /\
    Tensor.shape (buf v_out) = [nb; nh; ns; nd] /\
    (exists k_read v_read,
        read_at (buf k_out) input_pos = Ret k_read /\
        read_at (buf v_out) input_pos = Ret v_read /\
        Tensor.eqv k_read k_val /\ Tensor.eqv v_read v_val) /\
    (forall b h s d, ~ In (Z.of_nat s) input_pos ->
        Tensor.data (buf k_out) [b; h; s; d] = Tensor.data (buf (k_cache self)) [b; h; s; d] /\
        Tensor.data (buf v_out) [b; h; s; d] = Tensor.data (buf (v_cache self)) [b; h; s; d] /\
        (Tensor.data (buf (k_cache self)) [b; h; s; d] = 0%Q ->
           Tensor.data (buf k_out) [b; h; s; d] = 0%Q) /\
        (Tensor.data (buf (v_cache self)) [b; h; s; d] = 0%Q ->
           Tensor.data (buf v_out) [b; h; s; d] = 0%Q)).
Proof.
  intros Hk Hv Hnd Hrange Hkv Hvv.
  destruct (index_put_spec _ _ _ _ _ _ _ Hk Hkv Hnd Hrange)
    as (k_new & Hkput & Hkshape & (k_read & Hkread & Hkeqv) & Hkrest).
  destruct (index_put_spec _ _ _ _ _ _ _ Hv Hvv Hnd Hrange)
    as (v_new & Hvput & Hvshape & (v_read & Hvread & Hveqv) & Hvrest).
  exists (mkBuffer (buf_id (k_cache self)) k_new),
         (mkBuffer (buf_id (v_cache self)) v_new).
  split.
  { unfold update. rewrite Hkv. simpl. rewrite Nat.eqb_refl. simpl.
    unfold st_bind, st_get, st_lift, st_put, st_ret. simpl.
    by rewrite Hkput, Hvput. }
  repeat (split; [done|]). split.
  { exists k_read, v_read. by simpl. }
  intros b h s d Hs. simpl.
  rewrite (Hkrest b h s d Hs), (Hvrest b h s d Hs). done.
Qed.

Lemma update_round_trip_witness :
  exists k_out v_out,
    update [2; 0] Spec.sample_k Spec.sample_v Spec.sample_cache =
      (Ret (k_out, v_out), mkKVCache k_out v_out) /\
    exists k_read v_read,
      read_at (buf k_out) [2; 0] = Ret k_read /\
      read_at (buf v_out) [2; 0] = Ret v_read /\
      Tensor.eqv k_read Spec.sample_k /\ Tensor.eqv v_read Spec.sample_v.
Proof.
  destruct (update_round_trip Spec.sample_cache [2; 0] Spec.sample_k Spec.sample_v
              1 1 4 2)
    as (k_out & v_out & Hrun & _ & _ & _ & _ & Hread & _).
  - reflexivity.
  - reflexivity.
  - apply List.NoDup_cons; [simpl; lia|].
    apply List.NoDup_cons; [simpl; tauto|]. apply List.NoDup_nil.
  - repeat constructor; lia.
  - reflexivity.
  - reflexivity.
  - exists k_out, v_out. split; [exact Hrun | exact Hread].
Defined.

(** C1, as stated, fails: the sequence length of the keys and values
    alone does not make the round trip.  Keys and values for one
    sequence are written into a cache for two by broadcasting, and what
    is read back at the positions has the batch size of the cache, two,
    not that of the keys. *)
Lemma update_broadcasts_batch :
  ~ (List.NoDup [2; 0] ->
     Tensor.shape Spec.sample_k !! 2%nat = Some (length [2; 0]) ->
     exists k_out v_out k_read v_read,
       update [2; 0] Spec.sample_k Spec.sample_v Edge.cache_for_two =
         (Ret (k_out, v_out), mkKVCache k_out v_out) /\
       read_at (buf k_out) [2; 0] = Ret k_read /\
       read_at (buf v_out) [2; 0] = Ret v_read /\
       Tensor.eqv k_read Spec.sample_k /\ Tensor.eqv v_read Spec.sample_v).
Proof.
  intros Hclaim.
  destruct Hclaim as (k_out & v_out & k_read & v_read & Hrun & Hk & _ & [Hshape _] & _).
  { apply List.NoDup_cons; [simpl; lia|].
    apply List.NoDup_cons; [simpl; tauto|]. apply List.NoDup_nil. }
  { reflexivity. }
  assert (E : Tensor.shape (buf k_out) = [2; 1; 4; 2]%nat).
  { change (Tensor.shape (buf k_out))
      with (match fst (Ret (k_out, v_out), mkKVCache k_out v_out) with
            | Ret (k, _) => Tensor.shape (buf k)
            | Raise _ => []
            end).
    rewrite <- Hrun. vm_compute. reflexivity. }
  unfold read_at in Hk. rewrite E in Hk. simpl in Hk.
  injection Hk as <-. simpl in Hshape. discriminate Hshape.
Qed.

(** Keys and values for two sequences do not go into a cache for three:
    the write is refused, and the cache is as before. *)
Example update_refuses_batch :
  update [2; 0] Edge.pair_k Edge.pair_v Edge.cache_for_three =
    (Raise RuntimeError, Edge.cache_for_three).
Proof. reflexivity. Qed.

(** The written cache, read position by position: 2 and 0 hold the
    keys, 1 and 3 still hold zero. *)
Example update_sample_contents :
  match update [2; 0] Spec.sample_k Spec.sample_v Spec.sample_cache with
  | (Ret (k_out, _), _) =>
      List.map (fun s => Tensor.data (buf k_out) [0; 0; s; 0]%nat) (seq 0 4) =
      [3%Q; 0%Q; 1%Q; 0%Q]
  | _ => False
  end.
Proof. vm_compute. reflexivity. Qed.
End KVFacts.

(** ** Cache set-up *)

Section DecoderFacts.
Import KV Decoder Spec.

Example sample_args_post_init : Args.post_init sample_params = Ret sample_args.
Proof. reflexivity. Qed.

Example sample_decoder_init : Transformer_init taylor_ops sample_args = Ret sample_decoder.
Proof. reflexivity. Qed.

Lemma find_multiple_ge (n k : Z) : 0 < k -> n <= Args.find_multiple n k.
Proof.
  intros Hk. unfold Args.find_multiple.
  destruct (Z.eqb_spec (n mod k) 0); [lia|].
  pose proof (Z.mod_pos_bound n k Hk). lia.
Qed.

Lemma find_multiple_divides (n k : Z) : 0 < k -> (Args.find_multiple n k) mod k = 0.
Proof.
  intros Hk. unfold Args.find_multiple.
  destruct (Z.eqb_spec (n mod k) 0) as [E|E]; [done|].
  rewrite (Z.div_mod n k) at 1 by lia.
  replace (k * (n / k) + n mod k + k - n mod k) with ((n / k + 1) * k) by lia.
  apply Z.mod_mul. lia.
Qed.

Lemma guard_covered (m : Transformer) (b s : Z) :
  (max_seq_length m >=? s) && (max_batch_size m >=? b) = true <-> covered m b s.
Proof.
  unfold covered. rewrite andb_true_iff, !Z.geb_le. done.
Qed.

Lemma setup_caches_covered (w : with_heap Transformer) (b s : Z) :
  covered (snd w) b s -> setup_caches b s w = (Ret tt, w).
Proof.
  intros Hc. apply guard_covered in Hc.
  unfold setup_caches, st_bind, get_self. simpl. by rewrite Hc.
Qed.

Lemma zeros_Ret (shp : list Z) (x : Tensor Q) :
  zeros shp = Ret x -> x = Tensor.full 0%Q (List.map Z.to_nat shp).
Proof.
  unfold zeros. destruct (forallb _ shp); [|done]. by intros [= <-].
Qed.

Lemma KVCache_init_Ret (b s n d : Z) (next next' : nat) (c : KVCache) :
  KVCache_init b s n d next = (Ret c, next') ->
  next' = S (S next) /\
  c = mkKVCache
        (mkBuffer next (Tensor.full 0%Q (List.map Z.to_nat [b; n; s; d])))
        (mkBuffer (S next) (Tensor.full 0%Q (List.map Z.to_nat [b; n; s; d]))).
Proof.
  unfold KVCache_init, st_bind, st_lift, alloc, st_ret.
  destruct (zeros [b; n; s; d]) as [x|e] eqn:Ez; [|done].
  apply zeros_Ret in Ez as ->. by intros [= <- <-].
Qed.

Lemma setup_cache_Ret (b s : Z) (next next' : nat) (a a' : Attention) :
  setup_cache b s (next, a) = (Ret tt, (next', a')) ->
  exists c, a' = set_kv_cache (Some c) a /\
            cache_batch c = Some (Z.to_nat b) /\
            cache_seq c = Some (Z.to_nat s) /\
            buf_id (k_cache c) = next /\ buf_id (v_cache c) = S next /\
            next' = S (S next).
Proof.
  unfold setup_cache, st_bind, get_self, st_lift, on_heap, modify. simpl.
  destruct (match tp_degree a with
            | Some tp => Args.floordiv (n_local_heads a) tp
            | None => Ret (n_local_heads a)
            end) as [nl|e]; [|done].
  destruct (KVCache_init b s nl (head_dim a) next) as [[c|e] n1] eqn:Ec; [|done].
  apply KVCache_init_Ret in Ec as [-> ->].
  intros [= <- <-]. eexists. split; [reflexivity|]. done.
Qed.

Lemma setup_layers_Ret (b s : Z) (ls ls' : list (Z * TransformerBlock))
    (next next' : nat) :
  setup_layers b s ls next = (Ret tt, (next', ls')) ->
  List.map fst ls' = List.map fst ls /\
  (next <= next')%nat /\
  Forall (layer_cache_is (Z.to_nat b) (Z.to_nat s) next) ls'.
Proof.
  revert ls' next next'. induction ls as [|[i blk] ls IH]; simpl; intros ls' next next'.
  - intros [= <- <-]. done.
  - destruct (setup_cache b s (next, attention blk)) as [[[]|e] [n1 a1]] eqn:Ea; [|done].
    apply setup_cache_Ret in Ea as (c & -> & Hb & Hs & Hk & Hv & ->).
    destruct (setup_layers b s ls (S (S next))) as [r [n2 rest]] eqn:Er.
    intros [= -> <- <-].
    destruct (IH _ _ _ Er) as (Hkeys & Hle & Hall).
    split; [simpl; by f_equal|]. split; [lia|].
    constructor.
    + exists c. simpl. repeat split; try done; lia.
    + eapply Forall_impl; [exact Hall|].
      intros l (c' & ? & ? & ? & ? & ?). exists c'. repeat split; try done; lia.
Qed.

(** A call that is not covered and returns: the new capacity is the
    request (the length rounded up), every layer has a new cache of
    that capacity, and table and mask are new buffers. *)
Lemma setup_caches_uncovered (w w' : with_heap Transformer) (b s : Z) :
  ~ covered (snd w) b s ->
  setup_caches b s w = (Ret tt, w') ->
  max_batch_size (snd w') = b /\
  max_seq_length (snd w') = Args.find_multiple s 8 /\
  List.map fst (layers (snd w')) = List.map fst (layers (snd w)) /\
  Forall (layer_cache_is (Z.to_nat b) (Z.to_nat (Args.find_multiple s 8)) (fst w))
         (layers (snd w')) /\
  (exists table mask,
      freqs_cis (snd w') = Some table /\ causal_mask (snd w') = Some mask /\
      (fst w <= buf_id table)%nat /\ (fst w <= buf_id mask)%nat /\
      Tensor.shape (buf mask) = [Z.to_nat (Args.find_multiple s 8);
                                 Z.to_nat (Args.find_multiple s 8)]) /\
  (fst w < fst w')%nat.
Proof.
  intros Hnc. destruct w as [next m]. simpl in *.
  unfold setup_caches. unfold st_bind at 1. unfold get_self at 1. simpl.
  destruct ((max_seq_length m >=? s) && (max_batch_size m >=? b)) eqn:Eg.
  { apply guard_covered in Eg. done. }
  unfold st_bind, modify, on_layers, st_lift, on_heap, alloc. simpl.
  destruct (setup_layers b (Args.find_multiple s 8) (layers m) next)
    as [[[]|e] [n1 ls]] eqn:El; [|done].
  apply setup_layers_Ret in El as (Hkeys & Hle & Hall).
  destruct (Args.floordiv _ _) as [n_elem|e]; [|done].
  destruct (precompute_freqs_cis m _ _ _ _) as [table|e]; [|done].
  unfold tril_ones.
  destruct (Args.find_multiple s 8 <? 0); [done|].
  intros [= <-]. simpl.
  repeat split; try done.
  - eexists _, _. repeat split; simpl; lia.
  - lia.
Qed.

(** After a call that returns, the stored capacity covers the
    request. *)
Lemma setup_caches_covers (w w' : with_heap Transformer) (b s : Z) :
  setup_caches b s w = (Ret tt, w') -> covered (snd w') b s.
Proof.
  intros Hrun.
  destruct (decide (covered (snd w) b s)) as [Hc|Hnc].
  - rewrite (setup_caches_covered _ _ _ Hc) in Hrun. by injection Hrun as <-.
  - destruct (setup_caches_uncovered _ _ _ _ Hnc Hrun) as (Hb & Hs & _).
    unfold covered. rewrite Hb, Hs.
    pose proof (find_multiple_ge s 8). lia.
Qed.

(** C2.  Once [setup_caches b1 s1] has returned, a further call with
    [b2 <= b1] and [s2 <= s1] returns at once and leaves the whole
    decoder as it is: nothing is allocated, every layer's key and value
    buffer, the rotary table and the causal mask are the same objects
    with the same contents, and the capacity fields are unchanged. *)
Theorem setup_caches_idempotent (w w1 : with_heap Transformer)
    (b1 s1 b2 s2 : Z) :
  setup_caches b1 s1 w = (Ret tt, w1) ->
  b2 <= b1 -> s2 <= s1 ->
  setup_caches b2 s2 w1 = (Ret tt, w1).
Proof.
  intros Hrun Hb Hs.
  apply setup_caches_covers in Hrun as [Hs1 Hb1].
  apply setup_caches_covered. unfold covered. lia.
Qed.

Lemma setup_caches_idempotent_witness :
  setup_caches 1 16 (0%nat, sample_decoder) =
    (Ret tt, snd (setup_caches 1 16 (0%nat, sample_decoder))) /\
  setup_caches 1 5 (snd (setup_caches 1 16 (0%nat, sample_decoder))) =
    (Ret tt, snd (setup_caches 1 16 (0%nat, sample_decoder))).
Proof.
  assert (H : setup_caches 1 16 (0%nat, sample_decoder) =
              (Ret tt, snd (setup_caches 1 16 (0%nat, sample_decoder))))
    by (apply run_returns; vm_compute; reflexivity).
  split; [exact H|].
  apply (setup_caches_idempotent (0%nat, sample_decoder) _ 1 16 1 5 H); lia.
Defined.

(** C3, as amended.  A call of [setup_caches b s] that returns leaves a
    capacity that covers the request.  If the stored capacity already
    covered it, nothing changes.  Otherwise every layer (the layers
    are those of before, in their order) gets a newly
    allocated cache whose batch capacity is exactly [b] and whose
    sequence capacity is exactly [s] rounded up to a multiple of 8,
    whatever the capacity was before: the dimension that was large
    enough is not kept. *)
Theorem setup_caches_capacity (w w' : with_heap Transformer) (b s : Z) :
  setup_caches b s w = (Ret tt, w') ->
  covered (snd w') b s /\
  (covered (snd w) b s -> w' = w) /\
  (~ covered (snd w) b s ->
     max_batch_size (snd w') = b /\
     max_seq_length (snd w') = Args.find_multiple s 8 /\
     Forall (layer_cache_is (Z.to_nat b) (Z.to_nat (Args.find_multiple s 8)) (fst w))
            (layers (snd w')) /\
     List.map fst (layers (snd w')) = List.map fst (layers (snd w))).
Proof.
  intros Hrun. split; [by eapply setup_caches_covers|]. split.
  - intros Hc. rewrite (setup_caches_covered _ _ _ Hc) in Hrun. by injection Hrun as <-.
  - intros Hnc.
    destruct (setup_caches_uncovered _ _ _ _ Hnc Hrun) as (Hb & Hs & Hids & Hall & _).
    done.
Qed.

Lemma setup_caches_capacity_witness :
  setup_caches 1 16 (snd (setup_caches 2 8 (0%nat, sample_decoder))) =
    (Ret tt, snd (setup_caches 1 16 (snd (setup_caches 2 8 (0%nat, sample_decoder))))) /\
  covered (snd (snd (setup_caches 1 16 (snd (setup_caches 2 8 (0%nat, sample_decoder))))))
          1 16.
Proof.
  assert (H : setup_caches 1 16 (snd (setup_caches 2 8 (0%nat, sample_decoder))) =
              (Ret tt, snd (setup_caches 1 16
                              (snd (setup_caches 2 8 (0%nat, sample_decoder))))))
    by (apply run_returns; vm_compute; reflexivity).
  split; [exact H|].
  exact (proj1 (setup_caches_capacity _ _ 1 16 H)).
Defined.

(** C3, as stated, fails: after [setup_caches 2 8] and then
    [setup_caches 1 16] (a smaller batch, a longer sequence) both
    layers have batch capacity 1, not at least 2. *)
Lemma setup_caches_batch_shrinks :
  ~ (forall w2, run_setups [(2, 8); (1, 16)] (0%nat, sample_decoder) = (Ret tt, w2) ->
       Forall (fun cap => exists n, cap = Some n /\ (2 <= n)%nat) (layer_batches (snd w2))).
Proof.
  intros Hclaim.
  specialize (Hclaim (snd (run_setups [(2, 8); (1, 16)] (0%nat, sample_decoder)))).
  assert (Hrun : run_setups [(2, 8); (1, 16)] (0%nat, sample_decoder) =
                 (Ret tt, snd (run_setups [(2, 8); (1, 16)] (0%nat, sample_decoder))))
    by (apply run_returns; vm_compute; reflexivity).
  specialize (Hclaim Hrun).
  assert (Hcaps : layer_batches (snd (snd (run_setups [(2, 8); (1, 16)]
                                             (0%nat, sample_decoder)))) =
                  [Some 1%nat; Some 1%nat]) by (vm_compute; reflexivity).
  rewrite Hcaps in Hclaim.
  apply Forall_cons_1 in Hclaim as [(n & [= <-] & Hn) _]. lia.
Qed.

(** The same run, step by step: the first call gives batch capacity 2
    and sequence capacity 8, the second one 1 and 16. *)
Example setup_caches_two_calls :
  layer_batches (snd (snd (run_setups [(2, 8)] (0%nat, sample_decoder)))) =
    [Some 2%nat; Some 2%nat] /\
  layer_seqs (snd (snd (run_setups [(2, 8)] (0%nat, sample_decoder)))) =
    [Some 8%nat; Some 8%nat] /\
  layer_batches (snd (snd (run_setups [(2, 8); (1, 16)] (0%nat, sample_decoder)))) =
    [Some 1%nat; Some 1%nat] /\
  layer_seqs (snd (snd (run_setups [(2, 8); (1, 16)] (0%nat, sample_decoder)))) =
    [Some 16%nat; Some 16%nat].
Proof. by vm_compute. Qed.
End DecoderFacts.

(** ** Rope scaling *)

Section RopeFacts.
Import Rope Spec.
Local Open Scope Q_scope.

Lemma Qltb_lt (a b : Q) : Qltb a b = true <-> a < b.
Proof.
  unfold Qltb. rewrite negb_true_iff, <- not_true_iff_false, Qle_bool_iff.
  split; [apply Qnot_le_lt | apply Qlt_not_le].
Qed.

Lemma Qltb_ge (a b : Q) : Qltb a b = false <-> b <= a.
Proof.
  unfold Qltb. rewrite negb_false_iff, Qle_bool_iff. done.
Qed.

Lemma py_div_nonzero (a b : Q) : ~ b == 0 -> py_div a b = Ret (a / b).
Proof.
  intros Hb. unfold py_div.
  destruct (Qeq_bool b 0) eqn:E; [|done].
  by apply Qeq_bool_iff in E.
Qed.

Lemma has_required_keys_missing (rs : gmap string Q) (key : string) :
  In key required_keys -> rs !! key = None -> has_required_keys rs = false.
Proof.
  unfold has_required_keys, required_keys. simpl.
  intros [<-|[<-|[<-|[<-|[]]]]] Hnone; rewrite Hnone;
    rewrite (bool_decide_eq_false_2 (is_Some None)) by (by intros [? ?]);
    by rewrite ?andb_false_r.
Qed.

Lemma has_required_keys_present (rs : gmap string Q) :
  (forall key, In key required_keys -> is_Some (rs !! key)) ->
  has_required_keys rs = true.
Proof.
  intros Hall. unfold has_required_keys.
  apply forallb_forall. intros key Hin.
  apply bool_decide_eq_true_2. by apply Hall.
Qed.

(** The loop, under a configuration with its thresholds in order. *)
Lemma scaling_loop_bands (factor low high old : Q) (freqs acc : list Q) :
  old / high < old / low ->
  exists out,
    scaling_loop factor low high old (old / low) (old / high) freqs acc =
      Ret (acc ++ out)%list /\
    Forall2 (rescaled factor low high old) freqs out.
Proof.
  intros Hord. revert acc.
  induction freqs as [|f freqs IH]; intros acc; simpl.
  - exists []. split; [by rewrite app_nil_r | constructor].
  - fold (wavelen f).
    destruct (Qltb (wavelen f) (old / high)) eqn:E1.
    { destruct (IH (acc ++ [f])%list) as (out & -> & Hout).
      exists (f :: out). split; [by rewrite <- List.app_assoc|].
      constructor; [|done]. apply Qltb_lt in E1.
      repeat split; intros; try done; exfalso; lra. }
    destruct (Qltb (old / low) (wavelen f)) eqn:E2.
    { destruct (IH (acc ++ [f / factor])%list) as (out & -> & Hout).
      exists (f / factor :: out). split; [by rewrite <- List.app_assoc|].
      constructor; [|done]. apply Qltb_ge in E1. apply Qltb_lt in E2.
      repeat split; intros; try done; exfalso; lra. }
    destruct (Qeq_bool (old / low) (old / high)) eqn:E3.
    { apply Qeq_bool_iff in E3. exfalso. lra. }
    destruct (IH (acc ++ [interpolated factor low high old f])%list)
      as (out & Hrun & Hout).
    exists (interpolated factor low high old f :: out).
    split; [unfold interpolated, smooth in Hrun |- *; rewrite Hrun;
            by rewrite <- List.app_assoc|].
    constructor; [|done]. apply Qltb_ge in E1, E2.
    repeat split; intros; try done; exfalso; lra.
Qed.

Lemma apply_scaling_unfold (freqs : list Q) (rs : gmap string Q)
    (factor low high old : Q) :
  rs !! "factor"%string = Some factor ->
  rs !! "low_freq_factor"%string = Some low ->
  rs !! "high_freq_factor"%string = Some high ->
  rs !! "original_max_position_embeddings"%string = Some old ->
  ~ low == 0 -> ~ high == 0 ->
  apply_scaling freqs rs =
  scaling_loop factor low high old (old / low) (old / high) freqs [].
Proof.
  intros Hf Hl Hh Ho Hlow Hhigh. unfold apply_scaling.
  rewrite has_required_keys_present.
  2:{ intros key [<-|[<-|[<-|[<-|[]]]]]; by eexists. }
  unfold getitem. rewrite Hf, Hl, Hh, Ho. simpl.
  by rewrite !py_div_nonzero.
Qed.

(** C4.  With one of the four required keys missing, [apply_scaling]
    raises [ValueError] (the specification's configuration error).
    With all four present, non-zero low and high factors whose two
    thresholds are in order ([old / high < old / low]), and non-zero
    frequencies and scale factor, it returns one value per frequency:
    the frequency itself when its wavelength is
    below [old / high], the frequency divided by [factor] when its
    wavelength is above [old / low], and the interpolation
    [(1 - smooth) * f / factor + smooth * f] in between. *)
Theorem apply_scaling_bands (freqs : list Q) (rs : gmap string Q) :
  (forall key, In key required_keys -> rs !! key = None ->
     apply_scaling freqs rs = Raise ValueError) /\
  (forall factor low high old,
     rs !! "factor"%string = Some factor ->
     rs !! "low_freq_factor"%string = Some low ->
     rs !! "high_freq_factor"%string = Some high ->
     rs !! "original_max_position_embeddings"%string = Some old ->
     ~ factor == 0 -> ~ low == 0 -> ~ high == 0 ->
     old / high < old / low ->
     Forall (fun f => ~ f == 0) freqs ->
     exists out,
       apply_scaling freqs rs = Ret out /\
       Forall2 (rescaled factor low high old) freqs out).
Proof.
  split.
  - intros key Hin Hnone. unfold apply_scaling.
    by rewrite (has_required_keys_missing _ _ Hin Hnone).
  - intros factor low high old Hf Hl Hh Ho _ Hlow Hhigh Hord _.
    rewrite (apply_scaling_unfold _ _ _ _ _ _ Hf Hl Hh Ho Hlow Hhigh).
    destruct (scaling_loop_bands factor low high old freqs [] Hord)
      as (out & Hrun & Hout).
    by exists out.
Qed.

(** C4, as stated, fails: with the four keys present and the two
    factors exchanged, a frequency of wavelength 4096 is above the
    threshold [old / low = 2048], where the claim has it divided by the
    factor, and below [old / high = 8192]; the code returns it
    unchanged. *)
Lemma apply_scaling_inverted_thresholds :
  ~ (forall out,
       apply_scaling [Edge.between_freq] Edge.inverted_scaling = Ret out ->
       Forall2 (rescaled 8 4 1 8192) [Edge.between_freq] out).
Proof.
  intros Hclaim.
  assert (Hrun : apply_scaling [Edge.between_freq] Edge.inverted_scaling =
                 Ret [Edge.between_freq]) by (vm_compute; reflexivity).
  specialize (Hclaim _ Hrun).
  apply Forall2_cons_1 in Hclaim as [(_ & Hlong & _) _].
  assert (Habove : 8192 / 4 < wavelen Edge.between_freq) by (vm_compute; reflexivity).
  specialize (Hlong Habove). vm_compute in Hlong. discriminate Hlong.
Qed.

(** The Llama 3.1 parameters on three frequencies, one per band. *)
Example apply_scaling_llama31 :
  apply_scaling [1; 1 # 1000; 1 # 10000] llama31_scaling =
    Ret [1; interpolated 8 1 4 8192 (1 # 1000); (1 # 10000) / 8] /\
  apply_scaling [1] (delete "factor"%string llama31_scaling) = Raise ValueError.
Proof. split; vm_compute; reflexivity. Qed.

Lemma thresholds_in_order (low high old : Q) :
  old / high < old / low -> ~ old == 0 /\ ~ high - low == 0.
Proof.
  intros Hord. split; intros E.
  - assert (E1 : old / high == 0) by (rewrite E; unfold Qdiv; ring).
    assert (E2 : old / low == 0) by (rewrite E; unfold Qdiv; ring).
    rewrite E1, E2 in Hord. lra.
  - assert (E1 : high == low) by lra.
    rewrite E1 in Hord. lra.
Qed.

(** C5.  For non-zero factors whose two thresholds are in order
    ([old / high < old / low]), the middle band meets its neighbours at
    both thresholds: a
    frequency whose wavelength is exactly [old / low] is mapped to the
    interpolated value, and that value is [f / factor]; one whose
    wavelength is exactly [old / high] is mapped to the interpolated
    value, and that value is [f].  (Over the rationals; rounding is
    outside the embedding.) *)
Theorem rope_scaling_continuous (rs : gmap string Q) (factor low high old f : Q) :
  rs !! "factor"%string = Some factor ->
  rs !! "low_freq_factor"%string = Some low ->
  rs !! "high_freq_factor"%string = Some high ->
  rs !! "original_max_position_embeddings"%string = Some old ->
  ~ factor == 0 -> ~ low == 0 -> ~ high == 0 ->
  old / high < old / low ->
  (wavelen f == old / low ->
     apply_scaling [f] rs = Ret [interpolated factor low high old f] /\
     interpolated factor low high old f == f / factor) /\
  (wavelen f == old / high ->
     apply_scaling [f] rs = Ret [interpolated factor low high old f] /\
     interpolated factor low high old f == f).
Proof.
  intros Hf Hl Hh Ho Hfactor Hlow Hhigh Hord.
  destruct (thresholds_in_order _ _ _ Hord) as [Hold Hdiff].
  rewrite (apply_scaling_unfold _ _ _ _ _ _ Hf Hl Hh Ho Hlow Hhigh).
  destruct (scaling_loop_bands factor low high old [f] [] Hord)
    as (out & Hrun & Hout).
  rewrite Hrun.
  apply Forall2_cons_inv_l in Hout as (r & out' & (_ & _ & Hmid) & Hnil & ->).
  apply Forall2_nil_inv_l in Hnil as ->. simpl.
  split; intros Hw.
  - split.
    + rewrite Hmid; [done|]. rewrite Hw. split; lra.
    + assert (Hs : smooth low high old f == 0).
      { unfold smooth. rewrite Hw. field. done. }
      unfold interpolated. rewrite Hs. field. done.
  - split.
    + rewrite Hmid; [done|]. rewrite Hw. split; lra.
    + assert (Hs : smooth low high old f == 1).
      { unfold smooth. rewrite Hw. field. done. }
      unfold interpolated. rewrite Hs. field. done.
Qed.

(** C5, as stated, fails: with the two factors exchanged the frequency of
    wavelength 8192, which is [high_freq_wavelen = old / high], is not
    mapped to itself but divided by the factor, while every shorter
    wavelength down to 2048 is passed through: the rescaling jumps
    there. *)
Lemma rope_scaling_jumps_when_inverted :
  ~ (wavelen low_boundary_freq == 8192 / 1 ->
     exists r, apply_scaling [low_boundary_freq] Edge.inverted_scaling = Ret [r] /\
               r == low_boundary_freq).
Proof.
  intros Hclaim.
  destruct Hclaim as (r & Hrun & Hr); [vm_compute; reflexivity|].
  assert (E : apply_scaling [low_boundary_freq] Edge.inverted_scaling =
              Ret [low_boundary_freq / 8]) by (vm_compute; reflexivity).
  rewrite E in Hrun. injection Hrun as <-.
  vm_compute in Hr. discriminate Hr.
Qed.

Lemma rope_scaling_continuous_witness :
  (apply_scaling [low_boundary_freq] llama31_scaling =
     Ret [interpolated 8 1 4 8192 low_boundary_freq] /\
   interpolated 8 1 4 8192 low_boundary_freq == low_boundary_freq / 8) /\
  (apply_scaling [high_boundary_freq] llama31_scaling =
     Ret [interpolated 8 1 4 8192 high_boundary_freq] /\
   interpolated 8 1 4 8192 high_boundary_freq == high_boundary_freq).
Proof.
  split.
  - apply (rope_scaling_continuous llama31_scaling 8 1 4 8192 low_boundary_freq);
      try reflexivity; try (intros H; vm_compute in H; discriminate H).
  - apply (rope_scaling_continuous llama31_scaling 8 1 4 8192 high_boundary_freq);
      try reflexivity; try (intros H; vm_compute in H; discriminate H).
Defined.
End RopeFacts.

(** ** Concatenation fusion *)

Section FusionFacts.
Import Fusion Spec.

Lemma indices_in_bounds (shp idx : list nat) :
  In idx (indices shp) -> Tensor.in_bounds idx shp = true.
Proof.
  revert idx. induction shp as [|n shp IH]; simpl; intros idx Hin.
  - destruct Hin as [<-|[]]. done.
  - apply in_flat_map in Hin as (i & Hi & Hin).
    apply List.in_map_iff in Hin as (rest & <- & Hrest).
    apply in_seq in Hi. simpl.
    rewrite (IH _ Hrest), andb_true_r. apply Nat.ltb_lt. lia.
Qed.

Lemma in_bounds_rank2 (idx : list nat) (n0 n1 : nat) :
  Tensor.in_bounds idx [n0; n1] = true ->
  exists b i, idx = [b; i] /\ (b < n0)%nat /\ (i < n1)%nat.
Proof.
  destruct idx as [|b [|i [|x rest]]]; cbn [Tensor.in_bounds];
    rewrite ?andb_false_r, ?andb_true_r; try discriminate.
  intros H. apply andb_prop in H as [Hb Hi].
  apply Nat.ltb_lt in Hb, Hi. by exists b, i.
Qed.

Lemma Embedding_forward_Ret (e : Embedding) (tokens : Tensor Z) :
  tokens_in_vocab e tokens ->
  Embedding_forward e tokens =
  Ret (Tensor.mk (Tensor.shape tokens ++ [embedding_dim e])
         (fun idx => table e (Z.to_nat (Tensor.data tokens (removelast idx)))
                             (List.last idx 0%nat))).
Proof.
  intros Hvocab. unfold Embedding_forward.
  rewrite (proj2 (forallb_forall _ _)); [done|].
  intros idx Hin. apply indices_in_bounds, Hvocab in Hin.
  apply andb_true_iff. split; [apply Z.leb_le | apply Z.ltb_lt]; lia.
Qed.

Lemma Linear_forward_shape3 (l : Linear) (x : Tensor Q) (nb n : nat) :
  Tensor.shape x = [nb; n; in_features l] ->
  exists y, Linear_forward l x = Ret y /\
            Tensor.shape y = [nb; n; out_features l].
Proof.
  intros Hx. unfold Linear_forward. rewrite Hx. simpl.
  rewrite Nat.eqb_refl. simpl. eexists. split; reflexivity.
Qed.

Lemma projector_shape3 (p : MultiModalProjector) (x : Tensor Q) (nb n : nat) :
  Tensor.shape x = [nb; n; in_features (linear_1 p)] ->
  in_features (linear_2 p) = out_features (linear_1 p) ->
  exists y, MultiModalProjector_forward p x = Ret y /\
            Tensor.shape y = [nb; n; out_features (linear_2 p)].
Proof.
  intros Hx Hmid. unfold MultiModalProjector_forward.
  destruct (Linear_forward_shape3 _ _ _ _ Hx) as (h & -> & Hh). simpl.
  apply Linear_forward_shape3. simpl. by rewrite Hh, Hmid.
Qed.

Lemma projector_entries (p : MultiModalProjector) (x : Tensor Q) (nb n : nat) :
  Tensor.shape x = [nb; n; in_features (linear_1 p)] ->
  in_features (linear_2 p) = out_features (linear_1 p) ->
  exists y, MultiModalProjector_forward p x = Ret y /\
            Tensor.shape y = [nb; n; out_features (linear_2 p)] /\
            forall b s d,
              Tensor.data y [b; s; d] =
              Projection.mlp p (fun i => Tensor.data x [b; s; i]) d.
Proof.
  intros Hx Hmid. unfold MultiModalProjector_forward, Linear_forward.
  rewrite Hx. cbn [last Tensor.shape removelast app]. rewrite Nat.eqb_refl.
  cbn [negb res_bind Tensor.map Tensor.shape last removelast app].
  rewrite Hmid, Nat.eqb_refl. cbn [negb].
  eexists. split; [reflexivity|]. split; [reflexivity|].
  intros b s d. unfold Projection.mlp. by rewrite Hmid.
Qed.

Lemma cat1_pair_shape3 {A} (a b : Tensor A) (nb n m d : nat) :
  Tensor.shape a = [nb; n; d] -> Tensor.shape b = [nb; m; d] ->
  exists c, Tensor.cat1_pair a b = Ret c /\
            Tensor.shape c = [nb; (n + m)%nat; d] /\
            forall i s j, Tensor.data c [i; s; j] =
                          if (s <? n)%nat then Tensor.data a [i; s; j]
                          else Tensor.data b [i; (s - n)%nat; j].
Proof.
  intros Ha Hb. unfold Tensor.cat1_pair. rewrite Ha, Hb.
  rewrite bool_decide_eq_true_2 by done.
  eexists. split; [reflexivity|]. split; [reflexivity|]. done.
Qed.

(** C7.  With encoder features and post tokens both supplied, the
    decoder input is the embeddings of the pre tokens, then the
    projected encoder features, then the embeddings of the post
    tokens, joined along the sequence axis: its sequence length is the
    sum of the three lengths, and each position holds the entry of the
    segment it falls in.  The first and the last segment hold the rows
    of the embedding table at the tokens; the middle segment holds, for
    every encoder position, the two-layer perceptron of its feature
    vector: second affine map of the activation of the first. *)
Theorem llava_decoder_input (D : Type) (self : ConcateFusion D)
    (tokens post_tokens : Tensor Z) (encoder_output : Tensor Q)
    (nb n_pre n_img n_post : nat) :
  Tensor.shape tokens = [nb; n_pre] ->
  Tensor.shape post_tokens = [nb; n_post] ->
  Tensor.shape encoder_output =
    [nb; n_img; in_features (linear_1 (mm_projector D self))] ->
  in_features (linear_2 (mm_projector D self)) =
    out_features (linear_1 (mm_projector D self)) ->
  out_features (linear_2 (mm_projector D self)) =
    embedding_dim (tok_embeddings D self) ->
  tokens_in_vocab (tok_embeddings D self) tokens ->
  tokens_in_vocab (tok_embeddings D self) post_tokens ->
  exists pre_img_embed image_embeds post_img_embed decoder_input,
    Embedding_forward (tok_embeddings D self) tokens = Ret pre_img_embed /\
    MultiModalProjector_forward (mm_projector D self) encoder_output = Ret image_embeds /\
    Embedding_forward (tok_embeddings D self) post_tokens = Ret post_img_embed /\
    _get_decoder_input D self tokens (Some encoder_output) (Some post_tokens) =
      Ret decoder_input /\
    Tensor.shape decoder_input =
      [nb; (n_pre + n_img + n_post)%nat; embedding_dim (tok_embeddings D self)] /\
    (forall b s d,
       Tensor.data decoder_input [b; s; d] =
       if (s <? n_pre)%nat then Tensor.data pre_img_embed [b; s; d]
       else if (s <? n_pre + n_img)%nat
            then Tensor.data image_embeds [b; (s - n_pre)%nat; d]
            else Tensor.data post_img_embed [b; (s - n_pre - n_img)%nat; d]) /\
    (forall b s d,
       Tensor.data pre_img_embed [b; s; d] =
       table (tok_embeddings D self) (Z.to_nat (Tensor.data tokens [b; s])) d) /\
    (forall b s d,
       Tensor.data image_embeds [b; s; d] =
       Projection.mlp (mm_projector D self)
         (fun i => Tensor.data encoder_output [b; s; i]) d) /\
    (forall b s d,
       Tensor.data post_img_embed [b; s; d] =
       table (tok_embeddings D self) (Z.to_nat (Tensor.data post_tokens [b; s])) d) /\
    (forall b s d,
       Tensor.data decoder_input [b; s; d] =
       if (s <? n_pre)%nat
       then table (tok_embeddings D self) (Z.to_nat (Tensor.data tokens [b; s])) d
       else if (s <? n_pre + n_img)%nat
            then Projection.mlp (mm_projector D self)
                   (fun i => Tensor.data encoder_output [b; (s - n_pre)%nat; i]) d
            else table (tok_embeddings D self)
                   (Z.to_nat (Tensor.data post_tokens [b; (s - n_pre - n_img)%nat])) d).
Proof.
  intros Htok Hpost Henc Hmid Hwidth Hvt Hvp.
  pose proof (Embedding_forward_Ret _ _ Hvt) as Epre.
  pose proof (Embedding_forward_Ret _ _ Hvp) as Epost.
  destruct (projector_entries _ _ _ _ Henc Hmid) as (img & Eimg & Simg & Dimg).
  rewrite Hwidth in Simg.
  set (pre := Tensor.mk _ _) in Epre. set (post := Tensor.mk _ _) in Epost.
  assert (Spre : Tensor.shape pre = [nb; n_pre; embedding_dim (tok_embeddings D self)])
    by (subst pre; simpl; by rewrite Htok).
  assert (Spost : Tensor.shape post = [nb; n_post; embedding_dim (tok_embeddings D self)])
    by (subst post; simpl; by rewrite Hpost).
  assert (Dpre : forall b s d,
             Tensor.data pre [b; s; d] =
             table (tok_embeddings D self) (Z.to_nat (Tensor.data tokens [b; s])) d)
    by (intros; reflexivity).
  assert (Dpost : forall b s d,
             Tensor.data post [b; s; d] =
             table (tok_embeddings D self) (Z.to_nat (Tensor.data post_tokens [b; s])) d)
    by (intros; reflexivity).
  clearbody pre post.
  destruct (cat1_pair_shape3 _ _ _ _ _ _ Simg Spost) as (tail & Etail & Stail & Dtail).
  destruct (cat1_pair_shape3 _ _ _ _ _ _ Spre Stail) as (out & Eout & Sout & Dout).
  assert (Dsegments : forall b s d,
            Tensor.data out [b; s; d] =
            if (s <? n_pre)%nat then Tensor.data pre [b; s; d]
            else if (s <? n_pre + n_img)%nat
                 then Tensor.data img [b; (s - n_pre)%nat; d]
                 else Tensor.data post [b; (s - n_pre - n_img)%nat; d]).
  { intros b s d. rewrite Dout, Dtail.
    destruct (Nat.ltb_spec s n_pre); [done|].
    destruct (Nat.ltb_spec (s - n_pre) n_img), (Nat.ltb_spec s (n_pre + n_img));
      try lia; done. }
  exists pre, img, post, out.
  split; [done|]. split; [done|]. split; [done|]. split.
  { unfold _get_decoder_input. rewrite Epre, Eimg, Epost. simpl.
    rewrite Spost. simpl. rewrite Etail. simpl. exact Eout. }
  split.
  { rewrite Sout. by rewrite Nat.add_assoc. }
  split; [exact Dsegments|]. split; [exact Dpre|]. split; [exact Dimg|].
  split; [exact Dpost|].
  intros b s d. rewrite Dsegments, Dpre, Dimg, Dpost. reflexivity.
Qed.

Lemma llava_decoder_input_witness :
  exists decoder_input,
    _get_decoder_input unit sample_fusion sample_pre_tokens
      (Some sample_features) (Some sample_post_tokens) = Ret decoder_input /\
    Tensor.shape decoder_input = [1; 626; 4]%nat /\
    forall b s d,
      Tensor.data decoder_input [b; s; d] =
      if (s <? 30)%nat
      then table sample_embedding (Z.to_nat (Tensor.data sample_pre_tokens [b; s])) d
      else if (s <? 30 + 576)%nat
           then Projection.mlp sample_projector
                  (fun i => Tensor.data sample_features [b; (s - 30)%nat; i]) d
           else table sample_embedding
                  (Z.to_nat (Tensor.data sample_post_tokens [b; (s - 30 - 576)%nat])) d.
Proof.
  destruct (llava_decoder_input unit sample_fusion sample_pre_tokens
              sample_post_tokens sample_features 1 30 576 20)
    as (pre & img & post & out & _ & _ & _ & Hrun & Hshape & _ & _ & _ & _ & Hdata).
  - reflexivity.
  - reflexivity.
  - reflexivity.
  - reflexivity.
  - reflexivity.
  - intros idx Hb. apply in_bounds_rank2 in Hb as (b & i & -> & _ & Hi).
    simpl. lia.
  - intros idx Hb. apply in_bounds_rank2 in Hb as (b & i & -> & _ & Hi).
    simpl. lia.
  - exists out. split; [exact Hrun|]. split; [exact Hshape | exact Hdata].
Defined.

(** The sample model: the first image position (sequence position 30)
    holds the projection of the constant feature vector, not zero. *)
Example llava_decoder_input_projected :
  match _get_decoder_input unit sample_fusion sample_pre_tokens
          (Some sample_features) (Some sample_post_tokens) with
  | Ret decoder_input =>
      (Tensor.data decoder_input [0; 30; 0]%nat ==
       Projection.mlp sample_projector (fun _ => 1 # 2) 0)%Q /\
      ~ (Tensor.data decoder_input [0; 30; 0]%nat == 0)%Q
  | Raise _ => False
  end.
Proof. vm_compute. split; [reflexivity | discriminate]. Qed.

(** A prefill call of the fused model that returns hands back a Python
    tuple, the sequence length and the decoder's result, not a tensor;
    with [input_pos] supplied it hands back the decoder's result
    alone. *)
Lemma forward_return_kinds (D : Type) (self : ConcateFusion D)
    (tokens : Tensor Z) (post_tokens : option (Tensor Z))
    (encoder_input : option (Tensor Q)) (input_pos : option (Tensor Z))
    (st st' : D) (r : returned) :
  forward D self tokens post_tokens encoder_input input_pos st = (Ret r, st') ->
  match input_pos with
  | None => exists n logits, r = RTuple n logits
  | Some _ => exists logits, r = RTensor logits
  end.
Proof.
  unfold forward, st_bind, st_lift, st_ret, st_raise.
  destruct (match encoder_input with Some _ => _ | None => _ end) as [eo|e]; [|done].
  destruct (_get_decoder_input D self tokens eo post_tokens) as [di|e]; [|done].
  destruct input_pos as [pos|].
  - destruct (decoder D self di pos st) as [[logits|e] st1]; [|done].
    intros [= <- <-]. by eexists.
  - destruct (Tensor.shape di !! 1%nat) as [n|]; [|done].
    destruct (decoder D self di (Tensor.arange n) st) as [[logits|e] st1]; [|done].
    intros [= <- <-]. by eexists _, _.
Qed.

(** C8 fails on the code for the Llava variant.  The prefill call of
    the sample model on 30 pre tokens, an image and 20 post tokens,
    without [input_pos], returns the pair of the sequence length 626
    and the logits of shape [1, 626, 100], where the claim has the
    logits tensor itself. *)
Lemma llava_prefill_returns_tuple :
  exists logits,
    LlavaModel_forward unit sample_fusion sample_pre_tokens
      (Some sample_image) (Some sample_post_tokens) None tt =
      (Ret (RTuple 626 logits), tt) /\
    Tensor.shape logits = [1; 626; 100]%nat /\
    forall t, RTuple 626 logits <> RTensor t.
Proof.
  eexists. split; [vm_compute; reflexivity|]. split; [reflexivity|]. done.
Qed.
End FusionFacts.

(** ** The key/value cache: failures and successive writes *)

Section KVMore.
Import KV.

Lemma in_bounds_rank4 (idx : list nat) (n0 n1 n2 n3 : nat) :
  Tensor.in_bounds idx [n0; n1; n2; n3] = true ->
  exists b h i d, idx = [b; h; i; d] /\
                  (b < n0)%nat /\ (h < n1)%nat /\ (i < n2)%nat /\ (d < n3)%nat.
Proof.
  destruct idx as [|b [|h [|i [|d [|x rest]]]]]; cbn [Tensor.in_bounds];
    rewrite ?andb_false_r, ?andb_true_r; try discriminate.
  intros H. apply andb_prop in H as [Hb H]. apply andb_prop in H as [Hh H].
  apply andb_prop in H as [Hi Hd].
  apply Nat.ltb_lt in Hb, Hh, Hi, Hd. by exists b, h, i, d.
Qed.

Lemma norm_indices_out_of_range (n : nat) (ps : list Z) :
  Exists (fun p => p < - Z.of_nat n \/ Z.of_nat n <= p) ps ->
  norm_indices n ps = Raise IndexError.
Proof.
  induction ps as [|p ps IH]; intros Hex; [by apply Exists_nil in Hex|].
  simpl. unfold norm_index.
  destruct ((0 <=? p) && (p <? Z.of_nat n)) eqn:E1.
  { apply andb_prop in E1 as [H1 H2]. apply Z.leb_le in H1. apply Z.ltb_lt in H2.
    apply Exists_cons in Hex as [Hp|Hrest]; [lia|].
    simpl. rewrite (IH Hrest). done. }
  destruct ((- Z.of_nat n <=? p) && (p <? 0)) eqn:E2.
  { apply andb_prop in E2 as [H1 H2]. apply Z.leb_le in H1. apply Z.ltb_lt in H2.
    apply Exists_cons in Hex as [Hp|Hrest]; [lia|].
    simpl. rewrite (IH Hrest). done. }
  done.
Qed.

(** X1.  When the number of positions differs from the sequence length
    of [k_val], [update] raises [AssertionError] and writes nothing. *)
Theorem update_length_mismatch (self : KVCache) (input_pos : list Z)
    (k_val v_val : Tensor Q) (seq_len : nat) :
  Tensor.shape k_val !! 2%nat = Some seq_len ->
  length input_pos <> seq_len ->
  update input_pos k_val v_val self = (Raise AssertionError, self).
Proof.
  intros Hshape Hne. unfold update.
  replace (nth_error (Tensor.shape k_val) 2) with (Some seq_len)
    by (rewrite <- Hshape; destruct (Tensor.shape k_val) as [|? [|? [|? ?]]]; done).
  destruct (Nat.eqb_spec (length input_pos) seq_len); done.
Qed.

Lemma update_length_mismatch_witness :
  update [2] Spec.sample_k Spec.sample_v Spec.sample_cache =
    (Raise AssertionError, Spec.sample_cache).
Proof.
  apply (update_length_mismatch Spec.sample_cache [2] Spec.sample_k Spec.sample_v 2).
  - reflexivity.
  - simpl. lia.
Defined.

Lemma norm_indices_raises (n : nat) (ps : list Z) (e : exn) :
  norm_indices n ps = Raise e -> e = IndexError.
Proof.
  revert e. induction ps as [|p ps IH]; intros e; simpl; [done|].
  unfold norm_index.
  destruct ((0 <=? p) && (p <? Z.of_nat n)); simpl.
  { destruct (norm_indices n ps) as [rest|e']; simpl; [done|].
    intros [= <-]. by apply IH. }
  destruct ((- Z.of_nat n <=? p) && (p <? 0)); simpl.
  { destruct (norm_indices n ps) as [rest|e']; simpl; [done|].
    intros [= <-]. by apply IH. }
  by intros [= <-].
Qed.

Lemma valid_prefix_listed (n : nat) (ps : list Z) (s : nat) :
  In s (valid_prefix n ps) ->
  exists p, In p ps /\ (p = Z.of_nat s \/ p + Z.of_nat n = Z.of_nat s).
Proof.
  induction ps as [|p ps IH]; simpl; [done|].
  unfold norm_index.
  destruct ((0 <=? p) && (p <? Z.of_nat n)) eqn:E1.
  { apply andb_prop in E1 as [H1 H2]. apply Z.leb_le in H1.
    intros [<-|Hin].
    - exists p. split; [by left|]. left. lia.
    - destruct (IH Hin) as (q & Hq & Hs). exists q. split; [by right|done]. }
  destruct ((- Z.of_nat n <=? p) && (p <? 0)) eqn:E2; [|done].
  apply andb_prop in E2 as [H1 H2]. apply Z.leb_le in H1.
  intros [<-|Hin].
  - exists p. split; [by left|]. right. lia.
  - destruct (IH Hin) as (q & Hq & Hs). exists q. split; [by right|done].
Qed.

(** X2.  A position outside the sequence axis of the cache, below
    [-max_seq_length] or at or above [max_seq_length].  When the keys
    do not broadcast to the written region the call raises
    [RuntimeError] before any position is looked at and writes nothing.
    When they do, and the region is not empty, the call raises
    [IndexError] during the write of the keys: the value buffer is as
    before, and the key buffer can differ from what it was only at
    positions that [input_pos] lists. *)
Theorem update_position_out_of_range (self : KVCache) (input_pos : list Z)
    (k_val v_val : Tensor Q) (nb nh ns nd : nat) :
  Tensor.shape (buf (k_cache self)) = [nb; nh; ns; nd] ->
  Tensor.shape k_val !! 2%nat = Some (length input_pos) ->
  Exists (fun p => p < - Z.of_nat ns \/ Z.of_nat ns <= p) input_pos ->
  (broadcastable (Tensor.shape k_val) [nb; nh; length input_pos; nd] = false ->
   (0 < ns)%nat ->
     update input_pos k_val v_val self = (Raise RuntimeError, self)) /\
  (broadcastable (Tensor.shape k_val) [nb; nh; length input_pos; nd] = true ->
   (0 < nb)%nat -> (0 < nh)%nat -> (0 < nd)%nat ->
     exists k_left,
       update input_pos k_val v_val self =
         (Raise IndexError,
          mkKVCache (mkBuffer (buf_id (k_cache self)) k_left) (v_cache self)) /\
       Tensor.shape k_left = [nb; nh; ns; nd] /\
       forall b h s d,
         (forall p, In p input_pos ->
                    p <> Z.of_nat s /\ p + Z.of_nat ns <> Z.of_nat s) ->
         Tensor.data k_left [b; h; s; d] =
         Tensor.data (buf (k_cache self)) [b; h; s; d]).
Proof.
  intros Hk Hshape Hex.
  assert (Hlen : nth_error (Tensor.shape k_val) 2 = Some (length input_pos))
    by (rewrite <- Hshape; destruct (Tensor.shape k_val) as [|? [|? [|? ?]]]; done).
  assert (Hne : (length input_pos =? 0)%nat = false).
  { destruct input_pos; [by apply Exists_nil in Hex | done]. }
  pose proof (norm_indices_out_of_range _ _ Hex) as Hnorm.
  destruct self as [[kid kbuf] [vid vbuf]]. simpl in Hk |- *.
  split.
  - intros Hbad Hns. unfold update. rewrite Hlen, Nat.eqb_refl. cbn [negb].
    unfold st_bind, st_get, st_put, st_lift. cbn [k_cache v_cache buf buf_id].
    unfold index_put_. rewrite Hk, Hbad.
    destruct (Nat.eqb_spec ns 0) as [E|_]; [lia|]. reflexivity.
  - intros Hfit Hnb Hnh Hnd.
    unfold update. rewrite Hlen, Nat.eqb_refl. cbn [negb].
    unfold st_bind, st_get, st_put, st_lift. cbn [k_cache v_cache buf buf_id].
    unfold index_put_. rewrite Hk, Hne, Hfit, Hnorm. cbn [negb].
    destruct (Nat.eqb_spec ns 0) as [E|_]; cbn [andb fst snd].
    + exists kbuf. split; [reflexivity|]. split; [done|]. done.
    + destruct (Nat.eqb_spec (nb * nh * nd) 0) as [E|_]; [nia|].
      cbn [fst snd]. eexists. split; [reflexivity|].
      split; [by rewrite <- Hk|].
      intros b h s d Hnot. cbn [written Tensor.data].
      destruct ((b =? 0)%nat && (h =? 0)%nat); [|done].
      rewrite last_hit_absent; [done|].
      intros Hin. apply valid_prefix_listed in Hin as (p & Hp & Hs).
      destruct (Hnot p Hp) as [H1 H2]. destruct Hs; done.
Qed.

Lemma update_position_out_of_range_witness :
  exists k_left,
    update [2; 4] Spec.sample_k Spec.sample_v Spec.sample_cache =
      (Raise IndexError,
       mkKVCache (mkBuffer 0 k_left) (v_cache Spec.sample_cache)) /\
    Tensor.data k_left [0; 0; 1; 0]%nat = 0%Q.
Proof.
  destruct (proj2 (update_position_out_of_range Spec.sample_cache [2; 4]
                     Spec.sample_k Spec.sample_v 1 1 4 2
                     eq_refl eq_refl
                     ltac:(apply Exists_cons; right; apply Exists_cons; left;
                           simpl; lia))
              eq_refl ltac:(lia) ltac:(lia) ltac:(lia))
    as (k_left & Hrun & _ & Hdata).
  exists k_left. split; [exact Hrun|].
  rewrite (Hdata 0%nat 0%nat 1%nat 0%nat); [reflexivity|].
  intros p [<-|[<-|[]]]; simpl; lia.
Defined.

(** The same call, seen in the buffers: position 2 was written before
    position 4 was refused, the values were not reached. *)
Example update_out_of_range_sample :
  match update [2; 4] Spec.sample_k Spec.sample_v Spec.sample_cache with
  | (r, c) =>
      r = Raise IndexError /\
      List.map (fun s => Tensor.data (buf (k_cache c)) [0; 0; s; 0]%nat) (seq 0 4) =
        [0%Q; 0%Q; 1%Q; 0%Q] /\
      List.map (fun s => Tensor.data (buf (v_cache c)) [0; 0; s; 0]%nat) (seq 0 4) =
        [0%Q; 0%Q; 0%Q; 0%Q]
  end /\
  fst (update [2; 4] Samples.wide_v Spec.sample_v Spec.sample_cache) =
    Raise RuntimeError.
Proof. split; vm_compute; [done | reflexivity]. Qed.
End KVMore.

Section KVCompose.
Import KV.

Lemma read_at_in_range (cache : Tensor Q) (input_pos : list Z) (nb nh ns nd : nat) :
  Tensor.shape cache = [nb; nh; ns; nd] ->
  Forall (fun p => 0 <= p < Z.of_nat ns) input_pos ->
  read_at cache input_pos =
  Ret (Tensor.mk [nb; nh; length input_pos; nd]
         (fun idx => match idx with
                     | [b; h; i; d] =>
                         Tensor.data cache [b; h; nth i (List.map Z.to_nat input_pos) 0%nat; d]
                     | _ => 0%Q
                     end)).
Proof.
  intros Hshape Hrange. unfold read_at.
  rewrite Hshape, (norm_indices_in_range _ _ Hrange). simpl.
  by rewrite length_map.
Qed.

Lemma in_range_axis (ns : nat) (input_pos : list Z) :
  Forall (fun p => 0 <= p < Z.of_nat ns) input_pos ->
  (ns =? 0)%nat && negb (length input_pos =? 0)%nat = false.
Proof.
  intros Hrange. destruct input_pos as [|p ps]; [by rewrite andb_false_r|].
  apply Forall_cons_1 in Hrange as [Hp _].
  destruct (Nat.eqb_spec ns 0); [lia|done].
Qed.

(** X3.  [update] is not atomic: when the keys fit but the values cannot
    be broadcast to the written region, the call raises [RuntimeError]
    after the key buffer has been written; the value buffer is as
    before. *)
Theorem update_not_atomic (self : KVCache) (input_pos : list Z)
    (k_val v_val : Tensor Q) (nb nh ns nd : nat) :
  Tensor.shape (buf (k_cache self)) = [nb; nh; ns; nd] ->
  Tensor.shape (buf (v_cache self)) = [nb; nh; ns; nd] ->
  List.NoDup input_pos ->
  Forall (fun p => 0 <= p < Z.of_nat ns) input_pos ->
  Tensor.shape k_val = [nb; nh; length input_pos; nd] ->
  broadcastable (Tensor.shape v_val) [nb; nh; length input_pos; nd] = false ->
  exists k_new,
    update input_pos k_val v_val self =
      (Raise RuntimeError,
       mkKVCache (mkBuffer (buf_id (k_cache self)) k_new) (v_cache self)) /\
    exists k_read, read_at k_new input_pos = Ret k_read /\ Tensor.eqv k_read k_val.
Proof.
  intros Hk Hv Hnd Hrange Hkv Hbad.
  destruct (index_put_spec _ _ _ _ _ _ _ Hk Hkv Hnd Hrange)
    as (k_new & Hkput & _ & Hread & _).
  exists k_new. split; [|exact Hread].
  destruct self as [[kid kbuf] [vid vbuf]]. simpl in Hk, Hv, Hkput |- *.
  unfold update. rewrite Hkv. simpl. rewrite Nat.eqb_refl. simpl.
  unfold st_bind, st_get, st_lift, st_put. simpl. rewrite Hkput. simpl.
  unfold index_put_. rewrite Hv, (in_range_axis _ _ Hrange), Hbad.
  reflexivity.
Qed.

Lemma update_not_atomic_witness :
  exists k_new,
    update [2; 0] Spec.sample_k Samples.wide_v Spec.sample_cache =
      (Raise RuntimeError,
       mkKVCache (mkBuffer 0 k_new) (v_cache Spec.sample_cache)) /\
    exists k_read, read_at k_new [2; 0] = Ret k_read /\ Tensor.eqv k_read Spec.sample_k.
Proof.
  apply (update_not_atomic Spec.sample_cache [2; 0] Spec.sample_k Samples.wide_v 1 1 4 2).
  - reflexivity.
  - reflexivity.
  - apply List.NoDup_cons; [simpl; lia|].
    apply List.NoDup_cons; [simpl; tauto|]. apply List.NoDup_nil.
  - repeat constructor; lia.
  - reflexivity.
  - reflexivity.
Defined.

(** X4.  Two writes at disjoint position sets compose: after the second
    [update] the returned buffers still read back the first keys and
    values at the first positions, and the second ones at the second
    positions. *)
Theorem update_twice_disjoint (self : KVCache) (pos1 pos2 : list Z)
    (k1 v1 k2 v2 : Tensor Q) (nb nh ns nd : nat) :
  Tensor.shape (buf (k_cache self)) = [nb; nh; ns; nd] ->
  Tensor.shape (buf (v_cache self)) = [nb; nh; ns; nd] ->
  List.NoDup pos1 -> List.NoDup pos2 ->
  Forall (fun p => 0 <= p < Z.of_nat ns) pos1 ->
  Forall (fun p => 0 <= p < Z.of_nat ns) pos2 ->
  (forall p, In p pos1 -> ~ In p pos2) ->
  Tensor.shape k1 = [nb; nh; length pos1; nd] ->
  Tensor.shape v1 = [nb; nh; length pos1; nd] ->
  Tensor.shape k2 = [nb; nh; length pos2; nd] ->
  Tensor.shape v2 = [nb; nh; length pos2; nd] ->
  exists out1 mid k_out v_out,
    update pos1 k1 v1 self = (Ret out1, mid) /\
    update pos2 k2 v2 mid = (Ret (k_out, v_out), mkKVCache k_out v_out) /\
    exists rk1 rv1 rk2 rv2,
      read_at (buf k_out) pos1 = Ret rk1 /\ Tensor.eqv rk1 k1 /\
      read_at (buf v_out) pos1 = Ret rv1 /\ Tensor.eqv rv1 v1 /\
      read_at (buf k_out) pos2 = Ret rk2 /\ Tensor.eqv rk2 k2 /\
      read_at (buf v_out) pos2 = Ret rv2 /\ Tensor.eqv rv2 v2.
Proof.
  intros Hk Hv Hnd1 Hnd2 Hr1 Hr2 Hdisj Hk1 Hv1 Hk2 Hv2.
  destruct (index_put_spec _ _ _ _ _ _ _ Hk Hk1 Hnd1 Hr1)
    as (ka & Hka & Ska & (rka & Hrka & Eka) & _).
  destruct (index_put_spec _ _ _ _ _ _ _ Hv Hv1 Hnd1 Hr1)
    as (va & Hva & Sva & (rva & Hrva & Eva) & _).
  destruct (index_put_spec _ _ _ _ _ _ _ Ska Hk2 Hnd2 Hr2)
    as (kb & Hkb & Skb & (rkb & Hrkb & Ekb) & Hkeep).
  destruct (index_put_spec _ _ _ _ _ _ _ Sva Hv2 Hnd2 Hr2)
    as (vb & Hvb & Svb & (rvb & Hrvb & Evb) & Hvkeep).
  set (ida := buf_id (k_cache self)). set (idv := buf_id (v_cache self)).
  exists (mkBuffer ida ka, mkBuffer idv va),
         (mkKVCache (mkBuffer ida ka) (mkBuffer idv va)),
         (mkBuffer ida kb), (mkBuffer idv vb).
  split.
  { unfold update. rewrite Hk1. simpl. rewrite Nat.eqb_refl. simpl.
    unfold st_bind, st_get, st_lift, st_put, st_ret. simpl.
    by rewrite Hka, Hva. }
  split.
  { unfold update. rewrite Hk2. simpl. rewrite Nat.eqb_refl. simpl.
    unfold st_bind, st_get, st_lift, st_put, st_ret. simpl.
    by rewrite Hkb, Hvb. }
  assert (Hfirst : forall (a b r : Tensor Q) (x : Tensor Q),
             Tensor.shape a = [nb; nh; ns; nd] -> Tensor.shape b = [nb; nh; ns; nd] ->
             read_at a pos1 = Ret r -> Tensor.eqv r x ->
             (forall i h s d, ~ In (Z.of_nat s) pos2 ->
                Tensor.data b [i; h; s; d] = Tensor.data a [i; h; s; d]) ->
             exists r', read_at b pos1 = Ret r' /\ Tensor.eqv r' x).
  { intros a b r x Sa Sb Hra [Hsh Hdata] Hsame.
    rewrite (read_at_in_range _ _ _ _ _ _ Sa Hr1) in Hra. injection Hra as <-.
    rewrite (read_at_in_range _ _ _ _ _ _ Sb Hr1).
    eexists. split; [reflexivity|]. split; [exact Hsh|].
    intros idx Hb. rewrite <- (Hdata idx Hb).
    simpl in Hb. apply in_bounds_rank4 in Hb as (i & h & j & d & -> & _ & _ & Hj & _).
    simpl. apply Hsame.
    assert (Hin : In (nth j pos1 0) pos1) by (by apply nth_In).
    assert (0 <= nth j pos1 0 < Z.of_nat ns)
      by (by eapply (proj1 (List.Forall_forall _ _)) in Hr1).
    replace (Z.of_nat (nth j (List.map Z.to_nat pos1) 0%nat)) with (nth j pos1 0).
    - by apply Hdisj.
    - change 0%nat with (Z.to_nat 0). rewrite map_nth. lia. }
  destruct (Hfirst _ _ _ _ Ska Skb Hrka Eka Hkeep) as (rk1 & ? & ?).
  destruct (Hfirst _ _ _ _ Sva Svb Hrva Eva Hvkeep) as (rv1 & ? & ?).
  exists rk1, rv1, rkb, rvb. simpl. done.
Qed.

Lemma update_twice_disjoint_witness :
  exists out1 mid k_out v_out,
    update [2; 0] Spec.sample_k Spec.sample_v Spec.sample_cache = (Ret out1, mid) /\
    update [1; 3] Samples.later_k Samples.later_v mid =
      (Ret (k_out, v_out), mkKVCache k_out v_out) /\
    exists rk1 rv1 rk2 rv2,
      read_at (buf k_out) [2; 0] = Ret rk1 /\ Tensor.eqv rk1 Spec.sample_k /\
      read_at (buf v_out) [2; 0] = Ret rv1 /\ Tensor.eqv rv1 Spec.sample_v /\
      read_at (buf k_out) [1; 3] = Ret rk2 /\ Tensor.eqv rk2 Samples.later_k /\
      read_at (buf v_out) [1; 3] = Ret rv2 /\ Tensor.eqv rv2 Samples.later_v.
Proof.
  apply (update_twice_disjoint Spec.sample_cache [2; 0] [1; 3]
           Spec.sample_k Spec.sample_v Samples.later_k Samples.later_v 1 1 4 2);
    try reflexivity.
  - apply List.NoDup_cons; [simpl; lia|].
    apply List.NoDup_cons; [simpl; tauto|]. apply List.NoDup_nil.
  - apply List.NoDup_cons; [simpl; lia|].
    apply List.NoDup_cons; [simpl; tauto|]. apply List.NoDup_nil.
  - repeat constructor; lia.
  - repeat constructor; lia.
  - simpl. lia.
Defined.
End KVCompose.

(** ** Cache set-up: invariant, retries, stages and sharding *)

Section DecoderMore.
Import KV Decoder Spec Vocab.

Lemma st_for_cons_Ret {S A} (x : A) (xs : list A) (body : A -> M S unit) s s2 :
  st_for (x :: xs) body s = (Ret tt, s2) ->
  exists s1, body x s = (Ret tt, s1) /\ st_for xs body s1 = (Ret tt, s2).
Proof.
  simpl. unfold st_bind. destruct (body x s) as [[[]|e] s1]; [|done].
  intros H. by exists s1.
Qed.

Lemma build_layers_fresh (cfg : Args.t) (ids : list Z) (ls : list (Z * TransformerBlock)) :
  build_layers cfg ids = Ret ls ->
  List.map fst ls = ids /\
  Forall (fun l => kv_cache (attention (snd l)) = None) ls.
Proof.
  assert (Hattn : forall a, Attention_init cfg = Ret a -> kv_cache a = None).
  { intros a. unfold Attention_init.
    destruct (Args.n_heads cfg =? 0); [done|].
    destruct (negb _); [done|].
    repeat (destruct (Linear_init _ _) as [[]|e]; cbn [res_bind]; [|done]).
    by intros [= <-]. }
  assert (Hfresh : forall b, TransformerBlock_init cfg = Ret b ->
                               kv_cache (attention b) = None).
  { intros b. unfold TransformerBlock_init.
    destruct (Attention_init cfg) as [a|e] eqn:Ea; cbn [res_bind]; [|done].
    destruct (FeedForward_init cfg) as [[]|e]; cbn [res_bind]; [|done].
    destruct (RMSNorm_init _) as [[]|e]; cbn [res_bind]; [|done].
    intros [= <-]. by apply Hattn. }
  revert ls. induction ids as [|i ids IH]; simpl; intros ls.
  - intros [= <-]. done.
  - destruct (TransformerBlock_init cfg) as [b|e] eqn:Eb; [|done]. simpl.
    destruct (build_layers cfg ids) as [rest|e]; [|done]. simpl.
    intros [= <-]. destruct (IH rest eq_refl) as [Hids Hall].
    split; [simpl; by f_equal | constructor; [by apply Hfresh | done]].
Qed.

Lemma Transformer_init_consistent (fl : Rope.FloatOps) (cfg : Args.t) (m : Transformer) :
  Transformer_init fl cfg = Ret m -> caches_consistent m.
Proof.
  unfold Transformer_init.
  destruct (Args.floordiv _ _) as [per|e]; [|done]. cbn [res_bind].
  destruct (if Args.stage_idx cfg =? 0 then _ else _) as [[]|e]; [|done].
  cbn [res_bind].
  destruct (build_layers cfg _) as [ls|e] eqn:El; [|done]. cbn [res_bind].
  destruct (if Args.stage_idx cfg =? Args.n_stages cfg - 1 then _ else _)
    as [[]|e]; [|done].
  cbn [res_bind].
  intros [= <-]. left. simpl.
  apply build_layers_fresh in El as [_ Hall]. done.
Qed.

Lemma setup_caches_keeps_consistent (w w' : with_heap Transformer) (b s : Z) :
  caches_consistent (snd w) ->
  setup_caches b s w = (Ret tt, w') ->
  caches_consistent (snd w').
Proof.
  intros Hinv Hrun.
  destruct (decide (covered (snd w) b s)) as [Hc|Hnc].
  - rewrite (setup_caches_covered _ _ _ Hc) in Hrun. by injection Hrun as <-.
  - destruct (setup_caches_uncovered _ _ _ _ Hnc Hrun)
      as (Hb & Hs & _ & Hall & (table & mask & Ht & Hm & _ & _ & Hshape) & _).
    right. rewrite Hb, Hs.
    destruct (decide (0 <= Args.find_multiple s 8)) as [Hpos|Hneg].
    + split; [done|]. split.
      * eapply Forall_impl; [exact Hall|].
        intros l (c & ? & ? & ? & _). by exists c.
      * split; [by rewrite Ht|]. by exists mask.
    + exfalso. clear -Hrun Hnc Hneg.
      destruct w as [next m]. simpl in *.
      unfold setup_caches in Hrun. unfold st_bind at 1 in Hrun.
      unfold get_self at 1 in Hrun. simpl in Hrun.
      destruct ((max_seq_length m >=? s) && (max_batch_size m >=? b)) eqn:Eg.
      { by apply guard_covered in Eg. }
      unfold st_bind, modify, on_layers, st_lift, on_heap, alloc in Hrun.
      simpl in Hrun.
      destruct (setup_layers _ _ _ _) as [[[]|e] [n1 ls]]; [|done].
      destruct (Args.floordiv _ _) as [n_elem|e]; [|done].
      destruct (precompute_freqs_cis m _ _ _ _) as [table|e]; [|done].
      unfold tril_ones in Hrun.
      destruct (Z.ltb_spec (Args.find_multiple s 8) 0); [done|lia].
Qed.

(** X5.  Starting from a newly constructed decoder, after any sequence
    of [setup_caches] calls that all return, the stored capacity
    describes the buffers: either nothing has been set up yet (capacity
    -1, no cache, no table, no mask), or every layer's cache has exactly
    the stored batch and sequence capacity, the sequence capacity is not
    negative, and the causal mask is square of that size. *)
Theorem setup_caches_invariant (fl : Rope.FloatOps) (cfg : Args.t)
    (m : Transformer) (calls : list (Z * Z)) (next : nat)
    (w' : with_heap Transformer) :
  Transformer_init fl cfg = Ret m ->
  run_setups calls (next, m) = (Ret tt, w') ->
  caches_consistent (snd w').
Proof.
  intros Hinit. apply Transformer_init_consistent in Hinit.
  change m with (snd (next, m)) in Hinit.
  generalize dependent (next, m). clear next m.
  induction calls as [|[b s] calls IH]; intros w Hinv Hrun.
  - injection Hrun as <-. done.
  - unfold run_setups in Hrun.
    apply st_for_cons_Ret in Hrun as (w1 & Hstep & Hrest).
    apply (IH w1); [|done].
    by apply (setup_caches_keeps_consistent w w1 b s).
Qed.

Lemma setup_caches_invariant_witness :
  run_setups [(2, 5); (1, 3); (1, 20)] (0%nat, sample_decoder) =
    (Ret tt, snd (run_setups [(2, 5); (1, 3); (1, 20)] (0%nat, sample_decoder))) /\
  caches_consistent
    (snd (snd (run_setups [(2, 5); (1, 3); (1, 20)] (0%nat, sample_decoder)))).
Proof.
  assert (H : run_setups [(2, 5); (1, 3); (1, 20)] (0%nat, sample_decoder) =
              (Ret tt, snd (run_setups [(2, 5); (1, 3); (1, 20)] (0%nat, sample_decoder))))
    by (apply run_returns; vm_compute; reflexivity).
  split; [exact H|].
  apply (setup_caches_invariant taylor_ops sample_args sample_decoder
           [(2, 5); (1, 3); (1, 20)] 0 _); [reflexivity | exact H].
Defined.

Lemma setup_caches_always_covers (w : with_heap Transformer) (b s : Z) :
  s <= Args.find_multiple s 8 ->
  covered (snd (snd (setup_caches b s w))) b s.
Proof.
  intros Hfm. destruct w as [next m].
  unfold setup_caches. unfold st_bind at 1. unfold get_self at 1. simpl.
  destruct ((max_seq_length m >=? s) && (max_batch_size m >=? b)) eqn:Eg.
  { simpl. by apply guard_covered. }
  unfold st_bind, modify, on_layers, st_lift, on_heap, alloc. simpl.
  destruct (setup_layers _ _ _ _) as [[[]|e] [n1 ls]]; simpl;
    [|unfold covered; simpl; lia].
  destruct (Args.floordiv _ _) as [n_elem|e]; simpl; [|unfold covered; simpl; lia].
  destruct (precompute_freqs_cis m _ _ _ _) as [table|e]; simpl;
    [|unfold covered; simpl; lia].
  destruct (tril_ones _) as [mask|e]; simpl; unfold covered; simpl; lia.
Qed.

(** X6.  For a length that [find_multiple] does not lower: whatever the
    first call did, returned or raised, the same call made again
    returns at once and changes nothing, because the capacity is stored
    before anything is allocated.  A set-up that failed half-way
    (capacity stored, buffers missing) is not repeated. *)
Theorem setup_caches_same_call_again (w : with_heap Transformer) (b s : Z) :
  s <= Args.find_multiple s 8 ->
  setup_caches b s (snd (setup_caches b s w)) =
    (Ret tt, snd (setup_caches b s w)).
Proof.
  intros Hfm. by apply setup_caches_covered, setup_caches_always_covers.
Qed.

Lemma setup_caches_same_call_again_witness :
  setup_caches (-2) 8 (snd (setup_caches (-2) 8 (0%nat, sample_decoder))) =
    (Ret tt, snd (setup_caches (-2) 8 (0%nat, sample_decoder))).
Proof.
  apply (setup_caches_same_call_again (0%nat, sample_decoder) (-2) 8).
  vm_compute. discriminate.
Defined.

(** A negative batch size on the sample decoder: the first call raises
    and leaves the capacity (-2, 8) behind, the second returns; no layer
    has a cache and no mask exists. *)
Example setup_caches_failed_then_silent :
  fst (setup_caches (-2) 8 (0%nat, sample_decoder)) = Raise RuntimeError /\
  fst (setup_caches (-2) 8 (snd (setup_caches (-2) 8 (0%nat, sample_decoder)))) = Ret tt /\
  layer_batches (snd (snd (setup_caches (-2) 8
                             (snd (setup_caches (-2) 8 (0%nat, sample_decoder)))))) =
    [None; None] /\
  max_seq_length (snd (snd (setup_caches (-2) 8 (0%nat, sample_decoder)))) = 8.
Proof. by vm_compute. Qed.
End DecoderMore.

Section StagesAndShards.
Import KV Decoder Spec Vocab Shard.

Lemma map_seq_offset {A} (f : nat -> A) (k n : nat) :
  List.map f (seq k n) = List.map (fun i => f (k + i)%nat) (seq 0 n).
Proof.
  revert f k. induction n as [|n IH]; intros f k; simpl; [done|].
  rewrite Nat.add_0_r. f_equal.
  rewrite (IH f (S k)), (IH (fun i => f (k + i)%nat) 1%nat).
  apply List.map_ext. intros i. f_equal. lia.
Qed.

Lemma py_range_app (a b c : Z) :
  a <= b -> b <= c -> (py_range a b ++ py_range b c)%list = py_range a c.
Proof.
  intros Hab Hbc. unfold py_range.
  replace (Z.to_nat (c - a)) with (Z.to_nat (b - a) + Z.to_nat (c - b))%nat by lia.
  rewrite seq_app, List.map_app.
  rewrite (map_seq_offset _ (0 + Z.to_nat (b - a))).
  apply (f_equal (app _)).
  apply List.map_ext. intros i. lia.
Qed.

Lemma py_range_empty (a : Z) : py_range a a = [].
Proof. unfold py_range. by rewrite Z.sub_diag. Qed.

Lemma py_range_snoc (n : Z) : 0 <= n -> py_range 0 (n + 1) = (py_range 0 n ++ [n])%list.
Proof.
  intros Hn. rewrite <- (py_range_app 0 n (n + 1)) by lia. f_equal.
  unfold py_range. replace (Z.to_nat (n + 1 - n)) with 1%nat by lia.
  simpl. f_equal. lia.
Qed.

Lemma parameter_Ret (sizes : list Z) :
  Forall (fun n => 0 <= n) sizes -> parameter (Some <$> sizes) = Ret tt.
Proof.
  intros Hall. unfold parameter.
  replace (forallb (fun n => bool_decide (is_Some n)) (Some <$> sizes)) with true.
  2:{ symmetry. apply forallb_forall. intros n Hin.
      apply List.in_map_iff in Hin as (z & <- & _).
      by apply bool_decide_eq_true_2. }
  replace (forallb (fun n => 0 <=? default 0 n) (Some <$> sizes)) with true; [done|].
  symmetry. apply forallb_forall. intros n Hin.
  apply List.in_map_iff in Hin as (z & <- & Hz). simpl. apply Z.leb_le.
  by eapply (proj1 (List.Forall_forall _ _)) in Hall.
Qed.

Lemma Linear_init_Ret (a b : Z) :
  0 <= a -> 0 <= b -> Linear_init (Some a) (Some b) = Ret tt.
Proof. intros Ha Hb. apply (parameter_Ret [b; a]). by repeat constructor. Qed.

Lemma RMSNorm_init_Ret (d : Z) : 0 <= d -> RMSNorm_init d = Ret tt.
Proof. intros Hd. apply (parameter_Ret [d]). by repeat constructor. Qed.

Lemma Embedding_init_Ret (n d : Z) :
  0 <= n -> 0 <= d -> Embedding_init n d = Ret tt.
Proof. intros Hn Hd. apply (parameter_Ret [n; d]). by repeat constructor. Qed.

Lemma TransformerBlock_init_Ret (cfg : Args.t) (h : Z) :
  Args.n_heads cfg <> 0 -> Args.dim cfg mod Args.n_heads cfg = 0 ->
  0 <= Args.dim cfg ->
  0 <= Args.n_heads cfg * Args.head_dim cfg ->
  0 <= Args.n_local_heads cfg * Args.head_dim cfg ->
  Args.hidden_dim cfg = Some h -> 0 <= h ->
  exists b, TransformerBlock_init cfg = Ret b.
Proof.
  intros Hn Hd Hdim Hq Hkv Hh Hh0.
  unfold TransformerBlock_init, Attention_init, FeedForward_init.
  destruct (Z.eqb_spec (Args.n_heads cfg) 0); [done|].
  rewrite Hd, Hh. cbn [Z.eqb negb].
  rewrite !Linear_init_Ret by done. cbn [res_bind].
  rewrite RMSNorm_init_Ret by done.
  cbn [res_bind]. by eexists.
Qed.

Lemma build_layers_Ret (cfg : Args.t) (ids : list Z) (h : Z) :
  Args.n_heads cfg <> 0 -> Args.dim cfg mod Args.n_heads cfg = 0 ->
  0 <= Args.dim cfg ->
  0 <= Args.n_heads cfg * Args.head_dim cfg ->
  0 <= Args.n_local_heads cfg * Args.head_dim cfg ->
  Args.hidden_dim cfg = Some h -> 0 <= h ->
  exists ls, build_layers cfg ids = Ret ls /\ List.map fst ls = ids.
Proof.
  intros Hn Hd Hdim Hq Hkv Hh Hh0.
  destruct (TransformerBlock_init_Ret cfg h Hn Hd Hdim Hq Hkv Hh Hh0) as (b & Hb).
  induction ids as [|i ids (ls & IH & Hids)]; simpl.
  - by exists [].
  - rewrite Hb, IH. simpl.
    eexists. split; [reflexivity|]. simpl. by f_equal.
Qed.

Lemma stages_cover (per n : Z) :
  0 <= per -> 0 <= n ->
  flat_map (fun k => py_range (per * k) (per * (k + 1))) (py_range 0 n) =
  py_range 0 (per * n).
Proof.
  intros Hper Hn. rewrite <- (Z2Nat.id n Hn).
  induction (Z.to_nat n) as [|j IH].
  - simpl. rewrite Z.mul_0_r. by rewrite !py_range_empty.
  - rewrite Nat2Z.inj_succ, <- Z.add_1_r.
    rewrite py_range_snoc by lia.
    rewrite flat_map_app, IH. simpl. rewrite app_nil_r.
    apply py_range_app; nia.
Qed.

(** X7.  Pipeline stages.  For a configuration with at least one
    stage, a width divisible by the head count, sizes that are not
    negative (width, vocabulary, the three projection widths) and a
    hidden width that is set and not negative, [__init__] returns for
    every stage index, and stage [k] is built with exactly the layer ids
    [per * k, ..., per * (k + 1) - 1], where [per] is
    [n_layers // n_stages]; it owns the token embedding only for [k = 0]
    and the output head only for [k = n_stages - 1].  Taken together
    the stages build the ids [0, ..., per * n_stages - 1] in order, each
    once; so when [n_stages] does not divide [n_layers] the last
    [n_layers mod n_stages] layers are built by no stage. *)
Theorem pipeline_stage_layers (fl : Rope.FloatOps) (cfg : Args.t) (h : Z) :
  0 < Args.n_stages cfg -> 0 <= Args.n_layers cfg ->
  Args.n_heads cfg <> 0 -> Args.dim cfg mod Args.n_heads cfg = 0 ->
  0 <= Args.dim cfg -> 0 <= Args.vocab_size cfg ->
  0 <= Args.n_heads cfg * Args.head_dim cfg ->
  0 <= Args.n_local_heads cfg * Args.head_dim cfg ->
  Args.hidden_dim cfg = Some h -> 0 <= h ->
  (forall k, exists m,
      Transformer_init fl (with_stage cfg k) = Ret m /\
      List.map fst (layers m) = stage_layer_ids cfg k /\
      has_tok_embeddings m = (k =? 0) /\
      has_output_head m = (k =? Args.n_stages cfg - 1)) /\
  flat_map (stage_layer_ids cfg) (py_range 0 (Args.n_stages cfg)) =
    py_range 0 (Args.n_layers cfg - Args.n_layers cfg mod Args.n_stages cfg).
Proof.
  intros Hst Hly Hn Hd Hdim Hvoc Hq Hkv Hh Hh0. split.
  - intros k. unfold Transformer_init, Args.floordiv.
    cbn [with_stage Args.n_layers Args.n_stages Args.stage_idx Args.dim
         Args.vocab_size Args.use_hf_rope].
    destruct (Z.eqb_spec (Args.n_stages cfg) 0); [lia|]. cbn [res_bind].
    rewrite Embedding_init_Ret, RMSNorm_init_Ret, Linear_init_Ret by done.
    cbn [res_bind].
    destruct (build_layers_Ret (with_stage cfg k)
                (py_range (Args.n_layers cfg / Args.n_stages cfg * k)
                          (Args.n_layers cfg / Args.n_stages cfg * (k + 1)))
                h Hn Hd Hdim Hq Hkv Hh Hh0)
      as (ls & Hls & Hids).
    rewrite Hls.
    destruct (k =? 0); cbn [res_bind];
      destruct (k =? Args.n_stages cfg - 1); cbn [res_bind];
      (eexists; split; [reflexivity|]; done).
  - unfold stage_layer_ids.
    rewrite stages_cover.
    + f_equal. pose proof (Z.div_mod (Args.n_layers cfg) (Args.n_stages cfg)). lia.
    + apply Z.div_pos; lia.
    + lia.
Qed.

Lemma pipeline_stage_layers_witness :
  (forall k, exists m,
      Transformer_init taylor_ops (with_stage sample_args k) = Ret m /\
      List.map fst (layers m) = stage_layer_ids sample_args k /\
      has_tok_embeddings m = (k =? 0) /\
      has_output_head m = (k =? Args.n_stages sample_args - 1)) /\
  flat_map (stage_layer_ids sample_args) (py_range 0 (Args.n_stages sample_args)) =
    py_range 0 (Args.n_layers sample_args -
                Args.n_layers sample_args mod Args.n_stages sample_args).
Proof.
  apply (pipeline_stage_layers taylor_ops sample_args 256).
  - reflexivity.
  - simpl. lia.
  - simpl. lia.
  - reflexivity.
  - simpl. lia.
  - simpl. lia.
  - simpl. lia.
  - simpl. lia.
  - reflexivity.
  - lia.
Defined.

(** A negative width, a missing hidden width: the constructors of the
    sub-modules refuse them. *)
Example Transformer_init_refuses :
  Transformer_init taylor_ops Stages.negative_width = Raise RuntimeError /\
  Transformer_init taylor_ops Stages.no_hidden_width = Raise TypeError.
Proof. split; reflexivity. Qed.

Lemma setup_cache_shape (b s : Z) (next next' : nat) (a a' : Attention) :
  setup_cache b s (next, a) = (Ret tt, (next', a')) ->
  exists c, kv_cache a' = Some c /\
            Tensor.shape (buf (k_cache c)) =
              List.map Z.to_nat [b; cache_heads_of a; s; head_dim a] /\
            Tensor.shape (buf (v_cache c)) =
              List.map Z.to_nat [b; cache_heads_of a; s; head_dim a] /\
            0 <= cache_heads_of a.
Proof.
  unfold setup_cache, st_bind, get_self, st_lift, on_heap, modify. simpl.
  unfold cache_heads_of, Args.floordiv.
  destruct (tp_degree a) as [tp|].
  - destruct (tp =? 0); [done|].
    destruct (KVCache_init b s (n_local_heads a / tp) (head_dim a) next)
      as [[c|e] n1] eqn:Ec; [|done].
    assert (Hpos : 0 <= n_local_heads a / tp).
    { unfold KVCache_init, st_bind, st_lift, zeros in Ec. simpl in Ec.
      destruct (0 <=? b); [|done]. simpl in Ec.
      destruct (Z.leb_spec 0 (n_local_heads a / tp)); [done|done]. }
    apply KVCache_init_Ret in Ec as [-> ->].
    intros [= <- <-]. eexists. split; [reflexivity|]. done.
  - destruct (KVCache_init b s (n_local_heads a) (head_dim a) next)
      as [[c|e] n1] eqn:Ec; [|done].
    assert (Hpos : 0 <= n_local_heads a).
    { unfold KVCache_init, st_bind, st_lift, zeros in Ec. simpl in Ec.
      destruct (0 <=? b); [|done]. simpl in Ec.
      destruct (Z.leb_spec 0 (n_local_heads a)); [done|done]. }
    apply KVCache_init_Ret in Ec as [-> ->].
    intros [= <- <-]. eexists. split; [reflexivity|]. done.
Qed.

Lemma setup_layers_shapes (b s : Z) (ls ls' : list (Z * TransformerBlock))
    (next next' : nat) :
  setup_layers b s ls next = (Ret tt, (next', ls')) ->
  Forall2 (fun old new =>
             fst new = fst old /\
             layer_cache_shape
               (List.map Z.to_nat [b; cache_heads_of (attention (snd old)); s;
                                   head_dim (attention (snd old))]) new)
          ls ls'.
Proof.
  revert ls' next next'. induction ls as [|[i blk] ls IH]; simpl; intros ls' next next'.
  - intros [= <- <-]. constructor.
  - destruct (setup_cache b s (next, attention blk)) as [[[]|e] [n1 a1]] eqn:Ea; [|done].
    apply setup_cache_shape in Ea as (c & Hc & Hk & Hv & _).
    destruct (setup_layers b s ls n1) as [r [n2 rest]] eqn:Er.
    intros [= -> <- <-].
    constructor; [|by eapply IH].
    split; [done|]. exists c. done.
Qed.

Lemma setup_caches_layers (w w' : with_heap Transformer) (b s : Z) :
  ~ covered (snd w) b s ->
  setup_caches b s w = (Ret tt, w') ->
  exists next', setup_layers b (Args.find_multiple s 8) (layers (snd w)) (fst w) =
                  (Ret tt, (next', layers (snd w'))).
Proof.
  intros Hnc. destruct w as [next m]. simpl in *.
  unfold setup_caches. unfold st_bind at 1. unfold get_self at 1. simpl.
  destruct ((max_seq_length m >=? s) && (max_batch_size m >=? b)) eqn:Eg.
  { by apply guard_covered in Eg. }
  unfold st_bind, modify, on_layers, st_lift, on_heap, alloc. simpl.
  destruct (setup_layers _ _ _ _) as [[[]|e] [n1 ls]]; [|done].
  destruct (Args.floordiv _ _) as [n_elem|e]; [|done].
  destruct (precompute_freqs_cis m _ _ _ _) as [table|e]; [|done].
  destruct (tril_ones _) as [mask|e]; [|done].
  intros [= <-]. simpl. by exists n1.
Qed.

(** X8.  Sharding.  After [distribute] over a mesh of [d] participants,
    a [setup_caches] call that allocates and returns gives every layer
    key and value buffers of shape [batch, n_local_heads // d,
    find_multiple(sequence length, 8), head_dim]: the head count is the
    layer's own, divided by the mesh size, and [d] is not zero. *)
Theorem setup_caches_after_distribute (next : nat) (m : Transformer)
    (d b s : Z) (w' : with_heap Transformer) :
  ~ covered m b s ->
  setup_caches b s (next, Transformer_distribute d m) = (Ret tt, w') ->
  Forall2 (fun old new =>
             fst new = fst old /\
             layer_cache_shape
               (List.map Z.to_nat
                  [b; n_local_heads (attention (snd old)) / d;
                   Args.find_multiple s 8; head_dim (attention (snd old))]) new)
          (layers m) (layers (snd w')) /\
  (layers m <> [] -> d <> 0).
Proof.
  intros Hnc Hrun.
  assert (Hnc' : ~ covered (snd (next, Transformer_distribute d m)) b s) by exact Hnc.
  destruct (setup_caches_layers _ _ _ _ Hnc' Hrun) as (n1 & Hls).
  simpl in Hls. split.
  - apply setup_layers_shapes in Hls.
    apply Forall2_fmap_l in Hls.
    eapply Forall2_impl; [exact Hls|]. simpl. intros old new [? ?]. done.
  - intros Hne Hd. subst d.
    destruct (layers m) as [|[i blk] rest]; [done|].
    simpl in Hls. unfold setup_cache, st_bind, get_self, st_lift in Hls.
    simpl in Hls. done.
Qed.

Lemma setup_caches_after_distribute_witness :
  setup_caches 1 12 (0%nat, Transformer_distribute 2 sample_decoder) =
    (Ret tt, snd (setup_caches 1 12 (0%nat, Transformer_distribute 2 sample_decoder))) /\
  Forall (layer_cache_shape [1; 2; 16; 16]%nat)
    (layers (snd (snd (setup_caches 1 12
                         (0%nat, Transformer_distribute 2 sample_decoder))))).
Proof.
  assert (H : setup_caches 1 12 (0%nat, Transformer_distribute 2 sample_decoder) =
              (Ret tt, snd (setup_caches 1 12
                              (0%nat, Transformer_distribute 2 sample_decoder))))
    by (apply run_returns; vm_compute; reflexivity).
  split; [exact H|].
  destruct (setup_caches_after_distribute 0 sample_decoder 2 1 12 _
              ltac:(unfold covered; simpl; lia) H) as [Hall _].
  change (layers sample_decoder) with
    [(0, mkBlock (mkAttention 4 16 4 64 None None));
     (1, mkBlock (mkAttention 4 16 4 64 None None))] in Hall.
  apply Forall2_cons_inv_l in Hall as (l0 & rest0 & [_ H0] & Hall & ->).
  apply Forall2_cons_inv_l in Hall as (l1 & rest1 & [_ H1] & Hall & ->).
  apply Forall2_nil_inv_l in Hall as ->.
  repeat constructor; assumption.
Defined.
End StagesAndShards.

(** ** Hyper-parameters and parameter files *)

Section ConfigFacts.
Import Recipe Config.

(** X9.  [__post_init__], when it returns: the head count is not zero
    and [head_dim] is recomputed as [dim // n_heads], whatever was given;
    [n_local_heads] is the head count when it was left at -1 and is kept
    otherwise; [hidden_dim] is set afterwards, and a given one is kept;
    and running it again changes nothing. *)
Theorem post_init_normalises (a a' : Args.t) :
  Args.post_init a = Ret a' ->
  Args.n_heads a <> 0 /\
  Args.head_dim a' = Args.dim a / Args.n_heads a /\
  Args.n_local_heads a' =
    (if Args.n_local_heads a =? -1 then Args.n_heads a else Args.n_local_heads a) /\
  is_Some (Args.hidden_dim a') /\
  (forall given, Args.hidden_dim a = Some given ->
                 Args.hidden_dim a' = Some given) /\
  Args.post_init a' = Ret a'.
Proof.
  unfold Args.post_init, Args.floordiv.
  destruct (Args.hidden_dim a) as [given|] eqn:Eh; simpl.
  - destruct (Z.eqb_spec (Args.n_heads a) 0) as [E0|E0]; [done|]. simpl.
    intros [= <-]. simpl.
    destruct (Z.eqb_spec (Args.n_heads a) 0); [done|].
    split; [done|]. split; [done|]. split; [done|].
    split; [by eexists|]. split; [done|].
    simpl. repeat f_equal.
    destruct (Z.eqb_spec (Args.n_local_heads a) (-1)) as [E1|E1].
    + destruct (Z.eqb_spec (Args.n_heads a) (-1)); done.
    + destruct (Z.eqb_spec (Args.n_local_heads a) (-1)); done.
  - destruct (Z.eqb_spec (Args.multiple_of a) 0) as [Em|Em]; [done|]. simpl.
    destruct (Z.eqb_spec (Args.n_heads a) 0) as [E0|E0]; [done|]. simpl.
    intros [= <-]. simpl.
    destruct (Z.eqb_spec (Args.n_heads a) 0); [done|].
    split; [done|]. split; [done|]. split; [done|].
    split; [by eexists|]. split; [done|].
    simpl. repeat f_equal.
    destruct (Z.eqb_spec (Args.n_local_heads a) (-1)) as [E1|E1].
    + destruct (Z.eqb_spec (Args.n_heads a) (-1)); done.
    + destruct (Z.eqb_spec (Args.n_local_heads a) (-1)); done.
Qed.

Lemma post_init_normalises_witness :
  Args.post_init Spec.sample_params = Ret Spec.sample_args /\
  Args.head_dim Spec.sample_args = 64 / 4 /\
  Args.post_init Spec.sample_args = Ret Spec.sample_args.
Proof.
  destruct (post_init_normalises Spec.sample_params Spec.sample_args eq_refl)
    as (_ & Hhd & _ & _ & _ & Hagain).
  split; [reflexivity|]. split; [exact Hhd | exact Hagain].
Defined.

Lemma rename_key_lookup {V} (_from _to : string) (params : gmap string V) (k : string) :
  _from <> _to ->
  rename_key _from _to params !! k =
  if decide (k = _from) then None
  else if decide (k = _to)
       then match params !! _from with
            | Some v => Some v
            | None => params !! _to
            end
       else params !! k.
Proof.
  intros Hne. unfold rename_key.
  destruct (params !! _from) as [v|] eqn:Ef.
  - destruct (decide (k = _from)) as [->|Hk1].
    + rewrite lookup_insert_ne by done. by rewrite lookup_delete_eq.
    + destruct (decide (k = _to)) as [->|Hk2].
      * by rewrite lookup_insert_eq.
      * rewrite lookup_insert_ne by done. by rewrite lookup_delete_ne.
  - destruct (decide (k = _from)) as [->|Hk1]; [done|].
    destruct (decide (k = _to)) as [->|Hk2]; done.
Qed.

(** X10.  The renaming step of [TransformerArgs.from_params]: afterwards
    the legacy names [rope_theta] and [n_kv_heads] are absent; [rope_base]
    holds the value of [rope_theta] when that was given, overriding any
    [rope_base] of the file, and its old value otherwise (the same for
    [n_local_heads] and [n_kv_heads]); every other entry is untouched;
    renaming twice is renaming once. *)
Theorem renamed_params_lookup {V} (params : gmap string V) :
  renamed_params params !! "rope_theta"%string = None /\
  renamed_params params !! "n_kv_heads"%string = None /\
  renamed_params params !! "rope_base"%string =
    match params !! "rope_theta"%string with
    | Some v => Some v
    | None => params !! "rope_base"%string
    end /\
  renamed_params params !! "n_local_heads"%string =
    match params !! "n_kv_heads"%string with
    | Some v => Some v
    | None => params !! "n_local_heads"%string
    end /\
  (forall k, ~ In k ["rope_theta"; "rope_base"; "n_kv_heads"; "n_local_heads"]%string ->
             renamed_params params !! k = params !! k) /\
  renamed_params (renamed_params params) = renamed_params params.
Proof.
  assert (Hall : forall k,
    renamed_params params !! k =
    if decide (k = "n_kv_heads"%string) then None
    else if decide (k = "n_local_heads"%string)
         then match params !! "n_kv_heads"%string with
              | Some v => Some v
              | None => params !! "n_local_heads"%string
              end
         else if decide (k = "rope_theta"%string) then None
              else if decide (k = "rope_base"%string)
                   then match params !! "rope_theta"%string with
                        | Some v => Some v
                        | None => params !! "rope_base"%string
                        end
                   else params !! k).
  { intros k. unfold renamed_params. simpl.
    rewrite rename_key_lookup by done.
    destruct (decide (k = "n_kv_heads"%string)) as [->|?]; [done|].
    destruct (decide (k = "n_local_heads"%string)) as [->|?].
    - by rewrite !rename_key_lookup by done.
    - by rewrite rename_key_lookup by done. }
  repeat split.
  - by rewrite Hall.
  - by rewrite Hall.
  - by rewrite Hall.
  - by rewrite Hall.
  - intros k Hk. rewrite Hall. simpl in Hk.
    repeat (destruct (decide _) as [->|?]; [tauto|]). done.
  - assert (H1 : renamed_params params !! "rope_theta"%string = None)
      by (by rewrite Hall).
    assert (H2 : renamed_params params !! "n_kv_heads"%string = None)
      by (by rewrite Hall).
    clear Hall. revert H1 H2. generalize (renamed_params params). intros p' H1 H2.
    unfold renamed_params. simpl. unfold rename_key. by rewrite H1, H2.
Qed.
End ConfigFacts.

Section FileFacts.
Import Recipe Config.

Lemma ModelType_round_trip {V} (t : ModelType) :
  @ModelType_of_value V (JStr (ModelType_value t)) = Ret t.
Proof. by destruct t. Qed.

Lemma ModelType_of_value_Ret {V} (v : jvalue V) (t : ModelType) :
  ModelType_of_value v = Ret t -> v = JStr (ModelType_value t).
Proof.
  destruct v as [| |s|]; simpl; try done.
  destruct (String.eqb_spec s "text_only") as [->|_]; [by intros [= <-]|].
  destruct (String.eqb_spec s "llama3_1") as [->|_]; [by intros [= <-]|].
  destruct (String.eqb_spec s "flamingo") as [->|_]; [by intros [= <-]|].
  destruct (String.eqb_spec s "llava") as [->|_]; [by intros [= <-]|].
  done.
Qed.

Lemma lookup_without_key {A} (m : gmap string A) (k0 k : string) :
  filter (fun kv => fst kv <> k0) m !! k = if decide (k = k0) then None else m !! k.
Proof.
  apply option_eq. intros x. rewrite map_lookup_filter_Some. simpl.
  destruct (decide (k = k0)) as [->|Hne]; intuition congruence.
Qed.

Lemma build_modules_present {P} (targs : gmap string P)
    (mods : list (string * ModuleLike)) :
  (forall name, In name (List.map fst mods) -> is_Some (targs !! name)) ->
  exists built, build_modules targs mods = Ret built /\
                List.map fst built = List.map fst mods.
Proof.
  induction mods as [|[name cls] mods IH]; simpl; intros Hall.
  - by exists [].
  - destruct (Hall name (or_introl eq_refl)) as [p Hp]. rewrite Hp.
    destruct IH as (built & -> & Hnames); [intros n Hn; apply Hall; by right|].
    simpl. eexists. split; [reflexivity|]. simpl. by f_equal.
Qed.

Lemma build_modules_missing {P} (targs : gmap string P)
    (mods : list (string * ModuleLike)) (name : string) :
  In name (List.map fst mods) -> targs !! name = None ->
  build_modules targs mods = Raise KeyError.
Proof.
  induction mods as [|[n cls] mods IH]; simpl; intros Hin Hnone; [done|].
  destruct (targs !! n) as [p|] eqn:Ep; [|done].
  destruct Hin as [->|Hin]; [congruence|].
  by rewrite (IH Hin Hnone).
Qed.

Lemma build_modules_agree {P} (targs targs' : gmap string P)
    (mods : list (string * ModuleLike)) :
  (forall name, In name (List.map fst mods) -> targs' !! name = targs !! name) ->
  build_modules targs' mods = build_modules targs mods.
Proof.
  induction mods as [|[n cls] mods IH]; simpl; intros Hsame; [done|].
  rewrite (Hsame n (or_introl eq_refl)).
  destruct (targs !! n); [|done].
  rewrite IH; [done|]. intros name Hname. apply Hsame. by right.
Qed.

(** X12.  [build_model] needs exactly the modules its recipe names:
    with module constructors that return, it returns when every module
    name of the recipe has an entry in [transformer_args], raises
    [KeyError] when one of them has none, and does not look at any other
    entry. *)
Theorem build_model_needs_modules {P} (t : ModelType) (r : ModelRecipe)
    (targs : gmap string P) :
  get_recipe (PyModelType t) = Ret r ->
  ((forall name, In name (List.map fst (modules r)) -> is_Some (targs !! name)) ->
     exists m, build_model (PyModelType t) targs = Ret m) /\
  (forall name, In name (List.map fst (modules r)) -> targs !! name = None ->
     build_model (PyModelType t) targs = Raise KeyError) /\
  (forall targs' : gmap string P,
     (forall name, In name (List.map fst (modules r)) ->
                   targs' !! name = targs !! name) ->
     build_model (PyModelType t) targs' = build_model (PyModelType t) targs).
Proof.
  intros Hr. unfold build_model. rewrite Hr. simpl. split; [|split].
  - intros Hall. destruct (build_modules_present _ _ Hall) as (built & -> & Hnames).
    simpl. unfold apply_fusion.
    destruct t; simpl in Hr; injection Hr as <-; simpl in *;
      try (by eexists).
    + destruct built as [|[n b] [|? ?]]; try discriminate Hnames. by eexists.
    + destruct built as [|[n b] [|? ?]]; try discriminate Hnames. by eexists.
  - intros name Hin Hnone. by rewrite (build_modules_missing _ _ _ Hin Hnone).
  - intros targs' Hsame. by rewrite (build_modules_agree _ _ _ Hsame).
Qed.

Lemma build_model_needs_modules_witness :
  (exists m, build_model (PyModelType Llava)
               (Entry <$> delete "model_type"%string Files.llava_file) = Ret m) /\
  build_model (PyModelType Llava)
    (Entry <$> delete "model_type"%string Files.llava_file_no_decoder) = Raise KeyError.
Proof.
  split.
  - apply (proj1 (build_model_needs_modules Llava _llava _ eq_refl)).
    simpl. intros name [<-|[<-|[]]]; by eexists.
  - apply (proj1 (proj2 (build_model_needs_modules Llava _llava _ eq_refl))
             "decoder"%string).
    + simpl. tauto.
    + reflexivity.
Defined.

(** X11.  [ModelArgs.from_params] on the parsed file.  Without a
    [model_type] entry (or with [null]) the model is text-only and its
    single module ["text"] holds the whole file, an entry [model_type]
    or [use_tiktoken] of the file included.  With the
    value of one of the four model types, the model has that type and
    its modules are the other entries of the file: [model_type] itself is
    never among them.  Any other [model_type] raises [ValueError].  Each
    enum value names its own member. *)
Theorem from_params_model_type {V} (loaded_params : gmap string (jvalue V)) :
  (loaded_params !! "model_type"%string = None \/
   loaded_params !! "model_type"%string = Some JNull ->
     exists args,
       from_params loaded_params = Ret args /\
       model_type args = TextOnly /\
       transformer_args args = {["text"%string := WholeFile loaded_params]}) /\
  (forall t, loaded_params !! "model_type"%string = Some (JStr (ModelType_value t)) ->
     exists args,
       from_params loaded_params = Ret args /\
       model_type args = t /\
       forall k, transformer_args args !! k =
                 if decide (k = "model_type"%string) then None
                 else Entry <$> loaded_params !! k) /\
  (forall v, loaded_params !! "model_type"%string = Some v ->
     v <> JNull -> (forall t, v <> JStr (ModelType_value t)) ->
     from_params loaded_params = Raise ValueError) /\
  (forall t, @ModelType_of_value V (JStr (ModelType_value t)) = Ret t).
Proof.
  split; [|split; [|split]].
  - intros Hnone. unfold from_params.
    assert (E : default JNull (loaded_params !! "model_type"%string) = JNull)
      by (destruct Hnone as [-> | ->]; done).
    rewrite E. simpl. eexists. split; [reflexivity|]. simpl.
    split; [done|]. done.
  - intros t Ht. unfold from_params. rewrite Ht. simpl.
    assert (E : @ModelType_of_value V (JStr (ModelType_value t)) = Ret t)
      by apply ModelType_round_trip.
    simpl in E. rewrite E. simpl.
    eexists. split; [reflexivity|]. simpl. split; [done|].
    intros k. rewrite lookup_fmap, lookup_without_key.
    by destruct (decide (k = "model_type"%string)).
  - intros v Hv Hnull Hnone. unfold from_params. rewrite Hv.
    assert (E : ModelType_of_value v = Raise ValueError).
    { destruct (ModelType_of_value v) as [t|e] eqn:E.
      - apply ModelType_of_value_Ret in E. by destruct (Hnone t).
      - destruct v as [| |s|]; simpl in E; try done.
        repeat (destruct (String.eqb _ _); [done|]). done. }
    cbn [default from_option id].
    destruct v as [| |s|]; [done|..]; by rewrite E.
  - apply ModelType_round_trip.
Qed.

(** The three cases on concrete files. *)
Example from_params_files :
  (exists args, from_params Files.text_file = Ret args /\
                model_type args = TextOnly /\
                use_tiktoken args = JBool true) /\
  (exists args, from_params Files.llava_file = Ret args /\
                model_type args = Llava /\
                transformer_args args !! "decoder"%string = Some (Entry (JOther 2)) /\
                transformer_args args !! "model_type"%string = None) /\
  from_params (<["model_type"%string := JStr "gpt"]> Files.text_file) = Raise ValueError.
Proof.
  split; [|split].
  - eexists. split; [reflexivity|]. done.
  - eexists. split; [reflexivity|]. done.
  - reflexivity.
Qed.
End FileFacts.

Section TableFacts.
Import Names Config.

(** X13.  [from_name] extends [from_table].  Whenever the file
    [<name>.json] exists both load exactly that file.  Where [from_table]
    gives up with [RuntimeError], [from_name] either raises [ValueError]
    (nothing matches), raises [AssertionError] (tie), or loads
    [<c>.json] for a known configuration name [c] that matches the key;
    for a loader that does not raise [RuntimeError] itself, [from_name]
    never raises it. *)
Theorem from_name_extends_from_table {A} (from_params_file : string -> res A)
    (fs : config_dir) (name : string) :
  (is_file fs (name +:+ ".json") = true ->
     from_name from_params_file fs name = from_params_file (name +:+ ".json") /\
     from_table from_params_file fs name = from_params_file (name +:+ ".json")) /\
  (is_file fs (name +:+ ".json") = false ->
     from_table from_params_file fs name = Raise RuntimeError /\
     (from_name from_params_file fs name = Raise ValueError \/
      from_name from_params_file fs name = Raise AssertionError \/
      exists c, In c (known_model_params fs) /\ name_matches name c = true /\
                from_name from_params_file fs name = from_params_file (c +:+ ".json"))) /\
  ((forall f, from_params_file f <> Raise RuntimeError) ->
     from_name from_params_file fs name <> Raise RuntimeError).
Proof.
  assert (Hfuzzy : is_file fs (name +:+ ".json") = false ->
    from_name from_params_file fs name = Raise ValueError \/
    from_name from_params_file fs name = Raise AssertionError \/
    exists c, In c (known_model_params fs) /\ name_matches name c = true /\
              from_name from_params_file fs name = from_params_file (c +:+ ".json")).
  { intros Hfile. rewrite (from_name_fuzzy _ _ _ Hfile).
    pose proof (sort_by_len_desc_perm (fuzzy_matches fs name)) as Hp.
    assert (Hhead : forall c0 rest,
              sort_by_len_desc (fuzzy_matches fs name) = c0 :: rest ->
              In c0 (known_model_params fs) /\ name_matches name c0 = true).
    { intros c0 rest E. rewrite E in Hp.
      apply List.filter_In. apply (Permutation_in _ Hp). by left. }
    destruct (sort_by_len_desc (fuzzy_matches fs name)) as [|c0 [|c1 rest]].
    - by left.
    - right; right. exists c0. destruct (Hhead c0 [] eq_refl). by repeat split.
    - destruct (String.length c0 =? String.length c1)%nat; [by right; left|].
      right; right. exists c0. destruct (Hhead c0 (c1 :: rest) eq_refl).
      by repeat split. }
  split; [|split].
  - intros Hfile. unfold from_name, from_table. by rewrite Hfile.
  - intros Hfile. split; [|by apply Hfuzzy].
    unfold from_table. by rewrite Hfile.
  - intros Hloader. destruct (is_file fs (name +:+ ".json")) eqn:Hfile.
    + unfold from_name. rewrite Hfile. apply Hloader.
    + destruct (Hfuzzy eq_refl) as [-> | [-> | (c & _ & _ & ->)]];
        [done | done | apply Hloader].
Qed.

(** On the sample directory: the key of an existing table entry is
    loaded by both; a longer key is resolved by [from_name] only. *)
Example from_name_beyond_table :
  from_table Ret Spec.mistral_dir "7B" = Ret "7B.json"%string /\
  from_name Ret Spec.mistral_dir "7B" = Ret "7B.json"%string /\
  from_table (@Ret string) Spec.mistral_dir "Mistral-7B-Instruct" = Raise RuntimeError /\
  from_name Ret Spec.mistral_dir "Mistral-7B-Instruct" = Ret "Mistral-7B.json"%string.
Proof. vm_compute. done. Qed.
End TableFacts.

Section RopeMore.
Import Rope Spec.
Local Open Scope Q_scope.

Lemma py_div_zero (a b : Q) : b == 0 -> py_div a b = Raise ZeroDivisionError.
Proof.
  intros Hb. unfold py_div.
  destruct (Qeq_bool b 0) eqn:E; [done|].
  apply Qeq_bool_neq in E. by destruct E.
Qed.

Lemma scaling_loop_length (factor low high old lw hw : Q) (freqs acc out : list Q) :
  scaling_loop factor low high old lw hw freqs acc = Ret out ->
  length out = (length acc + length freqs)%nat.
Proof.
  revert acc. induction freqs as [|f freqs IH]; intros acc; simpl.
  - intros [= <-]. lia.
  - repeat match goal with
           | |- context [if ?b then _ else _] => destruct b
           end;
      try done; intros Hrun; apply IH in Hrun;
      rewrite length_app in Hrun; simpl in Hrun; lia.
Qed.

Lemma apply_scaling_length (freqs out : list Q) (rs : gmap string Q) :
  apply_scaling freqs rs = Ret out -> length out = length freqs.
Proof.
  unfold apply_scaling.
  destruct (negb (has_required_keys rs)); [done|].
  repeat match goal with
         | |- context [res_bind ?c _] =>
             let E := fresh in destruct c eqn:E; simpl; [|done]
         end.
  intros Hrun. by apply scaling_loop_length in Hrun.
Qed.

(** With a single threshold the loop keeps what is below, divides what
    is above, and stops at the first frequency exactly on it. *)
Lemma scaling_loop_one_threshold (factor low high old lw hw : Q) (freqs acc : list Q) :
  lw == hw ->
  (Forall (fun f => ~ wavelen f == lw) freqs ->
     exists out, scaling_loop factor low high old lw hw freqs acc = Ret out) /\
  (Exists (fun f => wavelen f == lw) freqs ->
     scaling_loop factor low high old lw hw freqs acc = Raise AssertionError).
Proof.
  intros Heq. revert acc. induction freqs as [|f freqs IH]; intros acc.
  - split; [by eexists | by intros H%Exists_nil].
  - cbn [scaling_loop]. fold (wavelen f).
    destruct (Qltb (wavelen f) hw) eqn:E1.
    { apply Qltb_lt in E1. split.
      - intros Hall. apply Forall_cons_1 in Hall as [_ Hall]. by apply IH.
      - intros Hex. apply Exists_cons in Hex as [Hf|Hex]; [lra | by apply IH]. }
    destruct (Qltb lw (wavelen f)) eqn:E2.
    { apply Qltb_lt in E2. split.
      - intros Hall. apply Forall_cons_1 in Hall as [_ Hall]. by apply IH.
      - intros Hex. apply Exists_cons in Hex as [Hf|Hex]; [lra | by apply IH]. }
    apply Qltb_ge in E1, E2.
    rewrite (proj2 (Qeq_bool_iff lw hw) Heq).
    split; [|done].
    intros Hall. apply Forall_cons_1 in Hall as [Hf _]. destruct Hf. lra.
Qed.

(** X14.  The failures of [apply_scaling] once the four keys are
    present.  A zero [low_freq_factor], or a zero [high_freq_factor],
    raises [ZeroDivisionError] before any frequency is looked at, so
    even for an empty list.  When the two thresholds coincide, the call
    on non-zero frequencies raises [AssertionError] if some frequency
    has exactly the threshold wavelength and returns otherwise. *)
Theorem apply_scaling_failures (freqs : list Q) (rs : gmap string Q)
    (factor low high old : Q) :
  rs !! "factor"%string = Some factor ->
  rs !! "low_freq_factor"%string = Some low ->
  rs !! "high_freq_factor"%string = Some high ->
  rs !! "original_max_position_embeddings"%string = Some old ->
  (low == 0 -> apply_scaling freqs rs = Raise ZeroDivisionError) /\
  (high == 0 -> apply_scaling freqs rs = Raise ZeroDivisionError) /\
  (~ low == 0 -> ~ high == 0 -> old / low == old / high ->
   Forall (fun f => ~ f == 0) freqs ->
     (Exists (fun f => wavelen f == old / low) freqs ->
        apply_scaling freqs rs = Raise AssertionError) /\
     (Forall (fun f => ~ wavelen f == old / low) freqs ->
        exists out, apply_scaling freqs rs = Ret out)).
Proof.
  intros Hf Hl Hh Ho.
  assert (Hkeys : has_required_keys rs = true).
  { apply has_required_keys_present.
    intros key [<-|[<-|[<-|[<-|[]]]]]; by eexists. }
  split; [|split].
  - intros Hlow. unfold apply_scaling, getitem.
    rewrite Hkeys, Hf, Hl, Hh, Ho. simpl. by rewrite (py_div_zero _ _ Hlow).
  - intros Hhigh. unfold apply_scaling, getitem, py_div.
    rewrite Hkeys, Hf, Hl, Hh, Ho. simpl.
    rewrite (proj2 (Qeq_bool_iff high 0) Hhigh).
    by destruct (Qeq_bool low 0).
  - intros Hlow Hhigh Heq _.
    rewrite (apply_scaling_unfold _ _ _ _ _ _ Hf Hl Hh Ho Hlow Hhigh).
    destruct (scaling_loop_one_threshold factor low high old _ _ freqs [] Heq)
      as [Hret Hraise].
    by split.
Qed.

Lemma apply_scaling_failures_witness :
  apply_scaling [] Scalings.zero_low = Raise ZeroDivisionError /\
  apply_scaling [] Scalings.zero_high = Raise ZeroDivisionError /\
  apply_scaling [1; low_boundary_freq] Scalings.one_threshold = Raise AssertionError /\
  (exists out, apply_scaling [1; 1 # 10000] Scalings.one_threshold = Ret out).
Proof.
  split; [|split; [|split]].
  - apply (proj1 (apply_scaling_failures [] Scalings.zero_low 8 0 4 8192
                    eq_refl eq_refl eq_refl eq_refl)).
    reflexivity.
  - apply (proj1 (proj2 (apply_scaling_failures [] Scalings.zero_high 8 1 0 8192
                           eq_refl eq_refl eq_refl eq_refl))).
    reflexivity.
  - apply (proj2 (proj2 (apply_scaling_failures [1; low_boundary_freq]
                           Scalings.one_threshold 8 1 1 8192
                           eq_refl eq_refl eq_refl eq_refl)));
      try reflexivity; try (intros H; vm_compute in H; discriminate H).
    + repeat constructor; intros H; vm_compute in H; discriminate H.
    + apply Exists_cons_tl, Exists_cons_hd. vm_compute. reflexivity.
  - apply (proj2 (proj2 (apply_scaling_failures [1; 1 # 10000]
                           Scalings.one_threshold 8 1 1 8192
                           eq_refl eq_refl eq_refl eq_refl)));
      try reflexivity; try (intros H; vm_compute in H; discriminate H).
    + repeat constructor; intros H; vm_compute in H; discriminate H.
    + repeat constructor; intros H; vm_compute in H; discriminate H.
Defined.
End RopeMore.

Section RopeBounds.
Import Rope Spec.
Local Open Scope Q_scope.

Lemma div_by_factor_le (f factor : Q) : 0 < f -> 1 <= factor -> f / factor <= f.
Proof.
  intros Hf Hfac. apply Qle_shift_div_r; [lra|]. nra.
Qed.

Lemma smooth_in_unit (low high old f : Q) :
  0 < f -> 0 < old -> 0 < low -> low < high ->
  old / high <= wavelen f -> wavelen f <= old / low ->
  0 <= smooth low high old f <= 1.
Proof.
  intros Hf Hold Hlow Hhigh H1 H2.
  assert (Hw : 0 < wavelen f).
  { unfold wavelen. apply Qlt_shift_div_l; [done|].
    assert (0 < torch_pi) by done. lra. }
  assert (Hq1 : low <= old / wavelen f).
  { apply Qle_shift_div_l; [done|].
    apply (Qmult_le_l _ _ low) in H2; [|done].
    assert (E : low * (old / low) == old) by (field; lra).
    rewrite E in H2. lra. }
  assert (Hq2 : old / wavelen f <= high).
  { apply Qle_shift_div_r; [done|].
    apply (Qmult_le_l _ _ high) in H1; [|lra].
    assert (E : high * (old / high) == old) by (field; lra).
    rewrite E in H1. lra. }
  unfold smooth. split.
  - apply Qle_shift_div_l; lra.
  - apply Qle_shift_div_r; lra.
Qed.

Lemma interpolated_between (factor low high old f : Q) :
  0 < f -> 1 <= factor ->
  0 <= smooth low high old f <= 1 ->
  f / factor <= interpolated factor low high old f <= f.
Proof.
  intros Hf Hfac [Hs0 Hs1].
  pose proof (div_by_factor_le f factor Hf Hfac) as Hle.
  unfold interpolated.
  set (s := smooth low high old f) in *.
  assert (E : (1 - s) * f / factor == (1 - s) * (f / factor)) by (field; lra).
  rewrite E. set (g := f / factor) in *. split; nra.
Qed.

(** X15.  With a scale factor of at least one, positive thresholds in
    order ([0 < low < high], [0 < old]) and positive frequencies,
    [apply_scaling] returns one value per frequency, and every value
    lies between the frequency divided by the factor and the frequency
    itself: scaling never raises a frequency and never lowers it by
    more than the factor. *)
Theorem apply_scaling_between (freqs : list Q) (rs : gmap string Q)
    (factor low high old : Q) :
  rs !! "factor"%string = Some factor ->
  rs !! "low_freq_factor"%string = Some low ->
  rs !! "high_freq_factor"%string = Some high ->
  rs !! "original_max_position_embeddings"%string = Some old ->
  1 <= factor -> 0 < low -> low < high -> 0 < old ->
  Forall (fun f => 0 < f) freqs ->
  exists out,
    apply_scaling freqs rs = Ret out /\
    Forall2 (fun f r => f / factor <= r <= f) freqs out.
Proof.
  intros Hf Hl Hh Ho Hfac Hlow Hhigh Hold Hpos.
  assert (Hord : old / high < old / low).
  { apply Qlt_shift_div_l; [lra|].
    assert (E : old / high * low == old * (low / high)) by (field; lra).
    rewrite E.
    assert (low / high < 1) by (apply Qlt_shift_div_r; lra).
    nra. }
  rewrite (apply_scaling_unfold _ _ _ _ _ _ Hf Hl Hh Ho) by lra.
  destruct (scaling_loop_bands factor low high old freqs [] Hord)
    as (out & -> & Hout).
  exists out. split; [done|].
  clear Hf Hl Hh Ho. induction Hout as [|f r freqs out Hr Hout IH].
  - constructor.
  - apply Forall_cons_1 in Hpos as [Hfpos Hpos].
    constructor; [|by apply IH].
    destruct Hr as (Hkeep & Hdiv & Hmid).
    pose proof (div_by_factor_le f factor Hfpos Hfac) as Hle.
    destruct (Qlt_le_dec (wavelen f) (old / high)) as [H1|H1].
    { rewrite (Hkeep H1). lra. }
    destruct (Qlt_le_dec (old / low) (wavelen f)) as [H2|H2].
    { rewrite (Hdiv H2). lra. }
    rewrite (Hmid (conj H1 H2)).
    apply interpolated_between; [done|done|].
    by apply smooth_in_unit.
Qed.

Lemma apply_scaling_between_witness :
  exists out,
    apply_scaling [1; 1 # 1000; 1 # 10000] llama31_scaling = Ret out /\
    Forall2 (fun f r => f / 8 <= r <= f) [1; 1 # 1000; 1 # 10000] out.
Proof.
  apply (apply_scaling_between [1; 1 # 1000; 1 # 10000] llama31_scaling 8 1 4 8192);
    try reflexivity; try (vm_compute; discriminate).
  repeat constructor.
Defined.

Lemma base_freqs_length (fl : FloatOps) (n_elem : Z) (count : nat) (base : Q) :
  length (base_freqs fl n_elem count base) = count.
Proof. unfold base_freqs. by rewrite length_map, length_seq. Qed.

(** X16.  The shapes of the two rotary tables.  Whenever
    [precompute_freqs_cis] returns, with or without scaling, its table
    has one row per position, [n_elem // 2] columns and the two parts
    last; without scaling it returns for all non-negative sizes.
    [hf_precompute_freqs_cis] returns for all non-negative sizes, its
    table spans the frequencies twice, and the second half of every row
    repeats the first. *)
Theorem rotary_table_shapes (fl : FloatOps) (n_elem seq_len : Z) (base : Q)
    (rope_scaling : option (gmap string Q)) :
  (forall t, precompute_freqs_cis fl n_elem seq_len base rope_scaling = Ret t ->
     Tensor.shape t = [Z.to_nat seq_len; Z.to_nat (n_elem / 2); 2%nat]) /\
  ((0 <= n_elem)%Z -> (0 <= seq_len)%Z ->
     (exists t, precompute_freqs_cis fl n_elem seq_len base None = Ret t) /\
     exists t, hf_precompute_freqs_cis fl n_elem seq_len base rope_scaling = Ret t /\
       Tensor.shape t =
         [Z.to_nat seq_len; (2 * Z.to_nat ((n_elem + 1) / 2))%nat; 2%nat] /\
       forall p i c, (i < Z.to_nat ((n_elem + 1) / 2))%nat ->
         Tensor.data t [p; (Z.to_nat ((n_elem + 1) / 2) + i)%nat; c] =
         Tensor.data t [p; i; c]).
Proof.
  split.
  - intros t. unfold precompute_freqs_cis.
    destruct ((n_elem <? 0)%Z || (seq_len <? 0)%Z); [done|].
    destruct rope_scaling as [rs|]; simpl.
    + destruct (apply_scaling _ rs) as [out|] eqn:E; simpl; [|done].
      intros [= <-]. simpl.
      by rewrite (apply_scaling_length _ _ _ E), base_freqs_length.
    + intros [= <-]. simpl. by rewrite base_freqs_length.
  - intros Hn Hs.
    assert (E : (n_elem <? 0)%Z || (seq_len <? 0)%Z = false).
    { apply orb_false_iff. split; apply Z.ltb_ge; lia. }
    unfold precompute_freqs_cis, hf_precompute_freqs_cis. rewrite E. simpl.
    split; [by eexists|].
    eexists. split; [reflexivity|]. simpl. split.
    + rewrite length_app, base_freqs_length. f_equal. f_equal. lia.
    + intros p i c Hi.
      set (half := Z.to_nat ((n_elem + 1) / 2)) in *.
      set (freqs := base_freqs fl n_elem half base).
      assert (Hlen : length freqs = half) by apply base_freqs_length.
      assert (Hnth : nth (half + i) (freqs ++ freqs)%list 0 =
                     nth i (freqs ++ freqs)%list 0).
      { rewrite (app_nth2 freqs) by lia.
        rewrite (app_nth1 freqs) by lia.
        f_equal. lia. }
      by rewrite Hnth.
Qed.

(** On the Llama 3.1 parameters and the stand-in functions. *)
Example rotary_table_llama31 :
  match precompute_freqs_cis taylor_ops 8 16 500000 (Some llama31_scaling) with
  | Ret t => Tensor.shape t = [16; 4; 2]%nat
  | Raise _ => False
  end /\
  precompute_freqs_cis taylor_ops (-2) 16 500000 None = Raise RuntimeError.
Proof. split; vm_compute; reflexivity. Qed.
End RopeBounds.

Section FusionMore.
Import Fusion Spec.

Lemma in_bounds_indices (shp idx : list nat) :
  Tensor.in_bounds idx shp = true -> In idx (indices shp).
Proof.
  revert idx. induction shp as [|n shp IH]; intros [|i idx]; simpl; try done.
  - by left.
  - intros H. apply andb_prop in H as [Hi Hrest]. apply Nat.ltb_lt in Hi.
    apply in_flat_map. exists i. split; [apply in_seq; lia|].
    apply List.in_map. by apply IH.
Qed.

Lemma in_bounds_rank1 (idx : list nat) (n0 : nat) :
  Tensor.in_bounds idx [n0] = true -> exists i, idx = [i] /\ (i < n0)%nat.
Proof.
  destruct idx as [|i [|x rest]]; cbn [Tensor.in_bounds];
    rewrite ?andb_false_r, ?andb_true_r; try discriminate.
  intros Hi. apply Nat.ltb_lt in Hi. by exists i.
Qed.

Lemma Embedding_forward_unknown (e : Embedding) (tokens : Tensor Z) (idx : list nat) :
  Tensor.in_bounds idx (Tensor.shape tokens) = true ->
  Tensor.data tokens idx < 0 \/ Z.of_nat (num_embeddings e) <= Tensor.data tokens idx ->
  Embedding_forward e tokens = Raise IndexError.
Proof.
  intros Hb Hout. unfold Embedding_forward.
  destruct (forallb _ _) eqn:E; [|done].
  rewrite forallb_forall in E. specialize (E idx (in_bounds_indices _ _ Hb)).
  apply andb_prop in E as [H1 H2]. apply Z.leb_le in H1. apply Z.ltb_lt in H2. lia.
Qed.

(** X17.  Failures of [ConcateFusion.forward] that come before the
    decoder is called leave the decoder's state as it was: post tokens
    without an image raise [AssertionError]; an exception of the encoder
    is passed on; a token outside the embedding table raises
    [IndexError]. *)
Theorem forward_fails_before_decoder (D : Type) (self : ConcateFusion D)
    (tokens : Tensor Z) (input_pos : option (Tensor Z)) (st : D) :
  (forall post_tokens,
     forward D self tokens (Some post_tokens) None input_pos st =
       (Raise AssertionError, st)) /\
  (forall post_tokens encoder_input e,
     encoder D self (Tensor.unsqueeze0 (Tensor.unsqueeze0 encoder_input)) = Raise e ->
     forward D self tokens post_tokens (Some encoder_input) input_pos st =
       (Raise e, st)) /\
  (forall idx,
     Tensor.in_bounds idx (Tensor.shape tokens) = true ->
     Tensor.data tokens idx < 0 \/
       Z.of_nat (num_embeddings (tok_embeddings D self)) <= Tensor.data tokens idx ->
     forward D self tokens None None input_pos st = (Raise IndexError, st)).
Proof.
  split; [|split].
  - intros post_tokens. reflexivity.
  - intros post_tokens encoder_input e He.
    unfold forward, st_bind, st_lift. by rewrite He.
  - intros idx Hb Hout.
    unfold forward, st_bind, st_lift, _get_decoder_input. simpl.
    by rewrite (Embedding_forward_unknown _ _ _ Hb Hout).
Qed.

(** The three failures on the sample model. *)
Example forward_failures :
  forward unit sample_fusion FusionSamples.text_tokens (Some sample_post_tokens)
    None None tt = (Raise AssertionError, tt) /\
  forward unit FusionSamples.failing_encoder sample_pre_tokens None
    (Some sample_image) None tt = (Raise RuntimeError, tt) /\
  forward unit sample_fusion FusionSamples.unknown_tokens None None None tt =
    (Raise IndexError, tt).
Proof. repeat split; vm_compute; reflexivity. Qed.

(** X18.  Without an image the token embeddings get a new leading axis,
    so the decoder input of tokens of shape [n :: rest] has the shape
    [1 :: n :: rest ++ [dim]]: the prefill call runs the decoder on the
    positions [0 .. n - 1] and reports [n], the size of the first axis
    of [tokens], as the sequence length. *)
Theorem forward_text_only_prefill (D : Type) (self : ConcateFusion D)
    (tokens : Tensor Z) (n : nat) (rest : list nat) (st : D) :
  Tensor.shape tokens = n :: rest ->
  tokens_in_vocab (tok_embeddings D self) tokens ->
  exists embedded,
    Embedding_forward (tok_embeddings D self) tokens = Ret embedded /\
    Tensor.shape (Tensor.unsqueeze0 embedded) =
      1%nat :: n :: rest ++ [embedding_dim (tok_embeddings D self)] /\
    forward D self tokens None None None st =
      (match fst (decoder D self (Tensor.unsqueeze0 embedded) (Tensor.arange n) st) with
       | Ret logits => Ret (RTuple n logits)
       | Raise e => Raise e
       end,
       snd (decoder D self (Tensor.unsqueeze0 embedded) (Tensor.arange n) st)).
Proof.
  intros Hshape Hvocab.
  eexists. split; [by apply Embedding_forward_Ret|].
  split; [simpl; by rewrite Hshape|].
  unfold forward, st_bind, st_lift, _get_decoder_input. simpl.
  rewrite (Embedding_forward_Ret _ _ Hvocab). simpl. rewrite Hshape. simpl.
  by destruct (decoder D self _ _ st) as [[logits|e] st'].
Qed.

Lemma forward_text_only_prefill_witness :
  exists logits,
    forward unit sample_fusion FusionSamples.text_tokens None None None tt =
      (Ret (RTuple 7 logits), tt) /\
    Tensor.shape logits = [1; 7; 100]%nat.
Proof.
  destruct (forward_text_only_prefill unit sample_fusion FusionSamples.text_tokens
              7 [] tt) as (embedded & Hemb & _ & Hrun).
  - reflexivity.
  - intros idx Hb. apply in_bounds_rank1 in Hb as (i & -> & Hi). simpl. lia.
  - eexists. split; [exact Hrun|]. reflexivity.
Defined.

(** X19.  [_encoder_feature_select] takes the first hidden state of
    shape [1, 1, n0, n1, ...], drops its two leading axes and the first
    entry along the second remaining axis (the class token).  A first
    hidden state whose two leading axes hold more than one entry cannot
    be viewed without them ([RuntimeError]); an encoder without hidden
    states raises [IndexError]. *)
Theorem encoder_feature_select_spec (x h0 : Tensor Q) (hs : list (Tensor Q)) :
  (forall n0 n1 rest,
     Tensor.shape h0 = 1%nat :: 1%nat :: n0 :: n1 :: rest ->
     exists r,
       _encoder_feature_select (x, h0 :: hs) = Ret r /\
       Tensor.shape r = n0 :: (n1 - 1)%nat :: rest /\
       forall i0 i1 idx,
         Tensor.data r (i0 :: i1 :: idx) =
         Tensor.data h0 (0%nat :: 0%nat :: i0 :: S i1 :: idx)) /\
  (forall a b n0 rest,
     Tensor.shape h0 = a :: b :: n0 :: rest ->
     (a * b <> 1)%nat -> fold_right Nat.mul 1%nat (n0 :: rest) <> 0%nat ->
     _encoder_feature_select (x, h0 :: hs) = Raise RuntimeError) /\
  _encoder_feature_select (x, []) = Raise IndexError.
Proof.
  split; [|split].
  - intros n0 n1 rest Hshape.
    unfold _encoder_feature_select, view_drop2. simpl. rewrite Hshape. simpl.
    rewrite !Nat.add_0_r, Nat.eqb_refl. simpl.
    eexists. split; [reflexivity|]. split; [reflexivity|].
    intros i0 i1 idx. reflexivity.
  - intros a b n0 rest Hshape Hab Hrest.
    unfold _encoder_feature_select, view_drop2. cbn [snd res_bind].
    rewrite Hshape. cbn [drop].
    set (rest' := n0 :: rest) in *.
    change (fold_right Nat.mul 1%nat (a :: b :: rest'))
      with (a * (b * fold_right Nat.mul 1 rest'))%nat.
    destruct (_ =? _)%nat eqn:E; [|done].
    apply Nat.eqb_eq in E. exfalso. apply Hab.
    assert (E' : (a * b * fold_right Nat.mul 1 rest' = 1 * fold_right Nat.mul 1 rest')%nat)
      by lia.
    by apply Nat.mul_cancel_r in E'.
  - reflexivity.
Qed.

(** On the hidden state of the sample encoder, and on one holding two
    images. *)
Example encoder_feature_select_samples :
  match _encoder_feature_select (sample_image, [FusionSamples.hidden_state]) with
  | Ret r => Tensor.shape r = [1; 576; 3]%nat /\
             Tensor.data r [0; 0; 0]%nat = 1%Q /\
             Tensor.data r [0; 575; 2]%nat = 576%Q
  | Raise _ => False
  end /\
  _encoder_feature_select (sample_image, [FusionSamples.two_images]) =
    Raise RuntimeError.
Proof. split; [by vm_compute | reflexivity]. Qed.

(** X20.  With encoder features and no post tokens the decoder input is
    the embeddings of the tokens followed by the projected features
    along the sequence axis. *)
Theorem llava_decoder_input_no_post (D : Type) (self : ConcateFusion D)
    (tokens : Tensor Z) (encoder_output : Tensor Q) (nb n_pre n_img : nat) :
  Tensor.shape tokens = [nb; n_pre] ->
  Tensor.shape encoder_output =
    [nb; n_img; in_features (linear_1 (mm_projector D self))] ->
  in_features (linear_2 (mm_projector D self)) =
    out_features (linear_1 (mm_projector D self)) ->
  out_features (linear_2 (mm_projector D self)) =
    embedding_dim (tok_embeddings D self) ->
  tokens_in_vocab (tok_embeddings D self) tokens ->
  exists pre_img_embed image_embeds decoder_input,
    Embedding_forward (tok_embeddings D self) tokens = Ret pre_img_embed /\
    MultiModalProjector_forward (mm_projector D self) encoder_output = Ret image_embeds /\
    _get_decoder_input D self tokens (Some encoder_output) None = Ret decoder_input /\
    Tensor.shape decoder_input =
      [nb; (n_pre + n_img)%nat; embedding_dim (tok_embeddings D self)] /\
    forall b s d,
      Tensor.data decoder_input [b; s; d] =
      if (s <? n_pre)%nat then Tensor.data pre_img_embed [b; s; d]
      else Tensor.data image_embeds [b; (s - n_pre)%nat; d].
Proof.
  intros Htok Henc Hmid Hwidth Hvt.
  pose proof (Embedding_forward_Ret _ _ Hvt) as Epre.
  destruct (projector_shape3 _ _ _ _ Henc Hmid) as (img & Eimg & Simg).
  rewrite Hwidth in Simg.
  set (pre := Tensor.mk _ _) in Epre.
  assert (Spre : Tensor.shape pre = [nb; n_pre; embedding_dim (tok_embeddings D self)])
    by (subst pre; simpl; by rewrite Htok).
  clearbody pre.
  destruct (cat1_pair_shape3 _ _ _ _ _ _ Spre Simg) as (out & Eout & Sout & Dout).
  exists pre, img, out.
  split; [done|]. split; [done|]. split.
  { unfold _get_decoder_input. rewrite Epre, Eimg. simpl.
    rewrite Simg. simpl. exact Eout. }
  split; [done|]. exact Dout.
Qed.

Lemma llava_decoder_input_no_post_witness :
  exists decoder_input,
    _get_decoder_input unit sample_fusion sample_pre_tokens
      (Some sample_features) None = Ret decoder_input /\
    Tensor.shape decoder_input = [1; 606; 4]%nat.
Proof.
  destruct (llava_decoder_input_no_post unit sample_fusion sample_pre_tokens
              sample_features 1 30 576)
    as (pre & img & out & _ & _ & Hrun & Hshape & _).
  - reflexivity.
  - reflexivity.
  - reflexivity.
  - reflexivity.
  - intros idx Hb. apply in_bounds_rank2 in Hb as (b & i & -> & _ & Hi).
    simpl. lia.
  - exists out. split; [exact Hrun | exact Hshape].
Defined.
End FusionMore.

Section CheckpointFacts.
Import Decoder Checkpoint.

Lemma prefixed_ne (prefix a b : string) : a <> b -> prefix +:+ a <> prefix +:+ b.
Proof. intros Hne E. by apply String.app_inj in E. Qed.

Lemma split3_Ret {A} (x : Tensor A) (s0 s1 s2 : Z) (n : nat) (rest : list nat) :
  Tensor.shape x = n :: rest ->
  0 <= s0 -> 0 <= s1 -> 0 <= s2 -> s0 + s1 + s2 = Z.of_nat n ->
  split3 x s0 s1 s2 =
    Ret (narrow0 x 0 (Z.to_nat s0), narrow0 x (Z.to_nat s0) (Z.to_nat s1),
         narrow0 x (Z.to_nat (s0 + s1)) (Z.to_nat s2)).
Proof.
  intros Hshape H0 H1 H2 Hsum. unfold split3. rewrite Hshape.
  rewrite (proj2 (Z.ltb_ge s0 0)), (proj2 (Z.ltb_ge s1 0)),
    (proj2 (Z.ltb_ge s2 0)) by done.
  simpl. by rewrite (proj2 (Z.eqb_eq _ _) Hsum).
Qed.

Lemma split3_bad_sum {A} (x : Tensor A) (s0 s1 s2 : Z) (n : nat) (rest : list nat) :
  Tensor.shape x = n :: rest -> s0 + s1 + s2 <> Z.of_nat n ->
  split3 x s0 s1 s2 = Raise RuntimeError.
Proof.
  intros Hshape Hsum. unfold split3. rewrite Hshape.
  destruct ((s0 <? 0) || (s1 <? 0) || (s2 <? 0)); [done|].
  by rewrite (proj2 (Z.eqb_neq _ _) Hsum).
Qed.

(** X21.  A fused weight [<prefix>wqkv.weight] whose rows are the
    query rows, then the key rows, then the value rows is taken apart by
    [load_hook]: afterwards the fused key is gone, the three keys
    [wq], [wk], [wv] hold the three row blocks (joined again they are
    the fused weight), every other entry of the state dictionary is
    untouched, and running the hook once more changes nothing. *)
Theorem load_hook_unfuses (self : Attention) (prefix : string)
    (state_dict : gmap string (Tensor Q)) (wqkv : Tensor Q)
    (n : nat) (rest : list nat) :
  state_dict !! (prefix +:+ "wqkv.weight") = Some wqkv ->
  Tensor.shape wqkv = n :: rest ->
  0 <= n_heads self * head_dim self ->
  0 <= n_local_heads self * head_dim self ->
  n_heads self * head_dim self + 2 * (n_local_heads self * head_dim self) =
    Z.of_nat n ->
  exists wq wk wv state_dict',
    load_hook self prefix state_dict = (Ret tt, state_dict') /\
    state_dict' !! (prefix +:+ "wqkv.weight") = None /\
    state_dict' !! (prefix +:+ "wq.weight") = Some wq /\
    state_dict' !! (prefix +:+ "wk.weight") = Some wk /\
    state_dict' !! (prefix +:+ "wv.weight") = Some wv /\
    Tensor.shape wq = Z.to_nat (n_heads self * head_dim self) :: rest /\
    Tensor.shape wk = Z.to_nat (n_local_heads self * head_dim self) :: rest /\
    Tensor.shape wv = Z.to_nat (n_local_heads self * head_dim self) :: rest /\
    (forall i r,
       Tensor.data wqkv (i :: r) =
       let q := Z.to_nat (n_heads self * head_dim self) in
       let kv := Z.to_nat (n_local_heads self * head_dim self) in
       if (i <? q)%nat then Tensor.data wq (i :: r)
       else if (i <? q + kv)%nat then Tensor.data wk ((i - q)%nat :: r)
            else Tensor.data wv ((i - q - kv)%nat :: r)) /\
    (forall key,
       key <> prefix +:+ "wqkv.weight" -> key <> prefix +:+ "wq.weight" ->
       key <> prefix +:+ "wk.weight" -> key <> prefix +:+ "wv.weight" ->
       state_dict' !! key = state_dict !! key) /\
    load_hook self prefix state_dict' = (Ret tt, state_dict').
Proof.
  intros Hfused Hshape Hq Hkv Hsum.
  set (qs := n_heads self * head_dim self) in *.
  set (kvs := n_local_heads self * head_dim self) in *.
  assert (Hsplit := split3_Ret wqkv qs kvs kvs n rest Hshape Hq Hkv Hkv ltac:(lia)).
  assert (Hrun : load_hook self prefix state_dict =
    (Ret tt,
     <[prefix +:+ "wv.weight" := narrow0 wqkv (Z.to_nat (qs + kvs)) (Z.to_nat kvs)]>
       (<[prefix +:+ "wk.weight" := narrow0 wqkv (Z.to_nat qs) (Z.to_nat kvs)]>
          (<[prefix +:+ "wq.weight" := narrow0 wqkv 0 (Z.to_nat qs)]>
             (delete (prefix +:+ "wqkv.weight") state_dict))))).
  { unfold load_hook, st_bind, st_get, st_put, st_lift, setitem.
    rewrite Hfused. fold qs kvs. by rewrite Hsplit. }
  eexists _, _, _, _. split; [exact Hrun|].
  assert (Hgone : forall m : gmap string (Tensor Q),
    (<[prefix +:+ "wv.weight" := narrow0 wqkv (Z.to_nat (qs + kvs)) (Z.to_nat kvs)]>
       (<[prefix +:+ "wk.weight" := narrow0 wqkv (Z.to_nat qs) (Z.to_nat kvs)]>
          (<[prefix +:+ "wq.weight" := narrow0 wqkv 0 (Z.to_nat qs)]>
             (delete (prefix +:+ "wqkv.weight") m)))) !! (prefix +:+ "wqkv.weight")
    = None).
  { intros m. rewrite !lookup_insert_ne by (by apply prefixed_ne).
    apply lookup_delete_eq. }
  split; [apply Hgone|].
  split.
  { rewrite !lookup_insert_ne by (by apply prefixed_ne). apply lookup_insert_eq. }
  split.
  { rewrite lookup_insert_ne by (by apply prefixed_ne). apply lookup_insert_eq. }
  split; [apply lookup_insert_eq|].
  split; [simpl; by rewrite Hshape|].
  split; [simpl; by rewrite Hshape|].
  split; [simpl; by rewrite Hshape|].
  split.
  { intros i r. cbn zeta. cbn [narrow0 Tensor.data].
    destruct (Nat.ltb_spec i (Z.to_nat qs)); [done|].
    destruct (Nat.ltb_spec i (Z.to_nat qs + Z.to_nat kvs)).
    - do 2 f_equal. lia.
    - do 2 f_equal. lia. }
  split.
  { intros key H0 H1 H2 H3.
    rewrite !lookup_insert_ne by done. by apply lookup_delete_ne. }
  unfold load_hook, st_bind, st_get. by rewrite Hgone.
Qed.

Lemma load_hook_unfuses_witness :
  exists wq wk wv state_dict',
    load_hook sample_attention "layers.0.attention." sample_state_dict =
      (Ret tt, state_dict') /\
    state_dict' !! "layers.0.attention.wqkv.weight"%string = None /\
    state_dict' !! "layers.0.attention.wq.weight"%string = Some wq /\
    state_dict' !! "layers.0.attention.wk.weight"%string = Some wk /\
    state_dict' !! "layers.0.attention.wv.weight"%string = Some wv /\
    Tensor.shape wq = [8; 8]%nat /\
    Tensor.shape wk = [4; 8]%nat /\
    Tensor.shape wv = [4; 8]%nat.
Proof.
  destruct (load_hook_unfuses sample_attention "layers.0.attention."
              sample_state_dict sample_wqkv 16 [8%nat])
    as (wq & wk & wv & sd & Hrun & Hgone & Hwq & Hwk & Hwv & Sq & Sk & Sv & _).
  - reflexivity.
  - reflexivity.
  - simpl. lia.
  - simpl. lia.
  - reflexivity.
  - exists wq, wk, wv, sd. repeat split; assumption.
Defined.

(** X22.  What [load_hook] does otherwise.  A state dictionary without
    the fused key is left as it is.  A fused weight whose number of
    rows is not the sum of the three block sizes makes the hook raise
    [RuntimeError], and by then the fused weight has been removed from
    the caller's state dictionary: the failed call leaves it without
    the fused key and without the three separate keys it did not have
    before. *)
Theorem load_hook_no_split (self : Attention) (prefix : string)
    (state_dict : gmap string (Tensor Q)) :
  (state_dict !! (prefix +:+ "wqkv.weight") = None ->
     load_hook self prefix state_dict = (Ret tt, state_dict)) /\
  (forall wqkv n rest,
     state_dict !! (prefix +:+ "wqkv.weight") = Some wqkv ->
     Tensor.shape wqkv = n :: rest ->
     n_heads self * head_dim self + 2 * (n_local_heads self * head_dim self) <>
       Z.of_nat n ->
     load_hook self prefix state_dict =
       (Raise RuntimeError, delete (prefix +:+ "wqkv.weight") state_dict) /\
     forall key, delete (prefix +:+ "wqkv.weight") state_dict !! key =
                 if decide (key = prefix +:+ "wqkv.weight") then None
                 else state_dict !! key).
Proof.
  split.
  - intros Hnone. unfold load_hook, st_bind, st_get. by rewrite Hnone.
  - intros wqkv n rest Hfused Hshape Hsum. split.
    + unfold load_hook, st_bind, st_get, st_put, st_lift. rewrite Hfused.
      rewrite (split3_bad_sum wqkv _ _ _ n rest Hshape); [done|lia].
    + intros key. destruct (decide (key = prefix +:+ "wqkv.weight")) as [->|Hne].
      * apply lookup_delete_eq.
      * by apply lookup_delete_ne.
Qed.

(** A checkpoint whose fused weight is a row short loses it. *)
Example load_hook_short_weight :
  fst (load_hook sample_attention "layers.0.attention." short_state_dict) =
    Raise RuntimeError /\
  snd (load_hook sample_attention "layers.0.attention." short_state_dict)
    !! "layers.0.attention.wqkv.weight"%string = None /\
  snd (load_hook sample_attention "layers.0.attention." short_state_dict)
    !! "layers.0.attention.wq.weight"%string = None /\
  fst (load_hook sample_attention "model." short_state_dict) = Ret tt.
Proof. repeat split; vm_compute; reflexivity. Qed.
End CheckpointFacts.

Section RotaryFacts.
Import Rotary.
Local Open Scope Q_scope.

Lemma unravel_ravel3 (n0 n1 n2 i0 i1 i2 : nat) :
  (i1 < n1)%nat -> (i2 < n2)%nat ->
  unravel [n0; n1; n2] (ravel [1; n0; 1; n1; n2]%nat [0; i0; 0; i1; i2]%nat) =
    [i0; i1; i2].
Proof.
  intros H1 H2. cbn [unravel ravel numel fold_right].
  rewrite !Nat.mul_1_r, !Nat.add_0_r, !Nat.mul_0_l, !Nat.add_0_l, !Nat.mul_1_l.
  rewrite Nat.div_1_r.
  assert (E0 : ((i0 * (n1 * n2) + (i1 * n2 + i2)) / (n1 * n2) = i0)%nat).
  { symmetry. apply (Nat.div_unique _ _ _ (i1 * n2 + i2)); nia. }
  assert (E1 : ((i0 * (n1 * n2) + (i1 * n2 + i2)) mod (n1 * n2) = i1 * n2 + i2)%nat).
  { symmetry. apply (Nat.mod_unique _ _ i0); nia. }
  rewrite E0, E1.
  assert (E2 : ((i1 * n2 + i2) / n2 = i1)%nat).
  { symmetry. apply (Nat.div_unique _ _ _ i2); nia. }
  assert (E3 : ((i1 * n2 + i2) mod n2 = i2)%nat).
  { symmetry. apply (Nat.mod_unique _ _ i1); nia. }
  by rewrite E2, E3.
Qed.

Lemma view_table (freqs_cis : Tensor Q) (ns pairs : nat) :
  Tensor.shape freqs_cis = [ns; pairs; 2%nat] ->
  view freqs_cis [1; ns; 1; pairs; 2]%nat =
    Ret (Tensor.mk [1; ns; 1; pairs; 2]%nat
           (fun idx => Tensor.data freqs_cis
                         (unravel [ns; pairs; 2%nat]
                            (ravel [1; ns; 1; pairs; 2]%nat idx)))).
Proof.
  intros Hshape. unfold view. rewrite Hshape.
  replace (numel [ns; pairs; 2%nat] =? numel [1; ns; 1; pairs; 2]%nat)%nat with true;
    [done|].
  symmetry. apply Nat.eqb_eq. cbn [numel fold_right]. lia.
Qed.

Lemma pair_index (j : nat) :
  ((2 * j) / 2 = j /\ (2 * j) mod 2 = 0 /\
   (2 * j + 1) / 2 = j /\ (2 * j + 1) mod 2 = 1)%nat.
Proof.
  repeat split.
  - symmetry. apply (Nat.div_unique _ _ _ 0); lia.
  - symmetry. apply (Nat.mod_unique _ _ j); lia.
  - symmetry. apply (Nat.div_unique _ _ _ 1); lia.
  - symmetry. apply (Nat.mod_unique _ _ j); lia.
Qed.

Lemma rotation_norm (x0 x1 c s : Q) :
  c ^ 2 + s ^ 2 == 1 ->
  (x0 * c - x1 * s) ^ 2 + (x1 * c + x0 * s) ^ 2 == x0 ^ 2 + x1 ^ 2.
Proof.
  intros Hunit.
  assert (E : (x0 * c - x1 * s) ^ 2 + (x1 * c + x0 * s) ^ 2 ==
              (x0 ^ 2 + x1 ^ 2) * (c ^ 2 + s ^ 2)) by ring.
  rewrite E, Hunit. ring.
Qed.

Lemma apply_rotary_emb_entries (nb ns nh pairs : nat) (x : list nat -> Q)
    (freqs_cis : Tensor Q) :
  (0 < nb)%nat -> (0 < ns)%nat -> (0 < nh)%nat ->
  Tensor.shape freqs_cis = [ns; pairs; 2%nat] ->
  exists out,
    apply_rotary_emb nb ns nh (2 * pairs) x freqs_cis = Ret out /\
    Tensor.shape out = [nb; ns; nh; (2 * pairs)%nat] /\
    forall b s h j, (j < pairs)%nat ->
      Tensor.data out [b; s; h; (2 * j)%nat] =
        x [b; s; h; (2 * j)%nat] * Tensor.data freqs_cis [s; j; 0%nat]
        - x [b; s; h; (2 * j + 1)%nat] * Tensor.data freqs_cis [s; j; 1%nat] /\
      Tensor.data out [b; s; h; (2 * j + 1)%nat] =
        x [b; s; h; (2 * j + 1)%nat] * Tensor.data freqs_cis [s; j; 0%nat]
        + x [b; s; h; (2 * j)%nat] * Tensor.data freqs_cis [s; j; 1%nat].
Proof.
  intros Hb Hs Hh Hshape.
  assert (Hknown : (nb * ns * nh * 2 <> 0)%nat) by nia.
  assert (Hnumel : (nb * ns * nh * (2 * pairs) = pairs * (nb * ns * nh * 2))%nat) by lia.
  unfold apply_rotary_emb.
  rewrite (proj2 (Nat.eqb_neq _ _) Hknown).
  rewrite Hnumel, Nat.Div0.mod_mul, Nat.div_mul by done.
  cbn [Nat.eqb negb]. rewrite (view_table _ _ _ Hshape). cbn [res_bind].
  eexists. split; [reflexivity|]. split.
  { cbn [Tensor.shape]. do 4 f_equal. lia. }
  intros b s h j Hj.
  destruct (pair_index j) as (E0 & E1 & E2 & E3).
  cbn [Tensor.data]. rewrite E0, E1, E2, E3.
  cbn [Nat.eqb]. rewrite !unravel_ravel3 by lia.
  rewrite Nat.add_0_r. split; reflexivity.
Qed.

(** X23.  [apply_rotary_emb] with a table of one cosine/sine pair per
    position and per pair of coordinates: it returns a tensor of the
    shape of [x] in which the coordinates [2j] and [2j + 1] of every
    head are the rotation of the same two coordinates of [x] by the
    table entry of the position; when the entry is a point of the unit
    circle the length of the pair is unchanged. *)
Theorem apply_rotary_emb_rotation (nb ns nh pairs : nat) (x : list nat -> Q)
    (freqs_cis : Tensor Q) :
  (0 < nb)%nat -> (0 < ns)%nat -> (0 < nh)%nat ->
  Tensor.shape freqs_cis = [ns; pairs; 2%nat] ->
  exists out,
    apply_rotary_emb nb ns nh (2 * pairs) x freqs_cis = Ret out /\
    Tensor.shape out = [nb; ns; nh; (2 * pairs)%nat] /\
    forall b s h j, (j < pairs)%nat ->
      let c := Tensor.data freqs_cis [s; j; 0%nat] in
      let sn := Tensor.data freqs_cis [s; j; 1%nat] in
      let x0 := x [b; s; h; (2 * j)%nat] in
      let x1 := x [b; s; h; (2 * j + 1)%nat] in
      Tensor.data out [b; s; h; (2 * j)%nat] = x0 * c - x1 * sn /\
      Tensor.data out [b; s; h; (2 * j + 1)%nat] = x1 * c + x0 * sn /\
      (c ^ 2 + sn ^ 2 == 1 ->
       Tensor.data out [b; s; h; (2 * j)%nat] ^ 2 +
       Tensor.data out [b; s; h; (2 * j + 1)%nat] ^ 2 == x0 ^ 2 + x1 ^ 2).
Proof.
  intros Hb Hs Hh Hshape.
  destruct (apply_rotary_emb_entries nb ns nh pairs x freqs_cis Hb Hs Hh Hshape)
    as (out & Hrun & Hout & Hdata).
  exists out. split; [done|]. split; [done|].
  intros b s h j Hj. cbv zeta.
  destruct (Hdata b s h j Hj) as [E0 E1]. rewrite E0, E1.
  split; [reflexivity|]. split; [reflexivity|]. apply rotation_norm.
Qed.

Lemma apply_rotary_emb_rotation_witness :
  exists out,
    apply_rotary_emb 1 2 1 4 sample_q sample_table = Ret out /\
    Tensor.shape out = [1; 2; 1; 4]%nat.
Proof.
  destruct (apply_rotary_emb_rotation 1 2 1 2 sample_q sample_table)
    as (out & Hrun & Hshape & _).
  - lia.
  - lia.
  - lia.
  - reflexivity.
  - exists out. split; [exact Hrun | exact Hshape].
Defined.

(** The first pair of the second position of [sample_q], (5, 6), turned
    by (3/5, 4/5). *)
Example apply_rotary_emb_sample :
  match apply_rotary_emb 1 2 1 4 sample_q sample_table with
  | Ret out => Tensor.data out [0; 1; 0; 0]%nat == - (9 # 5) /\
               Tensor.data out [0; 1; 0; 1]%nat == 38 # 5
  | Raise _ => False
  end.
Proof. vm_compute. done. Qed.

(** X24.  [apply_rotary_emb] returns exactly when the input is not
    empty along batch, positions and heads, the head width is even, and
    the table has as many elements as one head has over all positions;
    it raises [RuntimeError] otherwise.  The result has the shape of
    the input. *)
Theorem apply_rotary_emb_returns (nb ns nh nd : nat) (x : list nat -> Q)
    (freqs_cis : Tensor Q) :
  ((nb * ns * nh)%nat = 0%nat ->
     apply_rotary_emb nb ns nh nd x freqs_cis = Raise RuntimeError) /\
  ((nd mod 2)%nat = 1%nat ->
     apply_rotary_emb nb ns nh nd x freqs_cis = Raise RuntimeError) /\
  (numel (Tensor.shape freqs_cis) <> (ns * nd)%nat ->
     apply_rotary_emb nb ns nh nd x freqs_cis = Raise RuntimeError) /\
  ((nb * ns * nh)%nat <> 0%nat -> (nd mod 2)%nat = 0%nat ->
   numel (Tensor.shape freqs_cis) = (ns * nd)%nat ->
     exists out, apply_rotary_emb nb ns nh nd x freqs_cis = Ret out /\
                 Tensor.shape out = [nb; ns; nh; nd]).
Proof.
  unfold apply_rotary_emb.
  destruct (Nat.eqb_spec (nb * ns * nh * 2) 0) as [E0|E0].
  { split; [done|]. split; [done|]. split; [done|]. intros Hne. lia. }
  assert (Hne : (nb * ns * nh)%nat <> 0%nat) by lia.
  rewrite Nat.Div0.mul_mod_distr_l, Nat.Div0.div_mul_cancel_l by done.
  pose proof (Nat.div_mod_eq nd 2) as Hdiv.
  pose proof (Nat.mod_upper_bound nd 2 ltac:(done)) as Hmod.
  destruct (Nat.eqb_spec (nb * ns * nh * (nd mod 2)) 0) as [E1|E1]; cbn [negb].
  2:{ split; [done|]. split; [done|]. split; [done|].
      intros _ Hev. rewrite Hev in E1. lia. }
  assert (Heven : (nd mod 2 = 0)%nat) by nia.
  assert (Hnd : (nd / 2 * 2 = nd)%nat) by lia.
  unfold view.
  assert (Hnumel : numel [1; ns; 1; nd / 2; 2]%nat = (ns * nd)%nat).
  { cbn [numel fold_right]. nia. }
  rewrite Hnumel.
  destruct (Nat.eqb_spec (numel (Tensor.shape freqs_cis)) (ns * nd)) as [E2|E2];
    cbn [res_bind].
  - split; [intros; lia|]. split; [intros; lia|]. split; [done|].
    intros _ _ _. eexists. split; [reflexivity|].
    cbn [Tensor.shape]. by rewrite Hnd.
  - split; [intros; lia|]. split; [done|]. split; [done|].
    intros _ _ E. by destruct E2.
Qed.

(** An odd head width, and a table of the wrong size. *)
Example apply_rotary_emb_rejects :
  apply_rotary_emb 1 2 1 3 sample_q sample_table = Raise RuntimeError /\
  apply_rotary_emb 1 2 1 2 sample_q sample_table = Raise RuntimeError /\
  apply_rotary_emb 0 2 1 4 sample_q sample_table = Raise RuntimeError.
Proof. repeat split; reflexivity. Qed.

Lemma removelast_snoc {A} (l : list A) (a : A) : removelast (l ++ [a]) = l.
Proof. apply List.removelast_last. Qed.

Lemma List_last_snoc {A} (l : list A) (a d : A) : List.last (l ++ [a]) d = a.
Proof. apply List.last_last. Qed.

(** X25.  On an even width [rotate_half] applied twice is the
    negation: the result has the shape of [x] and every entry is the
    opposite of the entry of [x]. *)
Theorem rotate_half_twice (x : Tensor Q) (pre : list nat) (half : nat) :
  Tensor.shape x = pre ++ [(2 * half)%nat] ->
  exists y z,
    rotate_half x = Ret y /\ rotate_half y = Ret z /\
    Tensor.shape y = Tensor.shape x /\ Tensor.shape z = Tensor.shape x /\
    forall idx d, (d < 2 * half)%nat ->
      Tensor.data z (idx ++ [d]) = - Tensor.data x (idx ++ [d]).
Proof.
  intros Hshape.
  assert (Hhalf : ((2 * half) / 2 = half)%nat) by apply pair_index.
  assert (Hw : (2 * half - half + half = 2 * half)%nat) by lia.
  assert (Hy : rotate_half x =
    Ret (Tensor.mk (pre ++ [(2 * half)%nat])
           (fun idx =>
              let d := List.last idx 0%nat in
              if (d <? 2 * half - half)%nat
              then - Tensor.data x (removelast idx ++ [(half + d)%nat])
              else Tensor.data x (removelast idx ++ [(d - (2 * half - half))%nat])))).
  { unfold rotate_half. rewrite Hshape, last_snoc, removelast_snoc, Hhalf.
    by rewrite Hw. }
  eexists _, _. split; [exact Hy|]. split.
  { unfold rotate_half. cbn [Tensor.shape Tensor.data].
    rewrite last_snoc, removelast_snoc, Hhalf. reflexivity. }
  split; [by rewrite Hshape|]. split; [cbn [Tensor.shape]; by rewrite Hw, Hshape|].
  intros idx d Hd. cbn [Tensor.data]. cbv zeta.
  repeat rewrite ?removelast_snoc, ?List_last_snoc.
  destruct (Nat.ltb_spec d (2 * half - half)) as [H1|H1].
  - destruct (Nat.ltb_spec (half + d) (2 * half - half)); [lia|].
    by replace (half + d - (2 * half - half))%nat with d by lia.
  - destruct (Nat.ltb_spec (d - (2 * half - half)) (2 * half - half)); [|lia].
    by replace (half + (d - (2 * half - half)))%nat with d by lia.
Qed.

Lemma rotate_half_twice_witness :
  exists y z,
    rotate_half (Tensor.mk [1; 2; 1; 4]%nat sample_q) = Ret y /\
    rotate_half y = Ret z /\
    Tensor.data z [0; 1; 0; 2]%nat = - sample_q [0; 1; 0; 2]%nat.
Proof.
  destruct (rotate_half_twice (Tensor.mk [1; 2; 1; 4]%nat sample_q) [1; 2; 1]%nat 2)
    as (y & z & Hy & Hz & _ & _ & Hdata).
  - reflexivity.
  - exists y, z. split; [exact Hy|]. split; [exact Hz|].
    apply (Hdata [0; 1; 0]%nat 2%nat). lia.
Defined.

Lemma along_in (size i : nat) : (i < size)%nat -> along size i = i.
Proof. unfold along. destruct (Nat.eqb_spec size 1); lia. Qed.

Lemma broadcast_dim_same (n : nat) : broadcast_dim n n = Ret n.
Proof. unfold broadcast_dim. by rewrite Nat.eqb_refl. Qed.

Lemma hf_norm (x0 x1 c s : Q) :
  c ^ 2 + s ^ 2 == 1 ->
  (x0 * c + - x1 * s) ^ 2 + (x1 * c + x0 * s) ^ 2 == x0 ^ 2 + x1 ^ 2.
Proof.
  intros Hunit.
  assert (E : (x0 * c + - x1 * s) ^ 2 + (x1 * c + x0 * s) ^ 2 ==
              (x0 ^ 2 + x1 ^ 2) * (c ^ 2 + s ^ 2)) by ring.
  rewrite E, Hunit. ring.
Qed.

Lemma hf_apply_rotary_emb_entries (nb ns nh half : nat)
    (x freq_cis : list nat -> Q) :
  exists out,
    hf_apply_rotary_emb nb ns nh (2 * half) x ns (2 * half) 2 freq_cis = Ret out /\
    Tensor.shape out = [nb; ns; nh; (2 * half)%nat] /\
    forall b s h j, (s < ns)%nat -> (j < half)%nat ->
      Tensor.data out [b; s; h; j] =
        x [b; s; h; j] * freq_cis [s; j; 0%nat]
        + - x [b; s; h; (half + j)%nat] * freq_cis [s; j; 1%nat] /\
      Tensor.data out [b; s; h; (half + j)%nat] =
        x [b; s; h; (half + j)%nat] * freq_cis [s; (half + j)%nat; 0%nat] +
        x [b; s; h; j] * freq_cis [s; (half + j)%nat; 1%nat].
Proof.
  destruct (pair_index half) as (Hhalf & _).
  remember (2 * half)%nat as nd eqn:End.
  unfold hf_apply_rotary_emb. cbn [Nat.ltb Nat.leb].
  rewrite !broadcast_dim_same. cbn [res_bind].
  unfold rotate_half. cbn [Tensor.shape last removelast app res_bind].
  rewrite Hhalf.
  eexists. split; [reflexivity|]. split; [reflexivity|].
  intros b s h j Hs Hj. cbn [Tensor.data List.last removelast app].
  rewrite !(along_in ns s Hs), !(along_in nd j), !(along_in nd (half + j)) by lia.
  destruct (Nat.ltb_spec j (nd - half)); [|lia].
  destruct (Nat.ltb_spec (half + j) (nd - half)); [lia|].
  replace (half + j - (nd - half))%nat with j by lia.
  split; reflexivity.
Qed.

(** X26.  [hf_apply_rotary_emb] with a table of one row per position
    over the full head width [2 * half]: the result has the shape of
    [x], and the coordinates [j] and [half + j] of every head are
    combined with each other, [x_j * cos_j - x_(half+j) * sin_j] and
    [x_(half+j) * cos_(half+j) + x_j * sin_(half+j)].  When the two halves of the
    table row agree and hold a point of the unit circle this is a
    rotation and keeps the length of the pair.  A table whose last
    axis has fewer than two entries raises [IndexError]; a number of
    rows or a width that does not broadcast raises [RuntimeError]. *)
Theorem hf_apply_rotary_emb_rotation (nb ns nh half : nat)
    (x freq_cis : list nat -> Q) :
  (exists out,
     hf_apply_rotary_emb nb ns nh (2 * half) x ns (2 * half) 2 freq_cis = Ret out /\
     Tensor.shape out = [nb; ns; nh; (2 * half)%nat] /\
     forall b s h j, (s < ns)%nat -> (j < half)%nat ->
       let c := freq_cis [s; j; 0%nat] in
       let sn := freq_cis [s; j; 1%nat] in
       let x0 := x [b; s; h; j] in
       let x1 := x [b; s; h; (half + j)%nat] in
       Tensor.data out [b; s; h; j] = x0 * c + - x1 * sn /\
       Tensor.data out [b; s; h; (half + j)%nat] =
         x1 * freq_cis [s; (half + j)%nat; 0%nat] +
         x0 * freq_cis [s; (half + j)%nat; 1%nat] /\
       (freq_cis [s; (half + j)%nat; 0%nat] = c ->
        freq_cis [s; (half + j)%nat; 1%nat] = sn ->
        c ^ 2 + sn ^ 2 == 1 ->
        Tensor.data out [b; s; h; j] ^ 2 +
        Tensor.data out [b; s; h; (half + j)%nat] ^ 2 == x0 ^ 2 + x1 ^ 2)) /\
  (forall fs fd fc, (fc < 2)%nat ->
     hf_apply_rotary_emb nb ns nh (2 * half) x fs fd fc freq_cis = Raise IndexError) /\
  (forall fs fd fc, (2 <= fc)%nat ->
     (ns <> fs /\ ns <> 1%nat /\ fs <> 1%nat) \/
     (ns = fs /\ (2 * half)%nat <> fd /\ (2 * half)%nat <> 1%nat /\ fd <> 1%nat) ->
     hf_apply_rotary_emb nb ns nh (2 * half) x fs fd fc freq_cis = Raise RuntimeError).
Proof.
  split; [|split].
  - destruct (hf_apply_rotary_emb_entries nb ns nh half x freq_cis)
      as (out & Hrun & Hout & Hdata).
    exists out. split; [done|]. split; [done|].
    intros b s h j Hs Hj. cbv zeta.
    destruct (Hdata b s h j Hs Hj) as [E0 E1]. rewrite E0, E1.
    split; [reflexivity|]. split; [reflexivity|].
    intros -> -> Hunit. by apply hf_norm.
  - intros fs fd fc Hfc. unfold hf_apply_rotary_emb.
    destruct fc as [|[|fc]]; [done | done | lia].
  - intros fs fd fc Hfc Hbad. unfold hf_apply_rotary_emb.
    destruct fc as [|[|fc]]; [lia | lia |]. cbn [Nat.ltb Nat.leb].
    unfold broadcast_dim.
    destruct Hbad as [(H1 & H2 & H3) | (-> & H1 & H2 & H3)].
    + by rewrite (proj2 (Nat.eqb_neq _ _) H1), (proj2 (Nat.eqb_neq _ _) H2),
        (proj2 (Nat.eqb_neq _ _) H3).
    + rewrite Nat.eqb_refl. cbn [res_bind].
      by rewrite (proj2 (Nat.eqb_neq _ _) H1), (proj2 (Nat.eqb_neq _ _) H2),
        (proj2 (Nat.eqb_neq _ _) H3).
Qed.

(** The pair (1, 3) of the first position of [sample_q], by the HF
    convention, turned by (3/5, 4/5); a table without a sine entry. *)
Example hf_apply_rotary_emb_sample :
  match hf_apply_rotary_emb 1 2 1 4 sample_q 2 4 2
          (fun idx => if (List.last idx 0 =? 0)%nat then 3 # 5 else 4 # 5) with
  | Ret out => Tensor.data out [0; 0; 0; 0]%nat == - (9 # 5) /\
               Tensor.data out [0; 0; 0; 2]%nat == 13 # 5
  | Raise _ => False
  end /\
  hf_apply_rotary_emb 1 2 1 4 sample_q 2 4 1 (fun _ => 1) = Raise IndexError /\
  hf_apply_rotary_emb 1 2 1 4 sample_q 3 4 2 (fun _ => 1) = Raise RuntimeError.
Proof. split; [by vm_compute | split; reflexivity]. Qed.

Lemma half_of_even (pairs : nat) :
  (Z.of_nat (2 * pairs) / 2 = Z.of_nat pairs)%Z /\
  ((Z.of_nat (2 * pairs) + 1) / 2 = Z.of_nat pairs)%Z.
Proof.
  split.
  - symmetry. apply (Z.div_unique _ _ _ 0); lia.
  - symmetry. apply (Z.div_unique _ _ _ 1); lia.
Qed.

(** X27.  The tables and their use fit together.  For cosine and sine
    functions on the unit circle, the table of [precompute_freqs_cis]
    for [ns] positions and the head width [2 * pairs] is accepted by
    [apply_rotary_emb] for inputs of [ns] positions, and the table of
    [hf_precompute_freqs_cis] by [hf_apply_rotary_emb]; in both cases
    every rotated pair of coordinates keeps its length: the pairs
    [(2j, 2j + 1)] in the first convention, [(j, pairs + j)] in the
    second. *)
Theorem rotary_tables_keep_length (fl : Rope.FloatOps) (nb ns nh pairs : nat)
    (x : list nat -> Q) (base : Q) :
  (forall a, Rope.f_cos fl a ^ 2 + Rope.f_sin fl a ^ 2 == 1) ->
  (0 < nb)%nat -> (0 < ns)%nat -> (0 < nh)%nat ->
  (exists table out,
     Rope.precompute_freqs_cis fl (Z.of_nat (2 * pairs)) (Z.of_nat ns) base None =
       Ret table /\
     apply_rotary_emb nb ns nh (2 * pairs) x table = Ret out /\
     forall b s h j, (j < pairs)%nat ->
       Tensor.data out [b; s; h; (2 * j)%nat] ^ 2 +
       Tensor.data out [b; s; h; (2 * j + 1)%nat] ^ 2 ==
       x [b; s; h; (2 * j)%nat] ^ 2 + x [b; s; h; (2 * j + 1)%nat] ^ 2) /\
  (exists table out,
     Rope.hf_precompute_freqs_cis fl (Z.of_nat (2 * pairs)) (Z.of_nat ns) base None =
       Ret table /\
     Tensor.shape table = [ns; (2 * pairs)%nat; 2%nat] /\
     hf_apply_rotary_emb nb ns nh (2 * pairs) x ns (2 * pairs) 2 (Tensor.data table) =
       Ret out /\
     forall b s h j, (s < ns)%nat -> (j < pairs)%nat ->
       Tensor.data out [b; s; h; j] ^ 2 +
       Tensor.data out [b; s; h; (pairs + j)%nat] ^ 2 ==
       x [b; s; h; j] ^ 2 + x [b; s; h; (pairs + j)%nat] ^ 2).
Proof.
  intros Hunit Hb Hs Hh.
  destruct (half_of_even pairs) as [Hdiv Hdiv1].
  assert (Hguard : (Z.of_nat (2 * pairs) <? 0)%Z || (Z.of_nat ns <? 0)%Z = false).
  { apply orb_false_iff. split; apply Z.ltb_ge; lia. }
  split.
  - unfold Rope.precompute_freqs_cis. rewrite Hguard. cbn [res_bind].
    rewrite Hdiv, !Nat2Z.id.
    set (freqs := Rope.base_freqs fl _ pairs base).
    set (table := Tensor.mk _ _).
    assert (Hshape : Tensor.shape table = [ns; pairs; 2%nat]).
    { subst table. cbn [Tensor.shape]. subst freqs.
      by rewrite base_freqs_length. }
    destruct (apply_rotary_emb_entries nb ns nh pairs x table Hb Hs Hh Hshape)
      as (out & Hrun & _ & Hdata).
    exists table, out. split; [done|]. split; [done|].
    intros b s h j Hj. destruct (Hdata b s h j Hj) as [E0 E1].
    rewrite E0, E1. apply rotation_norm.
    subst table. cbn [Tensor.data Nat.eqb]. apply Hunit.
  - unfold Rope.hf_precompute_freqs_cis. rewrite Hguard.
    rewrite Hdiv1, !Nat2Z.id.
    set (freqs := Rope.base_freqs fl _ pairs base).
    assert (Hlen : length freqs = pairs) by apply base_freqs_length.
    set (table := Tensor.mk _ _).
    destruct (hf_apply_rotary_emb_entries nb ns nh pairs x (Tensor.data table))
      as (out & Hrun & _ & Hdata).
    exists table, out. split; [done|]. split.
    { subst table. cbn [Tensor.shape]. rewrite length_app, Hlen.
      do 2 f_equal. lia. }
    split; [done|].
    intros b s h j Hs' Hj. destruct (Hdata b s h j Hs' Hj) as [E0 E1].
    rewrite E0, E1.
    assert (Hnth : nth (pairs + j) (freqs ++ freqs)%list 0 =
                   nth j (freqs ++ freqs)%list 0).
    { rewrite (app_nth2 freqs) by lia. rewrite (app_nth1 freqs) by lia.
      f_equal. lia. }
    subst table. cbn [Tensor.data Nat.eqb]. rewrite Hnth.
    apply hf_norm. apply Hunit.
Qed.

Lemma circle_ops_unit (a : Q) :
  Rope.f_cos circle_ops a ^ 2 + Rope.f_sin circle_ops a ^ 2 == 1.
Proof.
  cbn [circle_ops Rope.f_cos Rope.f_sin].
  assert (H : ~ 1 + a * a == 0) by nra.
  field. exact H.
Qed.

Lemma rotary_tables_keep_length_witness :
  exists table out,
    Rope.precompute_freqs_cis circle_ops 4 2 10000 None = Ret table /\
    apply_rotary_emb 1 2 1 4 sample_q table = Ret out /\
    Tensor.data out [0; 1; 0; 0]%nat ^ 2 + Tensor.data out [0; 1; 0; 1]%nat ^ 2 ==
    sample_q [0; 1; 0; 0]%nat ^ 2 + sample_q [0; 1; 0; 1]%nat ^ 2.
Proof.
  destruct (rotary_tables_keep_length circle_ops 1 2 1 2 sample_q 10000)
    as [(table & out & Htable & Hrun & Hnorm) _].
  - exact circle_ops_unit.
  - lia.
  - lia.
  - lia.
  - exists table, out. split; [exact Htable|]. split; [exact Hrun|].
    apply (Hnorm 0%nat 1%nat 0%nat 0%nat). lia.
Defined.
End RotaryFacts.

Section PreprocessFacts.
Import Preprocess.
Local Open Scope Z_scope.

(** Floor and ceiling of a half: the two margins of one axis. *)
Lemma margins (target size : Z) :
  let lo := (target - size) / 2 in
  let hi := - ((target - size) / -2) in
  lo + size + hi = target /\ 0 <= hi - lo <= 1 /\
  (0 <= lo <-> size <= target) /\ (size <= target -> 0 <= hi).
Proof.
  cbv zeta.
  assert (Hhi : - ((target - size) / -2) = (target - size + 1) / 2).
  { replace (-2) with (- (2)) by done.
    pose proof (Z.div_mod (target - size) (- (2)) ltac:(done)) as H1.
    pose proof (Z.mod_neg_bound (target - size) (- (2)) ltac:(done)) as H2.
    apply (Z.div_unique _ _ _ (target - size + 1 - 2 * - ((target - size) / - (2))));
      lia. }
  rewrite Hhi.
  pose proof (Z.div_mod (target - size) 2 ltac:(done)) as H1.
  pose proof (Z.mod_pos_bound (target - size) 2 ltac:(done)) as H2.
  pose proof (Z.div_mod (target - size + 1) 2 ltac:(done)) as H3.
  pose proof (Z.mod_pos_bound (target - size + 1) 2 ltac:(done)) as H4.
  repeat split; lia.
Qed.

Lemma check_true (c : bool) : c = true -> _check c = Ret tt.
Proof. by intros ->. Qed.

(** An image that fits passes the four checks, and the padded image
    has the size of the canvas. *)
Lemma image_preprocess_checks (normalize : Tensor Q -> list Q -> list Q -> res (Tensor Q))
    (nc height width : nat) (img : list nat -> Q) (target_h target_w : Z)
    (rescale_factor : Q) (image_mean image_std : list Q) :
  Z.of_nat height <= target_h -> Z.of_nat width <= target_w ->
  exists scaled,
    image_preprocess normalize nc height width img target_h target_w
      rescale_factor image_mean image_std =
      (let? normed := normalize scaled image_mean image_std in
       Ret (Tensor.unsqueeze0 normed)) /\
    Tensor.shape scaled = [nc; Z.to_nat target_h; Z.to_nat target_w] /\
    forall c y x,
      Tensor.data scaled [c; y; x] =
      let y' := Z.of_nat y - (target_h - Z.of_nat height) / 2 in
      let x' := Z.of_nat x - (target_w - Z.of_nat width) / 2 in
      ((if (0 <=? y') && (y' <? Z.of_nat height) &&
           (0 <=? x') && (x' <? Z.of_nat width)
        then img [c; Z.to_nat y'; Z.to_nat x']
        else 0%Q) * rescale_factor)%Q.
Proof.
  intros Hh Hw.
  destruct (margins target_h (Z.of_nat height)) as (Hsum_h & Hdiff_h & Hlo_h & Hhi_h).
  destruct (margins target_w (Z.of_nat width)) as (Hsum_w & Hdiff_w & Hlo_w & Hhi_w).
  unfold image_preprocess.
  rewrite !check_true by (apply Z.leb_le; tauto).
  cbn [res_bind]. unfold pad.
  replace (Z.of_nat height + (target_h - Z.of_nat height) / 2 +
           - ((target_h - Z.of_nat height) / -2)) with target_h by lia.
  replace (Z.of_nat width + (target_w - Z.of_nat width) / 2 +
           - ((target_w - Z.of_nat width) / -2)) with target_w by lia.
  rewrite (proj2 (Z.ltb_ge target_h 0)), (proj2 (Z.ltb_ge target_w 0)) by lia.
  cbn [orb res_bind].
  eexists. split; [reflexivity|]. split; [reflexivity|].
  intros c y x. reflexivity.
Qed.

(** X28.  An image no larger than the canvas is centred on it by
    [image_preprocess]: what is handed to the normalisation has
    exactly the shape [nc, target_h, target_w], holds the pixels of the
    image times the rescaling factor, shifted by the left and top
    margins, and zero everywhere else; left and top margins are half of
    the free space rounded down, right and bottom margins are the rest,
    at most one more.  The result is the normalised image with a
    leading axis of size one. *)
Theorem image_preprocess_centres
    (normalize : Tensor Q -> list Q -> list Q -> res (Tensor Q))
    (nc height width : nat) (img : list nat -> Q) (target_h target_w : Z)
    (rescale_factor : Q) (image_mean image_std : list Q) :
  Z.of_nat height <= target_h -> Z.of_nat width <= target_w ->
  let t_pad := (target_h - Z.of_nat height) / 2 in
  let l_pad := (target_w - Z.of_nat width) / 2 in
  let b_pad := target_h - Z.of_nat height - t_pad in
  let r_pad := target_w - Z.of_nat width - l_pad in
  0 <= t_pad <= b_pad /\ b_pad <= t_pad + 1 /\
  0 <= l_pad <= r_pad /\ r_pad <= l_pad + 1 /\
  exists scaled,
    image_preprocess normalize nc height width img target_h target_w
      rescale_factor image_mean image_std =
      (let? normed := normalize scaled image_mean image_std in
       Ret (Tensor.unsqueeze0 normed)) /\
    Tensor.shape scaled = [nc; Z.to_nat target_h; Z.to_nat target_w] /\
    (forall c y x, (y < height)%nat -> (x < width)%nat ->
       Tensor.data scaled [c; (Z.to_nat t_pad + y)%nat; (Z.to_nat l_pad + x)%nat] =
       (img [c; y; x] * rescale_factor)%Q) /\
    (forall c y x,
       Z.of_nat y < t_pad \/ t_pad + Z.of_nat height <= Z.of_nat y \/
       Z.of_nat x < l_pad \/ l_pad + Z.of_nat width <= Z.of_nat x ->
       (Tensor.data scaled [c; y; x] == 0)%Q).
Proof.
  intros Hh Hw. cbv zeta.
  destruct (margins target_h (Z.of_nat height)) as (Hsum_h & Hdiff_h & Hlo_h & Hhi_h).
  destruct (margins target_w (Z.of_nat width)) as (Hsum_w & Hdiff_w & Hlo_w & Hhi_w).
  cbv zeta in Hsum_h, Hdiff_h, Hlo_h, Hhi_h, Hsum_w, Hdiff_w, Hlo_w, Hhi_w.
  set (t_pad := (target_h - Z.of_nat height) / 2) in *.
  set (l_pad := (target_w - Z.of_nat width) / 2) in *.
  split; [lia|]. split; [lia|]. split; [lia|]. split; [lia|].
  destruct (image_preprocess_checks normalize nc height width img target_h target_w
              rescale_factor image_mean image_std Hh Hw)
    as (scaled & Hrun & Hshape & Hdata).
  exists scaled. split; [exact Hrun|]. split; [exact Hshape|]. split.
  - intros c y x Hy Hx. rewrite Hdata. cbv zeta. fold t_pad l_pad.
    replace (Z.of_nat (Z.to_nat t_pad + y) - t_pad) with (Z.of_nat y) by lia.
    replace (Z.of_nat (Z.to_nat l_pad + x) - l_pad) with (Z.of_nat x) by lia.
    rewrite !Nat2Z.id.
    rewrite (proj2 (Z.leb_le 0 (Z.of_nat y))), (proj2 (Z.leb_le 0 (Z.of_nat x))) by lia.
    rewrite (proj2 (Z.ltb_lt (Z.of_nat y) (Z.of_nat height))),
      (proj2 (Z.ltb_lt (Z.of_nat x) (Z.of_nat width))) by lia.
    reflexivity.
  - intros c y x Hout. rewrite Hdata. cbv zeta. fold t_pad l_pad.
    destruct (_ && _) eqn:E; [|ring].
    apply andb_prop in E as [E Ex2]. apply andb_prop in E as [E Ex1].
    apply andb_prop in E as [Ey1 Ey2].
    apply Z.leb_le in Ey1, Ex1. apply Z.ltb_lt in Ey2, Ex2. lia.
Qed.

Lemma image_preprocess_centres_witness :
  exists scaled,
    image_preprocess per_channel 3 2 3 sample_img 4 4 (1 # 255)
      [1 # 2; 1 # 2; 1 # 2]%Q [1 # 4; 1 # 4; 1 # 4]%Q =
      (let? normed := per_channel scaled [1 # 2; 1 # 2; 1 # 2]%Q [1 # 4; 1 # 4; 1 # 4]%Q in
       Ret (Tensor.unsqueeze0 normed)) /\
    Tensor.shape scaled = [3; 4; 4]%nat.
Proof.
  destruct (image_preprocess_centres per_channel 3 2 3 sample_img 4 4 (1 # 255)
              [1 # 2; 1 # 2; 1 # 2]%Q [1 # 4; 1 # 4; 1 # 4]%Q)
    as (_ & _ & _ & _ & scaled & Hrun & Hshape & _).
  - simpl. lia.
  - simpl. lia.
  - exists scaled. split; [exact Hrun | exact Hshape].
Defined.

(** The sample image on a canvas of 4 by 4: one row above and below, no
    column to the left and one to the right; the margin is zero before
    the normalisation and minus mean over deviation after it. *)
Example image_preprocess_sample :
  match image_preprocess per_channel 3 2 3 sample_img 4 4 (1 # 1)
          [1 # 2; 1 # 2; 1 # 2]%Q [1 # 4; 1 # 4; 1 # 4]%Q with
  | Ret out => Tensor.shape out = [1; 3; 4; 4]%nat /\
               (Tensor.data out [0; 0; 1; 0]%nat == 2)%Q /\
               (Tensor.data out [0; 0; 0; 0]%nat == - 2)%Q /\
               (Tensor.data out [0; 0; 1; 3]%nat == - 2)%Q
  | Raise _ => False
  end.
Proof. vm_compute. done. Qed.

(** X29.  An image higher or wider than the canvas makes
    [image_preprocess] raise [RuntimeError] at its checks, whatever the
    normalisation would do. *)
Theorem image_preprocess_too_large
    (normalize : Tensor Q -> list Q -> list Q -> res (Tensor Q))
    (nc height width : nat) (img : list nat -> Q) (target_h target_w : Z)
    (rescale_factor : Q) (image_mean image_std : list Q) :
  target_h < Z.of_nat height \/ target_w < Z.of_nat width ->
  image_preprocess normalize nc height width img target_h target_w
    rescale_factor image_mean image_std = Raise RuntimeError.
Proof.
  intros Hlarge.
  destruct (margins target_h (Z.of_nat height)) as (_ & _ & Hlo_h & _).
  destruct (margins target_w (Z.of_nat width)) as (_ & _ & Hlo_w & _).
  cbv zeta in Hlo_h, Hlo_w.
  unfold image_preprocess.
  destruct (Z.leb_spec 0 ((target_w - Z.of_nat width) / 2)) as [Hl|Hl]; [|done].
  cbn [_check res_bind].
  destruct (Z.leb_spec 0 ((target_h - Z.of_nat height) / 2)) as [Ht|Ht]; [|done].
  lia.
Qed.

Lemma image_preprocess_too_large_witness :
  image_preprocess per_channel 3 2 3 sample_img 4 2 (1 # 255)
    [1 # 2; 1 # 2; 1 # 2]%Q [1 # 4; 1 # 4; 1 # 4]%Q = Raise RuntimeError.
Proof.
  apply (image_preprocess_too_large per_channel 3 2 3 sample_img 4 2).
  right. simpl. lia.
Defined.

Lemma py_int_bounds (q : Q) (n : Z) :
  (0 <= q)%Q -> (q <= inject_Z n)%Q -> 0 <= py_int q <= n.
Proof.
  destruct q as [num den]. unfold py_int, Qle, inject_Z. cbn [Qnum Qden].
  intros H0 Hn. rewrite Z.mul_1_r in H0. rewrite Z.mul_1_r in Hn.
  rewrite Z.quot_div_nonneg by lia. split.
  - apply Z.div_pos; lia.
  - apply Z.div_le_upper_bound; lia.
Qed.

Lemma py_max_ge (a b : Q) : (a <= py_max a b)%Q /\ (b <= py_max a b)%Q.
Proof.
  unfold py_max. destruct (Rope.Qltb a b) eqn:E.
  - apply Qltb_lt in E. lra.
  - apply Qltb_ge in E. lra.
Qed.

Lemma inject_Z_pos (n : Z) : 0 < n -> (0 < inject_Z n)%Q.
Proof. intros Hn. unfold Qlt, inject_Z. cbn [Qnum Qden]. lia. Qed.

Lemma shrunk_fits (size target ratio : Q) :
  (0 < size)%Q -> (0 < target)%Q -> (size / target <= ratio)%Q ->
  (0 <= size / ratio)%Q /\ (size / ratio <= target)%Q.
Proof.
  intros Hs Ht Hr.
  assert (Hpos : (0 < size / target)%Q) by (apply Qlt_shift_div_l; lra).
  assert (Hratio : (0 < ratio)%Q) by lra.
  split.
  - apply Qle_shift_div_l; lra.
  - apply Qle_shift_div_r; [done|].
    assert (E : (target * (size / target) == size)%Q) by (field; lra).
    assert (Hle : (target * (size / target) <= target * ratio)%Q) by nra.
    lra.
Qed.

(** X30.  For an image and a canvas of positive sizes, the size
    [prepare_image] asks [Resize] for is inside the canvas, and an
    image of that size passes the four checks of [image_preprocess]:
    it is padded to exactly the canvas and handed to the
    normalisation. *)
Theorem output_size_fits
    (normalize : Tensor Q -> list Q -> list Q -> res (Tensor Q))
    (height width : nat) (target_h target_w : Z) :
  (0 < height)%nat -> (0 < width)%nat -> 0 < target_h -> 0 < target_w ->
  exists out_h out_w,
    output_size height width target_h target_w = Ret (out_h, out_w) /\
    0 <= out_h <= target_h /\ 0 <= out_w <= target_w /\
    forall nc img rescale_factor image_mean image_std,
    exists scaled,
      image_preprocess normalize nc (Z.to_nat out_h) (Z.to_nat out_w) img
        target_h target_w rescale_factor image_mean image_std =
        (let? normed := normalize scaled image_mean image_std in
         Ret (Tensor.unsqueeze0 normed)) /\
      Tensor.shape scaled = [nc; Z.to_nat target_h; Z.to_nat target_w].
Proof.
  intros Hh Hw Hth Htw.
  pose proof (inject_Z_pos target_h Hth) as Qth.
  pose proof (inject_Z_pos target_w Htw) as Qtw.
  pose proof (inject_Z_pos (Z.of_nat height) ltac:(lia)) as Qh.
  pose proof (inject_Z_pos (Z.of_nat width) ltac:(lia)) as Qw.
  set (ratio_h := (inject_Z (Z.of_nat height) / inject_Z target_h)%Q).
  set (ratio_w := (inject_Z (Z.of_nat width) / inject_Z target_w)%Q).
  destruct (py_max_ge ratio_h ratio_w) as [Hmax_h Hmax_w].
  destruct (shrunk_fits _ _ _ Qh Qth Hmax_h) as [Hh0 Hh1].
  destruct (shrunk_fits _ _ _ Qw Qtw Hmax_w) as [Hw0 Hw1].
  assert (Hratio : (0 < py_max ratio_h ratio_w)%Q).
  { assert (0 < ratio_h)%Q by (apply Qlt_shift_div_l; lra). lra. }
  pose proof (py_int_bounds _ _ Hh0 Hh1) as Bh.
  pose proof (py_int_bounds _ _ Hw0 Hw1) as Bw.
  eexists _, _. split.
  { unfold output_size.
    rewrite (py_div_nonzero _ (inject_Z target_h)) by lra. cbn [res_bind].
    rewrite (py_div_nonzero _ (inject_Z target_w)) by lra. cbn [res_bind].
    fold ratio_h ratio_w.
    rewrite !(py_div_nonzero _ (py_max ratio_h ratio_w)) by lra.
    reflexivity. }
  split; [exact Bh|]. split; [exact Bw|].
  intros nc img rescale_factor image_mean image_std.
  destruct (image_preprocess_checks normalize nc
              (Z.to_nat (py_int (inject_Z (Z.of_nat height) / py_max ratio_h ratio_w)))
              (Z.to_nat (py_int (inject_Z (Z.of_nat width) / py_max ratio_h ratio_w)))
              img target_h target_w rescale_factor image_mean image_std)
    as (scaled & Hrun & Hshape & _); [lia | lia |].
  by exists scaled.
Qed.

Lemma output_size_fits_witness :
  exists out_h out_w,
    output_size 480 640 336 336 = Ret (out_h, out_w) /\
    0 <= out_h <= 336 /\ 0 <= out_w <= 336.
Proof.
  destruct (output_size_fits per_channel 480 640 336 336)
    as (out_h & out_w & Hrun & Bh & Bw & _).
  - lia.
  - lia.
  - lia.
  - lia.
  - exists out_h, out_w. split; [exact Hrun|]. split; [exact Bh | exact Bw].
Defined.

(** A landscape image of 480 by 640 on the canvas of the Llava
    encoder. *)
Example output_size_sample :
  output_size 480 640 336 336 = Ret (252, 336) /\
  output_size 480 640 0 336 = Raise ZeroDivisionError.
Proof. split; reflexivity. Qed.
End PreprocessFacts.
